(** * zathura: links.c and shortcuts.c, a shallow embedding

    The development follows the two C files function by function.

    Conventions of the embedding.
    - [unsigned int] is a [Z] reduced modulo [2^32] after every operation
      ([wrap32]); converting it to [int] is [to_int].
    - [int] values are plain [Z]; lemmas such as [index_operands_in_int]
      give the ranges in which the C computation stays inside [int].
    - [double] and [gdouble] values are exact rationals ([Q]): the
      embedding describes the arithmetic in [double] without rounding.
      Where the code divides by a run-time value ([sc_adjust_window]) the
      quotient lives in [gdouble], which keeps the IEEE result of a
      division by zero apart from the finite values.
    - A [float] value is the rational it stands for, and every result
      the code holds in a [float] is rounded to the nearest single
      precision value ([Float32.round]): the conversion of an integer or
      a [double] to [float], and each product, quotient, sum and
      difference of [float] operands.
    - A pointer that may be [NULL] is an [option]. *)

From Stdlib Require Import ZArith QArith Qround Qabs Qpower Lia Lqa List Bool.
From Stdlib Require String SpecFloat.
Import ListNotations.

Local Open Scope Z_scope.

(** ** Machine integers *)

Module CInt.

Definition UINT_MODULUS : Z := 2 ^ 32.
Definition INT_MAX : Z := 2 ^ 31 - 1.

(** Value of an [unsigned int] expression. *)
Definition wrap32 (z : Z) : Z := z mod UINT_MODULUS.

(** Conversion of an [unsigned int] value to [int]. *)
Definition to_int (z : Z) : Z := (z + 2 ^ 31) mod UINT_MODULUS - 2 ^ 31.

End CInt.

(** ** Values of [argument->n] used by the shortcuts *)

Inductive argument_n : Type :=
| NEXT | PREVIOUS
| LEFT | RIGHT | UP | DOWN | BOTTOM | TOP
| ZOOM_IN | ZOOM_OUT | ZOOM_SPECIFIC
| FORWARD | BACKWARD
| HALF_UP | HALF_DOWN | FULL_UP | FULL_DOWN
| HALF_LEFT | HALF_RIGHT | FULL_LEFT | FULL_RIGHT
| ARGUMENT_OTHER (n : Z).

(** ** links.c *)

Module Links.

Inductive zathura_link_type : Type :=
| ZATHURA_LINK_INVALID
| ZATHURA_LINK_NONE
| ZATHURA_LINK_GOTO_DEST
| ZATHURA_LINK_GOTO_REMOTE
| ZATHURA_LINK_URI
| ZATHURA_LINK_LAUNCH
| ZATHURA_LINK_NAMED
| ZATHURA_LINK_UNLISTED (raw : Z).
(* [ZATHURA_LINK_UNLISTED] stands for an integer that is none of the
   enumerators. *)

Record zathura_rectangle : Type := {
  x1 : Q; y1 : Q; x2 : Q; y2 : Q
}.

Record zathura_link_target : Type := {
  destination_type : Z;
  value : option String.string;
  page_number : Z;
  left : Q;
  top : Q;
  scale : Q
}.

Record zathura_link : Type := {
  position : zathura_rectangle;
  type : zathura_link_type;
  target : zathura_link_target
}.

(** The target of a link fresh from [g_malloc0]. *)
Definition zeroed_target : zathura_link_target :=
  {| destination_type := 0; value := None; page_number := 0;
     left := 0%Q; top := 0%Q; scale := 0%Q |}.

Definition set_value (t : zathura_link_target) (v : option String.string)
  : zathura_link_target :=
  {| destination_type := destination_type t; value := v;
     page_number := page_number t; left := left t; top := top t;
     scale := scale t |}.

(** [g_strdup] copies the characters; the copy of the empty string is
    the empty string. *)
Definition g_strdup (s : String.string) : String.string := s.

Definition zathura_link_new (ty : zathura_link_type)
    (pos : zathura_rectangle) (tgt : zathura_link_target)
  : option zathura_link :=
  match ty with
  | ZATHURA_LINK_NONE
  | ZATHURA_LINK_GOTO_DEST =>
      Some {| position := pos; type := ty;
              target := match value tgt with
                        | Some v => set_value tgt (Some (g_strdup v))
                        | None => tgt
                        end |}
  | ZATHURA_LINK_GOTO_REMOTE
  | ZATHURA_LINK_URI
  | ZATHURA_LINK_LAUNCH
  | ZATHURA_LINK_NAMED =>
      match value tgt with
      | None => None
      | Some v =>
          Some {| position := pos; type := ty;
                  target := set_value zeroed_target (Some (g_strdup v)) |}
      end
  | ZATHURA_LINK_INVALID
  | ZATHURA_LINK_UNLISTED _ => None
  end.

(** The link types the switch of [zathura_link_new] lists. *)
Definition recognized (ty : zathura_link_type) : bool :=
  match ty with
  | ZATHURA_LINK_INVALID | ZATHURA_LINK_UNLISTED _ => false
  | _ => true
  end.

(** The types whose case checks [target.value]. *)
Definition needs_value (ty : zathura_link_type) : bool :=
  match ty with
  | ZATHURA_LINK_GOTO_REMOTE | ZATHURA_LINK_URI
  | ZATHURA_LINK_LAUNCH | ZATHURA_LINK_NAMED => true
  | _ => false
  end.

(** "The target carries a non-empty string value". *)
Definition carries_nonempty_value (tgt : zathura_link_target) : bool :=
  match value tgt with
  | Some s => negb (String.eqb s String.EmptyString)
  | None => false
  end.

Definition origin : zathura_rectangle :=
  {| x1 := 0%Q; y1 := 0%Q; x2 := 0%Q; y2 := 0%Q |}.

End Links.


(** ** Comparisons of exact values *)

Definition Qltb (a b : Q) : bool := negb (Qle_bool b a).
Definition Qgtb (a b : Q) : bool := Qltb b a.
Definition Qleb (a b : Q) : bool := Qle_bool a b.
Definition Qgeb (a b : Q) : bool := Qle_bool b a.

(** ** Single precision *)

Module Float32.

(** The [float] of the code is the IEEE binary32 format: 24 bits of
    precision, and [2^-149] the smallest positive value. *)
Definition precision : Z := 24.
Definition emin : Z := -149.

Definition pow2 (e : Z) : Q := (2 ^ e)%Q.

(** The integer nearest [q]; of two equally near the even one. *)
Definition nearest_even (q : Q) : Z :=
  let fl := Qfloor q in
  match (2 * (q - inject_Z fl) ?= 1)%Q with
  | Lt => fl
  | Gt => fl + 1
  | Eq => if Z.even fl then fl else fl + 1
  end.

(** For [q] other than 0, the [e] with [2^e <= |q| < 2^(e+1)]. *)
Definition exponent (q : Q) : Z :=
  let e := Z.log2 (Z.abs (Qnum q)) - Z.log2 (Zpos (Qden q)) in
  if Qle_bool (pow2 e) (Qabs q) then e else e - 1.

(** The exponent of the unit in the last place of the floats around
    [q]: 23 below the exponent of [q], and [emin] for the subnormal
    values. *)
Definition ulp_exponent (q : Q) : Z :=
  Z.max (exponent q - (precision - 1)) emin.

(** The float nearest [q], ties going to the even significand: the
    rounding of every conversion to [float] and of every operation on
    [float] operands. The exponent has no upper bound here: where the
    format gives an infinity, [round] gives a value above [largest] in
    size, and [finite] tells the two cases apart. *)
Definition round (q : Q) : Q :=
  if Qeq_bool q 0 then 0%Q
  else
    let e := ulp_exponent q in
    Qred (inject_Z (nearest_even (q / pow2 e)) * pow2 e).

(** [FLT_MAX], the largest float: [(2^24 - 1) * 2^104]. *)
Definition largest : Q := (inject_Z (2 ^ 24 - 1) * pow2 104)%Q.

(** Whether [q] rounds to a float, and not to an infinity. *)
Definition finite (q : Q) : bool := Qle_bool (Qabs (round q)) largest.

End Float32.

(** The same format as the Standard Library describes it ([SpecFloat]
    with 24 bits of precision and exponents below 128), to compare
    [Float32.round] with. *)
Module Reference.

Definition of_Z (z : Z) : SpecFloat.spec_float :=
  match z with
  | 0 => SpecFloat.S754_zero false
  | _ => SpecFloat.binary_normalize 24 128 z 0 false
  end.

Definition mul := SpecFloat.SFmul 24 128.
Definition div := SpecFloat.SFdiv 24 128.
Definition add := SpecFloat.SFadd 24 128.
Definition sub := SpecFloat.SFsub 24 128.

(** Whether the float [f] is finite and stands for [q]. *)
Definition stands_for (f : SpecFloat.spec_float) (q : Q) : bool :=
  match f with
  | SpecFloat.S754_zero _ => Qeq_bool q 0
  | SpecFloat.S754_finite s m e =>
      Qeq_bool q
        ((if s then -1 else 1) * inject_Z (Zpos m) * Float32.pow2 e)%Q
  | _ => false
  end.

(** The operations of [sc_zoom] and [sc_scroll] on a count [z]:
    [z / 100.0f], [z * 0.01f], [33.3f * z], [z / 100.0f + z * 0.01f],
    [z / 100.0f - 33.3f], and the conversion of [2^24 + z] and of
    [2^32 - z] to [float]. *)
Definition agree (z : Z) : bool :=
  let f := Float32.round in
  let zq := f (inject_Z z) in
  let percent := f (zq / 100)%Q in
  let limit := f (zq * f (1 # 100))%Q in
  let step := f (333 # 10) in
  stands_for (div (of_Z z) (of_Z 100)) percent
  && stands_for (mul (of_Z z) (div (of_Z 1) (of_Z 100))) limit
  && stands_for (mul (div (of_Z 333) (of_Z 10)) (of_Z z)) (f (step * zq)%Q)
  && stands_for (add (div (of_Z z) (of_Z 100))
                   (mul (of_Z z) (div (of_Z 1) (of_Z 100))))
       (f (percent + limit)%Q)
  && stands_for (sub (div (of_Z z) (of_Z 100)) (div (of_Z 333) (of_Z 10)))
       (f (percent - step)%Q)
  && stands_for (of_Z (2 ^ 24 + z)) (f (inject_Z (2 ^ 24 + z)))
  && stands_for (of_Z (2 ^ 32 - z)) (f (inject_Z (2 ^ 32 - z))).

Fixpoint upto (n : nat) : list Z :=
  match n with
  | O => []
  | S k => upto k ++ [Z.of_nat n]
  end.

End Reference.

(** ** shortcuts.c: [sc_navigate] *)

Module Navigate.
Import CInt.

Record settings : Type := {
  scroll_wrap : bool;
  advance_pages_per_row : bool;
  pages_per_row : Z
}.

(** What the call does to the viewer: [page_set] with a page, a plain
    [return false] before it, or a remainder by zero. *)
Inductive outcome : Type :=
| PageSet (page : Z)
| Returned
| RemainderByZero.

(** The count in force: [t = (t == 0) ? (unsigned int) offset : t]. *)
Definition count (cfg : settings) (t : Z) : Z :=
  let offset := if advance_pages_per_row cfg then pages_per_row cfg else 1 in
  if t =? 0 then wrap32 offset else t.

(** [new_page] after the [NEXT]/[PREVIOUS] block.  [t] is [unsigned int],
    so every sum is taken in [unsigned int] and stored back into the
    [int] variable. *)
Definition new_page (number_of_pages current_page : Z) (cfg : settings)
    (n : argument_n) (t : Z) : option Z :=
  let t := count cfg t in
  match n with
  | NEXT =>
      if scroll_wrap cfg then
        if wrap32 number_of_pages =? 0 then None
        else Some (to_int (wrap32 (current_page + t)
                           mod wrap32 number_of_pages))
      else Some (to_int (wrap32 (current_page + t)))
  | PREVIOUS =>
      if scroll_wrap cfg then
        if wrap32 number_of_pages =? 0 then None
        else Some (to_int (wrap32 (wrap32 (current_page + number_of_pages) - t)
                           mod wrap32 number_of_pages))
      else Some (to_int (wrap32 (current_page - t)))
  | _ => Some current_page
  end.

Definition sc_navigate (number_of_pages current_page : Z) (cfg : settings)
    (n : argument_n) (t : Z) : outcome :=
  match new_page number_of_pages current_page cfg n t with
  | None => RemainderByZero
  | Some p =>
      if ((p <? 0) || (number_of_pages <=? p)) && negb (scroll_wrap cfg)
      then Returned
      else PageSet p
  end.

(** Settings with scroll-wrap on and the page step left at one. *)
Definition wrapping : settings :=
  {| scroll_wrap := true; advance_pages_per_row := false;
     pages_per_row := 1 |}.

End Navigate.

(** ** shortcuts.c: [sc_zoom] *)

Module Zoom.
Import CInt.

Record settings : Type := {
  zoom_step : Z;
  zoom_min : Z;
  zoom_max : Z
}.

(** [sc_zoom] computes in [float]. The definitions of this section take
    the rounding to [float] as [float]: with [Float32.round] they are the
    code, and with [exact] they are the same computation without
    rounding. *)
Definition exact (q : Q) : Q := q.

Section Rounding.

Variable float : Q -> Q.

(** [0.01f] *)
Definition hundredth : Q := float (1 # 100).

(** [float zoom_step = value / 100.0f * nt] *)
Definition float_zoom_step (cfg : settings) (t : Z) : Q :=
  let nt := if t =? 0 then 1 else to_int t in
  float (float (float (inject_Z (zoom_step cfg)) / 100)
         * float (inject_Z nt))%Q.

(** The scale stored by the [ZOOM_IN] / [ZOOM_OUT] / [ZOOM_SPECIFIC]
    cascade, before the limits are applied. *)
Definition requested_scale (cfg : settings) (old_zoom : Q) (n : argument_n)
    (t : Z) : Q :=
  let zoom_step := float_zoom_step cfg t in
  let old_zoom := float old_zoom in
  match n with
  | ZOOM_IN => float (old_zoom + zoom_step)%Q
  | ZOOM_OUT => float (old_zoom - zoom_step)%Q
  | ZOOM_SPECIFIC =>
      if t =? 0 then 1%Q else float (float (inject_Z t) / 100)%Q
  | _ => 1%Q
  end.

(** [float zoom_min = zoom_min_int * 0.01f] and
    [float zoom_max = zoom_max_int * 0.01f] *)
Definition float_zoom_min (cfg : settings) : Q :=
  float (float (inject_Z (zoom_min cfg)) * hundredth)%Q.

Definition float_zoom_max (cfg : settings) : Q :=
  float (float (inject_Z (zoom_max cfg)) * hundredth)%Q.

(** The "zoom limitations" block, on the scale stored so far. *)
Definition limit_scale (cfg : settings) (stored : Q) : Q :=
  let zoom_min := float_zoom_min cfg in
  let zoom_max := float_zoom_max cfg in
  let scale := float stored in
  if Qltb scale zoom_min then zoom_min
  else if Qgtb scale zoom_max then zoom_max
  else stored.

(** The scale of the document when [sc_zoom] returns. *)
Definition sc_zoom (cfg : settings) (old_zoom : Q) (n : argument_n) (t : Z)
  : Q :=
  limit_scale cfg (requested_scale cfg old_zoom n t).

End Rounding.

End Zoom.

(** ** shortcuts.c: [sc_scroll] *)

Module Scroll.

(** The three numbers read from the [GtkAdjustment]. *)
Record adjustment : Type := {
  value : Q;
  page_size : Q;
  upper : Q
}.

(** [scroll_step], [scroll_hstep] and [scroll_full_overlap] are the
    values of the [float] variables of these names. *)
Record settings : Type := {
  scroll_step : Q;
  scroll_hstep : Q;
  scroll_full_overlap : Q;
  scroll_page_aware : bool;
  scroll_wrap : bool;
  padding : Z
}.

(** What the page-aware block reads about the current page:
    the [int] values of [offset.x] and [offset.y], the page's width and
    height and the document's scale. *)
Record current_page : Type := {
  offset_x : Z;
  offset_y : Z;
  width : Q;
  height : Q;
  scale : Q
}.

(** The directions that select the horizontal adjustment. *)
Definition horizontal (n : argument_n) : bool :=
  match n with
  | LEFT | FULL_LEFT | HALF_LEFT | RIGHT | FULL_RIGHT | HALF_RIGHT => true
  | _ => false
  end.

(** [if (t == 0) t = 1]. *)
Definition step_count (t : Z) : Z := if t =? 0 then 1 else t.

(** [scroll_hstep] after [if (scroll_hstep < 0) scroll_hstep = scroll_step]. *)
Definition hstep (cfg : settings) : Q :=
  if Qltb (scroll_hstep cfg) 0 then scroll_step cfg else scroll_hstep cfg.

Definition max_value (adj : adjustment) : Q := (upper adj - page_size adj)%Q.

(** [scroll_step * t] and [scroll_hstep * t]: the [unsigned int] count is
    converted to [float] and the product is formed in [float]. *)
Definition step_product (step : Q) (t : Z) : Q :=
  Float32.round (step * Float32.round (inject_Z t))%Q.

(** [new_value] after the [switch]; [t] is the count as the [switch]
    finds it. The step sizes and the overlap are [float] variables; the
    sums and the products with [view_size] are formed in [double]. *)
Definition switch_value (cfg : settings) (adj : adjustment) (n : argument_n)
    (t : Z) : Q :=
  let view_size := page_size adj in
  let value := value adj in
  let pad := inject_Z (padding cfg) in
  (match n with
   | FULL_UP | FULL_LEFT =>
       value - (1 - scroll_full_overlap cfg) * view_size - pad
   | FULL_DOWN | FULL_RIGHT =>
       value + (1 - scroll_full_overlap cfg) * view_size + pad
   | HALF_UP | HALF_LEFT => value - ((view_size + pad) / 2)
   | HALF_DOWN | HALF_RIGHT => value + ((view_size + pad) / 2)
   | LEFT => value - step_product (hstep cfg) t
   | UP => value - step_product (scroll_step cfg) t
   | RIGHT => value + step_product (hstep cfg) t
   | DOWN => value + step_product (scroll_step cfg) t
   | TOP => 0
   | BOTTOM => max_value adj
   | _ => value
   end)%Q.

(** [new_value] after the [scroll_wrap] block. *)
Definition wrap_value (cfg : settings) (adj : adjustment) (new_value : Q) : Q :=
  if scroll_wrap cfg then
    if Qltb new_value 0 then max_value adj
    else if Qgtb new_value (max_value adj) then 0%Q
    else new_value
  else new_value.

Definition forward_page_move (n : argument_n) : bool :=
  match n with
  | FULL_DOWN | HALF_DOWN | FULL_RIGHT | HALF_RIGHT => true
  | _ => false
  end.

Definition backward_page_move (n : argument_n) : bool :=
  match n with
  | FULL_UP | HALF_UP | FULL_LEFT | HALF_LEFT => true
  | _ => false
  end.

(** [new_value] after the [scroll_page_aware] block. *)
Definition page_aware_value (cfg : settings) (adj : adjustment)
    (page : current_page) (n : argument_n) (new_value : Q) : Q :=
  if scroll_page_aware cfg then
    let view_size := page_size adj in
    let value := value adj in
    let page_offset :=
      (if horizontal n then offset_x page else offset_y page)
      - Z.quot (padding cfg) 2 in
    let page_size :=
      ((if horizontal n then width page * scale page
        else height page * scale page) + inject_Z (padding cfg))%Q in
    let page_offset := inject_Z page_offset in
    if forward_page_move n then
      if Qgtb page_offset value && Qltb page_offset (value + view_size) then
        page_offset
      else if Qleb page_offset value
              && Qltb (page_offset + page_size) (value + view_size) then
        (page_offset + page_size + 1)%Q
      else if Qleb page_offset value
              && Qltb (page_offset + page_size) (new_value + view_size) then
        (page_offset + page_size - view_size + 1)%Q
      else new_value
    else if backward_page_move n then
      if Qgeb (page_offset + 1) value
         && Qltb page_offset (value + view_size) then
        (page_offset - view_size)%Q
      else if Qleb page_offset value
              && Qltb (page_offset + page_size + 1) (value + view_size) then
        (page_offset + page_size - view_size)%Q
      else if Qleb page_offset value && Qgtb page_offset new_value then
        page_offset
      else new_value
    else new_value
  else new_value.

(** The adjustment the shortcut works on. *)
Definition select_adjustment (hadjustment vadjustment : adjustment)
    (n : argument_n) : adjustment :=
  if horizontal n then hadjustment else vadjustment.

(** The value handed to [zathura_adjustment_set_value]. *)
Definition sc_scroll (cfg : settings) (hadjustment vadjustment : adjustment)
    (page : current_page) (n : argument_n) (t : Z) : Q :=
  let t := step_count t in
  let adj := select_adjustment hadjustment vadjustment n in
  page_aware_value cfg adj page n
    (wrap_value cfg adj (switch_value cfg adj n t)).

End Scroll.

(** ** shortcuts.c: [sc_adjust_window] *)

Module Adjust.
Import CInt.

Inductive zathura_adjust_mode : Type :=
| ZATHURA_ADJUST_NONE
| ZATHURA_ADJUST_BESTFIT
| ZATHURA_ADJUST_WIDTH
| ZATHURA_ADJUST_INPUTBAR
| ZATHURA_ADJUST_UNLISTED (raw : Z).

(** A [double] that came out of a division of two [unsigned int] values:
    a finite value, the infinity of [x / 0] or the NaN of [0 / 0]. *)
Inductive gdouble : Type :=
| Finite (q : Q)
| Infinite
| NotANumber.

(** [(double) a / (double) b] for [unsigned int] values [a] and [b]. *)
Definition quotient (a b : Z) : gdouble :=
  if b =? 0 then (if a =? 0 then NotANumber else Infinite)
  else Finite (inject_Z a / inject_Z b)%Q.

(** [x < y] on such values. *)
Definition gdouble_ltb (x y : gdouble) : bool :=
  match x, y with
  | Finite p, Finite q => Qltb p q
  | Finite _, Infinite => true
  | _, _ => false
  end.

Record settings : Type := {
  pages_per_row : Z;
  padding : Z;
  show_scrollbars : bool
}.

(** What the function reads from the widgets: the allocation of the view,
    its [scrollbar_spacing], the input bar, and the requisition width of
    the vertical scrollbar when there is one. *)
Record view : Type := {
  allocation_width : Z;
  allocation_height : Z;
  scrollbar_spacing : Z;
  inputbar_visible : bool;
  inputbar_height : Z;
  vscrollbar : option Z
}.

(** What the function reads from the document: the cell size delivered by
    [zathura_document_get_cell_size] at scale 1.0 and, for every scale of
    the document, the (height, width) pair delivered by
    [zathura_get_document_size].  Both functions are defined outside
    shortcuts.c. *)
Record document : Type := {
  cell_height : Z;
  cell_width : Z;
  document_size : gdouble -> Z * Z
}.

(** The state of the document on return, and whether [render_all] ran. *)
Record result : Type := {
  adjust_mode : zathura_adjust_mode;
  scale : gdouble;
  rendered : bool
}.

(** [width] after the scrollbar spacing was taken off. *)
Definition view_width (v : view) : Z :=
  wrap32 (wrap32 (allocation_width v) - scrollbar_spacing v).

(** [height] after the input bar was added. *)
Definition view_height (v : view) : Z :=
  if inputbar_visible v
  then wrap32 (wrap32 (allocation_height v) + inputbar_height v)
  else wrap32 (allocation_height v).

(** [(double)(width - (pages_per_row - 1) * padding) /
     (double)(pages_per_row * cell_width)], all in [unsigned int]. *)
Definition width_scale (cfg : settings) (doc : document) (width : Z)
  : gdouble :=
  quotient
    (wrap32 (width - wrap32 (wrap32 (pages_per_row cfg - 1) * padding cfg)))
    (wrap32 (pages_per_row cfg * cell_width doc)).

(** The guard of the correction: scrollbars are shown, the document is
    taller than the view, there is a vertical scrollbar and its width is
    positive and below the width of the view. *)
Definition correction (cfg : settings) (v : view) (doc : document)
    (height width : Z) (scale : gdouble) : option Z :=
  if show_scrollbars cfg then
    if height <? fst (document_size doc scale) then
      match vscrollbar v with
      | Some requisition_width =>
          if (0 <? requisition_width) && (wrap32 requisition_width <? width)
          then Some requisition_width
          else None
      | None => None
      end
    else None
  else None.

(** The branch taken for [ZATHURA_ADJUST_WIDTH]. *)
Definition fit_width (cfg : settings) (v : view) (doc : document)
    (height width : Z) : gdouble :=
  let scale := width_scale cfg doc width in
  match correction cfg v doc height width scale with
  | Some requisition_width =>
      width_scale cfg doc (wrap32 (width - requisition_width))
  | None => scale
  end.

Definition page_ratio (doc : document) : gdouble :=
  quotient (cell_height doc) (snd (document_size doc (Finite 1))).

Definition window_ratio (v : view) : gdouble :=
  quotient (view_height v) (view_width v).

(** [sc_adjust_window] on a session with a page widget and a document;
    [old_scale] is the scale of the document on entry. *)
Definition sc_adjust_window (cfg : settings) (v : view) (doc : document)
    (old_scale : gdouble) (n : zathura_adjust_mode) : result :=
  match n with
  | ZATHURA_ADJUST_NONE =>
      {| adjust_mode := n; scale := old_scale; rendered := false |}
  | _ =>
      let width := view_width v in
      let height := view_height v in
      let as_width :=
        match n with
        | ZATHURA_ADJUST_WIDTH => true
        | ZATHURA_ADJUST_BESTFIT =>
            gdouble_ltb (page_ratio doc) (window_ratio v)
        | _ => false
        end in
      if as_width then
        {| adjust_mode := n; scale := fit_width cfg v doc height width;
           rendered := true |}
      else
        match n with
        | ZATHURA_ADJUST_BESTFIT =>
            {| adjust_mode := n;
               scale := quotient height (cell_height doc);
               rendered := true |}
        | _ => {| adjust_mode := n; scale := Finite 1; rendered := false |}
        end
  end.

(** The quotient of section 4.2 for WIDTH over exact values:
    (viewportWidth - (pagesPerRow - 1) * padding) /
    (pagesPerRow * unscaledCellWidth). *)
Definition width_formula (cfg : settings) (doc : document)
    (viewport_width : Z) : Q :=
  ((inject_Z viewport_width
    - (inject_Z (pages_per_row cfg) - 1) * inject_Z (padding cfg))
   / (inject_Z (pages_per_row cfg) * inject_Z (cell_width doc)))%Q.

(** [x] is the finite value [q]. *)
Definition finite_eq (x : gdouble) (q : Q) : Prop :=
  match x with
  | Finite p => (p == q)%Q
  | _ => False
  end.

End Adjust.

(** ** The viewer as the shortcuts see it *)

Record zathura_jump : Type := {
  jump_page : Z;
  jump_x : Q;
  jump_y : Q
}.

(** The functions of zathura.c and document.c that [sc_bisect] calls.
    shortcuts.c only uses them through their prototypes, so [sc_bisect] is
    written against this interface. *)
Class Viewer (zathura : Type) : Type := {
  zathura_document_get_number_of_pages : zathura -> Z;
  zathura_document_get_current_page_number : zathura -> Z;
  page_set : zathura -> Z -> zathura;
  zathura_jumplist_save : zathura -> zathura;
  zathura_jumplist_add : zathura -> zathura;
  zathura_jumplist_forward : zathura -> zathura;
  zathura_jumplist_backward : zathura -> zathura;
  zathura_jumplist_has_previous : zathura -> bool;
  zathura_jumplist_current : zathura -> option zathura_jump
}.

(** ** shortcuts.c: [sc_bisect] *)

Module Bisect.
Import CInt.

Section WithViewer.

Context {zathura : Type} `{Viewer zathura}.

(** The "process arguments" block, entered after
    [zathura_jumplist_save]: the viewer and [direction].
    [number_of_pages] and [cur_page] are the values read on entry. *)
Definition process_arguments (z : zathura) (number_of_pages cur_page : Z)
    (n : argument_n) (t : Z) : zathura * argument_n :=
  if (0 <? t) && (t <=? number_of_pages) then
    let z := page_set z (wrap32 (t - 1)) in
    let z := zathura_jumplist_add z in
    (z, if cur_page <? wrap32 (t - 1) then BACKWARD else FORWARD)
  else (z, n).

(** The look at the two jumps before the current one: the viewer with the
    cursor moved forward again, [prev_page] when [have_prev] and
    [prev2_page] when [have_prev2]. *)
Definition previous_jumps (z : zathura) : zathura * option Z * option Z :=
  if zathura_jumplist_has_previous z then
    let z := zathura_jumplist_backward z in
    let prev := option_map jump_page (zathura_jumplist_current z) in
    let '(z, prev2) :=
      if zathura_jumplist_has_previous z then
        let z := zathura_jumplist_backward z in
        let prev2 := option_map jump_page (zathura_jumplist_current z) in
        (zathura_jumplist_forward z, prev2)
      else (z, None) in
    (zathura_jumplist_forward z, prev, prev2)
  else (z, None, None).

(** [have && cur_page <= page]. *)
Definition at_or_after (cur_page : Z) (jump : option Z) : bool :=
  match jump with
  | Some page => cur_page <=? page
  | None => false
  end.

(** [have && page <= cur_page]. *)
Definition at_or_before (cur_page : Z) (jump : option Z) : bool :=
  match jump with
  | Some page => page <=? cur_page
  | None => false
  end.

(** [prev_page] and [prev2_page] start at 0. *)
Definition jump_or_zero (jump : option Z) : Z :=
  match jump with
  | Some page => page
  | None => 0
  end.

(** The [switch (direction)] block; [cur_page] is the page number read
    after the arguments were processed. *)
Definition bisect (z : zathura) (number_of_pages cur_page : Z)
    (direction : argument_n) (prev prev2 : option Z) : zathura :=
  let prev_page := jump_or_zero prev in
  let prev2_page := jump_or_zero prev2 in
  match direction with
  | FORWARD =>
      if at_or_after cur_page prev then
        if cur_page <? prev_page then
          zathura_jumplist_add
            (page_set z (wrap32 (cur_page + prev_page) / 2))
        else z
      else if at_or_after cur_page prev2 then
        if cur_page <? prev2_page then
          let z := zathura_jumplist_backward z in
          let z := zathura_jumplist_save z in
          let z := zathura_jumplist_forward z in
          zathura_jumplist_save
            (page_set z (wrap32 (cur_page + prev2_page) / 2))
        else z
      else
        zathura_jumplist_add
          (page_set z (wrap32 (wrap32 (cur_page + number_of_pages) - 1) / 2))
  | BACKWARD =>
      if at_or_before cur_page prev then
        if prev_page <? cur_page then
          zathura_jumplist_add
            (page_set z (wrap32 (cur_page + prev_page) / 2))
        else z
      else if at_or_before cur_page prev2 then
        if prev2_page <? cur_page then
          let z := zathura_jumplist_backward z in
          let z := zathura_jumplist_save z in
          let z := zathura_jumplist_forward z in
          zathura_jumplist_save
            (page_set z (wrap32 (cur_page + prev2_page) / 2))
        else z
      else
        zathura_jumplist_add (page_set z (cur_page / 2))
  | _ => z
  end.

Definition sc_bisect (z : zathura) (n : argument_n) (t : Z) : zathura :=
  let number_of_pages := zathura_document_get_number_of_pages z in
  let cur_page := zathura_document_get_current_page_number z in
  let z := zathura_jumplist_save z in
  let '(z, direction) := process_arguments z number_of_pages cur_page n t in
  let cur_page := zathura_document_get_current_page_number z in
  let '(z, prev, prev2) := previous_jumps z in
  bisect z number_of_pages cur_page direction prev prev2.

End WithViewer.

End Bisect.

(** ** A viewer with pages, search cursors and a jumplist *)

Module Session.

(** Modelled from the spec: the per-page search cursor of section 3,
    [{resultIndex, resultCount}]; the page widget that keeps the properties
    "search-current" and "search-length" is defined in page-widget.c. *)
Record page_widget : Type := {
  search_current : Z;
  search_length : Z
}.

Record zathura : Type := {
  pages : list page_widget;
  current_page_number : Z;
  position_x : Q;
  position_y : Q;
  search_direction : argument_n;
  jumplist : list zathura_jump;
  jumplist_cur : nat;
  jumplist_max_size : nat
}.

Definition number_of_pages (z : zathura) : Z := Z.of_nat (length (pages z)).

(** [zathura_document_get_page]: [NULL] outside the page table. *)
Definition zathura_document_get_page (z : zathura) (index : Z)
  : option page_widget :=
  if (0 <=? index) && (index <? number_of_pages z)
  then nth_error (pages z) (Z.to_nat index)
  else None.

Definition zathura_document_set_current_page_number (z : zathura) (index : Z)
  : zathura :=
  {| pages := pages z; current_page_number := index;
     position_x := position_x z; position_y := position_y z;
     search_direction := search_direction z;
     jumplist := jumplist z; jumplist_cur := jumplist_cur z;
     jumplist_max_size := jumplist_max_size z |}.

Definition with_pages (z : zathura) (ps : list page_widget) : zathura :=
  {| pages := ps; current_page_number := current_page_number z;
     position_x := position_x z; position_y := position_y z;
     search_direction := search_direction z;
     jumplist := jumplist z; jumplist_cur := jumplist_cur z;
     jumplist_max_size := jumplist_max_size z |}.

Definition with_jumplist (z : zathura) (js : list zathura_jump) (cur : nat)
  : zathura :=
  {| pages := pages z; current_page_number := current_page_number z;
     position_x := position_x z; position_y := position_y z;
     search_direction := search_direction z;
     jumplist := js; jumplist_cur := cur;
     jumplist_max_size := jumplist_max_size z |}.

Fixpoint replace_nth {A : Type} (l : list A) (i : nat) (a : A) : list A :=
  match l, i with
  | [], _ => []
  | _ :: l', O => a :: l'
  | b :: l', S i' => b :: replace_nth l' i' a
  end.

(** [g_object_set(page_widget, "search-current", current, NULL)] on the
    widget of page [index]. *)
Definition set_search_current (z : zathura) (index : Z) (current : Z)
  : zathura :=
  match zathura_document_get_page z index with
  | Some page =>
      with_pages z
        (replace_nth (pages z) (Z.to_nat index)
           {| search_current := current;
              search_length := search_length page |})
  | None => z
  end.

(** Modelled from the spec: [page_set] of zathura.c, the
    [setCurrentPageIndex] of section 6; a page outside the document changes
    nothing. *)
Definition set_current_page_index (z : zathura) (page_id : Z) : zathura :=
  match zathura_document_get_page z page_id with
  | Some _ => zathura_document_set_current_page_number z page_id
  | None => z
  end.

(** The jump entry for the position the viewer shows. *)
Definition here (z : zathura) : zathura_jump :=
  {| jump_page := current_page_number z;
     jump_x := position_x z; jump_y := position_y z |}.

(** Modelled from the spec: [save()] of section 4.4 (zathura.c): the
    entries after the cursor are dropped and the entry at the cursor is
    overwritten with the current position; an empty list receives it as its
    only entry. The cursor stays. *)
Definition save (z : zathura) : zathura :=
  match jumplist z with
  | [] => with_jumplist z [here z] 0
  | _ => with_jumplist z (firstn (jumplist_cur z) (jumplist z) ++ [here z])
           (jumplist_cur z)
  end.

(** Modelled from the spec: [add()] of section 4.4 (zathura.c): the entries
    after the cursor are dropped, the current position is appended and the
    cursor moves to it; above the capacity the oldest entry goes. *)
Definition add (z : zathura) : zathura :=
  let kept := firstn (S (jumplist_cur z)) (jumplist z) ++ [here z] in
  let kept :=
    if (jumplist_max_size z <? length kept)%nat then tl kept else kept in
  with_jumplist z kept (Nat.pred (length kept)).

(** Modelled from the spec: [forward()] of section 4.4 (zathura.c). *)
Definition forward (z : zathura) : zathura :=
  if (S (jumplist_cur z) <? length (jumplist z))%nat
  then with_jumplist z (jumplist z) (S (jumplist_cur z))
  else z.

(** Modelled from the spec: [hasPrevious()] of section 4.4 (zathura.c). *)
Definition has_previous (z : zathura) : bool :=
  (0 <? jumplist_cur z)%nat.

(** Modelled from the spec: [backward()] of section 4.4 (zathura.c). *)
Definition backward (z : zathura) : zathura :=
  if has_previous z
  then with_jumplist z (jumplist z) (Nat.pred (jumplist_cur z))
  else z.

(** Modelled from the spec: [current()] of section 4.4 (zathura.c). *)
Definition current (z : zathura) : option zathura_jump :=
  nth_error (jumplist z) (jumplist_cur z).

#[export] Instance viewer : Viewer zathura := {|
  zathura_document_get_number_of_pages := number_of_pages;
  zathura_document_get_current_page_number := current_page_number;
  page_set := set_current_page_index;
  zathura_jumplist_save := save;
  zathura_jumplist_add := add;
  zathura_jumplist_forward := forward;
  zathura_jumplist_backward := backward;
  zathura_jumplist_has_previous := has_previous;
  zathura_jumplist_current := current
|}.

End Session.

(** ** shortcuts.c: [sc_search] *)

Module Search.
Import Session.

(** How a run of the loops ends: normally, with the iteration budget of
    the inner loop used up, or at a page pointer that is [NULL] where the
    code uses it unchecked. *)
Inductive outcome (A : Type) : Type :=
| Done (a : A)
| OutOfFuel
| NullPage.

Arguments Done {A} a.
Arguments OutOfFuel {A}.
Arguments NullPage {A}.

(** [diff] after the two statements that set it. *)
Definition diff (n : argument_n) (search_direction : argument_n) : Z :=
  let diff := match n with FORWARD => 1 | _ => -1 end in
  match search_direction with
  | BACKWARD => - diff
  | _ => diff
  end.

(** The index handed to [zathura_document_get_page] by the outer loop. *)
Definition page_index (num_pages cur_page diff page_id : Z) : Z :=
  Z.rem (cur_page + diff * page_id + num_pages) num_pages.

(** The index handed to [zathura_document_get_page] by the inner loop. *)
Definition npage_index (num_pages cur_page diff page_id npage_id : Z) : Z :=
  Z.rem (cur_page + diff * (page_id + npage_id) + 2 * num_pages) num_pages.

(** The inner loop [for (int npage_id = 1; page_id < num_pages; ++npage_id)].
    Its guard does not change while it runs, so the recursion is on a
    budget of iterations. The result is the viewer and the target (page
    index, result index). *)
Fixpoint next_page (fuel : nat) (z : zathura)
    (num_pages cur_page diff page_id npage_id : Z)
  : outcome (zathura * (Z * Z)) :=
  match fuel with
  | O => OutOfFuel
  | S fuel' =>
      let index := npage_index num_pages cur_page diff page_id npage_id in
      match zathura_document_get_page z index with
      | None => NullPage
      | Some npage =>
          let z := zathura_document_set_current_page_number z index in
          let num_search_results := search_length npage in
          if negb (num_search_results =? 0) then
            Done (z, (index,
                      if diff =? 1 then 0 else num_search_results - 1))
          else next_page fuel' z num_pages cur_page diff page_id
                 (npage_id + 1)
      end
  end.

(** The outer loop [for (int page_id = 0; page_id < num_pages; ++page_id)];
    [remaining] counts the iterations left, [num_pages - page_id]. *)
Fixpoint find_target (fuel remaining : nat) (z : zathura)
    (num_pages cur_page diff page_id : Z)
  : outcome (zathura * option (Z * Z)) :=
  match remaining with
  | O => Done (z, None)
  | S remaining' =>
      let index := page_index num_pages cur_page diff page_id in
      let continue :=
        find_target fuel remaining' z num_pages cur_page diff (page_id + 1) in
      match zathura_document_get_page z index with
      | None => continue
      | Some page =>
          let current := search_current page in
          let num_search_results := search_length page in
          if (num_search_results =? 0) || (current =? -1) then continue
          else if (diff =? 1) && (current <? num_search_results - 1) then
            Done (z, Some (index, current + 1))
          else if (diff =? -1) && (0 <? current) then
            Done (z, Some (index, current - 1))
          else
            let z := zathura_jumplist_save z in
            let z := set_search_current z index (-1) in
            match next_page fuel z num_pages cur_page diff page_id 1 with
            | Done (z, target) => Done (zathura_jumplist_add z, Some target)
            | OutOfFuel => OutOfFuel
            | NullPage => NullPage
            end
      end
  end.

(** [sc_search] up to the point where the target's "search-current" is
    stored: the viewer and the target (page index, result index), if one
    was found. The scroll position the function derives from the target's
    rectangle afterwards is outside this embedding. *)
Definition sc_search (fuel : nat) (z : zathura) (n : argument_n)
  : outcome (zathura * option (Z * Z)) :=
  let num_pages := number_of_pages z in
  let cur_page := current_page_number z in
  let diff := diff n (search_direction z) in
  match find_target fuel (Z.to_nat num_pages) z num_pages cur_page diff 0 with
  | Done (z, Some (index, target_idx)) =>
      Done (set_search_current z index target_idx, Some (index, target_idx))
  | other => other
  end.

(** The target of a run, if it ended with one. *)
Definition target {A B : Type} (r : outcome (A * option B)) : option B :=
  match r with
  | Done (_, t) => t
  | _ => None
  end.

(** The viewer after a run; [z] itself if the run did not end normally. *)
Definition viewer_after {B : Type} (z : zathura)
    (r : outcome (zathura * B)) : zathura :=
  match r with
  | Done (z', _) => z'
  | _ => z
  end.

(** A viewer on a document given by its per-page result counts, with the
    result [current] of page [active] selected and page [cur_page] shown. *)
Definition search_session (counts : list Z) (active current cur_page : Z)
  : zathura :=
  {| pages :=
       map (fun '(i, c) =>
              {| search_current := if Z.of_nat i =? active then current
                                   else -1;
                 search_length := c |})
           (combine (seq 0 (length counts)) counts);
     current_page_number := cur_page;
     position_x := 0%Q; position_y := 0%Q;
     search_direction := FORWARD;
     jumplist := []; jumplist_cur := 0%nat; jumplist_max_size := 2000%nat |}.

End Search.

(** ** Inputs used in the examples *)

Module Sample.

(** Zoom limits set the wrong way round: zoom-min 200, zoom-max 100. *)
Definition limits_crossed : Zoom.settings :=
  {| Zoom.zoom_step := 50; Zoom.zoom_min := 200; Zoom.zoom_max := 100 |}.

(** The limits zathura starts with: zoom-step 10, zoom-min 10,
    zoom-max 1000. *)
Definition limits_default : Zoom.settings :=
  {| Zoom.zoom_step := 10; Zoom.zoom_min := 10; Zoom.zoom_max := 1000 |}.

(** Scroll settings: steps of 40, no overlap, padding 1. *)
Definition scrolling (page_aware wrap : bool) : Scroll.settings :=
  {| Scroll.scroll_step := 40; Scroll.scroll_hstep := -1;
     Scroll.scroll_full_overlap := 0;
     Scroll.scroll_page_aware := page_aware; Scroll.scroll_wrap := wrap;
     Scroll.padding := 1 |}.

(** A view of 500 pixels on a canvas of 1010, scrolled to the top. *)
Definition at_top : Scroll.adjustment :=
  {| Scroll.value := 0; Scroll.page_size := 500; Scroll.upper := 1010 |}.

(** Scroll settings with scroll-step 33.3: the [float] variable holds
    the float nearest 33.3, which is 8729395 / 2^18. *)
Definition fine_steps : Scroll.settings :=
  {| Scroll.scroll_step := Float32.round (333 # 10);
     Scroll.scroll_hstep := -1;
     Scroll.scroll_full_overlap := 0;
     Scroll.scroll_page_aware := false; Scroll.scroll_wrap := false;
     Scroll.padding := 1 |}.

(** The same view, scrolled to 10. *)
Definition at_ten : Scroll.adjustment :=
  {| Scroll.value := 10; Scroll.page_size := 500; Scroll.upper := 1010 |}.

(** The first page of a column of pages 100 high at scale 1. *)
Definition first_page : Scroll.current_page :=
  {| Scroll.offset_x := 0; Scroll.offset_y := 0;
     Scroll.width := 100; Scroll.height := 100; Scroll.scale := 1 |}.

(** Two pages per row, padding 1, no room kept for scrollbars. *)
Definition two_columns : Adjust.settings :=
  {| Adjust.pages_per_row := 2; Adjust.padding := 1;
     Adjust.show_scrollbars := false |}.

(** A view 100 wide and 60 high, without spacing and input bar. *)
Definition small_view : Adjust.view :=
  {| Adjust.allocation_width := 100; Adjust.allocation_height := 60;
     Adjust.scrollbar_spacing := 0; Adjust.inputbar_visible := false;
     Adjust.inputbar_height := 0; Adjust.vscrollbar := None |}.

(** Cells 100 by 100 in one row of two: at scale 1.0 the document is 100
    high and 2 * 100 + 1 = 201 wide. With [two_columns] no other scale is
    asked for. *)
Definition one_row_of_two : Adjust.document :=
  {| Adjust.cell_height := 100; Adjust.cell_width := 100;
     Adjust.document_size := fun _ => (100, 201) |}.

(** A viewer on a document of ten pages without search results, showing
    page 5, with an empty jumplist. *)
Definition ten_pages : Session.zathura :=
  {| Session.pages :=
       repeat {| Session.search_current := -1;
                 Session.search_length := 0 |} 10;
     Session.current_page_number := 5;
     Session.position_x := 0; Session.position_y := 0;
     Session.search_direction := FORWARD;
     Session.jumplist := []; Session.jumplist_cur := 0%nat;
     Session.jumplist_max_size := 2000%nat |}.

(** Three pages with result counts 0, 2, 0, the last result of page 1
    selected, page 0 shown. *)
Definition last_selected : Session.zathura :=
  Search.search_session [0; 2; 0] 1 1 0.

End Sample.

(** ** [sc_scroll]: the current page as the page-aware block sees it *)

Module PageAware.



End PageAware.

(** ** [sc_search]: the state of the search cursors *)

Module Cursors.

(** The result counts of the pages, in page order. *)
Definition lengths (z : Session.zathura) : list Z :=
  map Session.search_length (Session.pages z).

(** A page whose "search-current" is -1, an index into its results, or the
    number of results. *)
Definition cursor_ok (page : Session.page_widget) : Prop :=
  0 <= Session.search_length page
  /\ -1 <= Session.search_current page <= Session.search_length page.

(** A page without a selected result, as line 915 tests it. *)
Definition unselected (page : Session.page_widget) : Prop :=
  Session.search_length page = 0 \/ Session.search_current page = -1.

End Cursors.

(** ** More inputs used in the examples *)

Module Sample2.

(** Page-aware scrolling on, scroll-wrap off. *)
Definition page_aware : Scroll.settings := Sample.scrolling true false.



(** Settings without scroll-wrap, the page step left at one. *)
Definition not_wrapping : Navigate.settings :=
  {| Navigate.scroll_wrap := false;
     Navigate.advance_pages_per_row := false;
     Navigate.pages_per_row := 1 |}.

End Sample2.

(** ** links.c: reading, showing and following a link *)

Module LinkUse.
Import Links.

Definition zathura_link_get_type (link : option zathura_link)
  : zathura_link_type :=
  match link with
  | None => ZATHURA_LINK_INVALID
  | Some l => type l
  end.

Definition zathura_link_get_position (link : option zathura_link)
  : zathura_rectangle :=
  match link with
  | None => origin
  | Some l => position l
  end.

Definition zathura_link_get_target (link : option zathura_link)
  : zathura_link_target :=
  match link with
  | None => zeroed_target
  | Some l => target l
  end.

Inductive girara_level : Type :=
| GIRARA_INFO
| GIRARA_ERROR.

(** The texts handed to [girara_notify], with the argument of their
    format. *)
Inductive message : Type :=
| Link_page (page_number : Z)
| Link_value (value : option String.string)
| Link_invalid
| Failed_to_run_xdg_open.

(** The notification [zathura_link_display] raises. *)
Definition zathura_link_display (link : option zathura_link)
  : girara_level * message :=
  let type := zathura_link_get_type link in
  let target := zathura_link_get_target link in
  match type with
  | ZATHURA_LINK_GOTO_DEST => (GIRARA_INFO, Link_page (page_number target))
  | ZATHURA_LINK_GOTO_REMOTE
  | ZATHURA_LINK_URI
  | ZATHURA_LINK_LAUNCH
  | ZATHURA_LINK_NAMED => (GIRARA_INFO, Link_value (value target))
  | _ => (GIRARA_ERROR, Link_invalid)
  end.

(** What [zathura_link_evaluate] finds around it. The enumerators of the
    destination type, the type of the fields of [page_offset_t] (through
    [offset_add], the effect of [offset.x += d]) and the functions of
    GLib, girara and zathura it calls are declared outside links.c. *)
Record environment : Type := {
  ZATHURA_LINK_DESTINATION_UNKNOWN : Z;
  ZATHURA_LINK_DESTINATION_XYZ : Z;
  document_scale : Q;
  has_page : Z -> bool;
  page_calculate_offset : Z -> Q * Q;
  offset_add : Q -> Q -> Q;
  link_hadjust : bool;
  document_path : String.string;
  program : String.string;
  g_path_get_dirname : String.string -> String.string;
  g_build_filename : String.string -> String.string -> String.string;
  g_path_is_absolute : String.string -> bool;
  girara_xdg_open : option String.string -> bool
}.

(** What a call does to the viewer and the outside, in order. *)
Inductive effect : Type :=
| Set_scale (scale : Q)
| Page_set (page : Z)
| Position_set_delayed (x y : Q)
| Spawn_async (argv : list String.string)
| Xdg_open (path : option String.string)
| Notify (level : girara_level) (text : message).

(** [link_remote] with a viewer and a document. *)
Definition link_remote (env : environment) (file : option String.string)
  : list effect :=
  match file with
  | None => []
  | Some file =>
      let dir := g_path_get_dirname env (document_path env) in
      let uri := g_build_filename env dir file in
      [Spawn_async [program env; uri]]
  end.

(** [link_launch] with a viewer, a document and a link. *)
Definition link_launch (env : environment) (link : zathura_link)
  : list effect :=
  match value (target link) with
  | None => []
  | Some v =>
      let path :=
        if g_path_is_absolute env v then g_strdup v
        else g_build_filename env
               (g_path_get_dirname env (document_path env)) v in
      if girara_xdg_open env (Some path) then [Xdg_open (Some path)]
      else [Xdg_open (Some path);
            Notify GIRARA_ERROR Failed_to_run_xdg_open]
  end.

(** [zathura_link_evaluate] with a viewer and a document. The offset of
    the page is the one [page_calculate_offset] reports when it is
    called. *)
Definition zathura_link_evaluate (env : environment)
    (link : option zathura_link) : list effect :=
  match link with
  | None => []
  | Some l =>
      let tgt := target l in
      match type l with
      | ZATHURA_LINK_GOTO_DEST =>
          if destination_type tgt =? ZATHURA_LINK_DESTINATION_UNKNOWN env
          then []
          else
            let scaled :=
              if Qeq_bool (scale tgt) 0 then [] else [Set_scale (scale tgt)] in
            let current_scale :=
              if Qeq_bool (scale tgt) 0 then document_scale env
              else scale tgt in
            if has_page env (page_number tgt) then
              let (x, y) := page_calculate_offset env (page_number tgt) in
              let xyz :=
                destination_type tgt =? ZATHURA_LINK_DESTINATION_XYZ env in
              let x :=
                if xyz && negb (Qeq_bool (left tgt) (-1))
                then offset_add env x (left tgt * current_scale)%Q else x in
              let y :=
                if xyz && negb (Qeq_bool (top tgt) (-1))
                then offset_add env y (top tgt * current_scale)%Q else y in
              scaled
              ++ [Page_set (page_number tgt);
                  Position_set_delayed (if link_hadjust env then x else -1)
                    y]
            else scaled
      | ZATHURA_LINK_GOTO_REMOTE => link_remote env (value tgt)
      | ZATHURA_LINK_URI =>
          if girara_xdg_open env (value tgt) then [Xdg_open (value tgt)]
          else [Xdg_open (value tgt);
                Notify GIRARA_ERROR Failed_to_run_xdg_open]
      | ZATHURA_LINK_LAUNCH => link_launch env l
      | _ => []
      end
  end.

End LinkUse.

(** ** Links used in the examples *)

Module SampleLinks.
Import String.

(** A target with the address of the project and, besides, page 7. *)
Definition project_page : Links.zathura_link_target :=
  {| Links.destination_type := 1;
     Links.value := Some "http://pwmt.org"%string;
     Links.page_number := 7; Links.left := 0; Links.top := 0;
     Links.scale := 0 |}.

(** The URI link [zathura_link_new] builds from it. *)
Definition project_link : Links.zathura_link :=
  {| Links.position := Links.origin;
     Links.type := Links.ZATHURA_LINK_URI;
     Links.target :=
       Links.set_value Links.zeroed_target (Some "http://pwmt.org"%string) |}.

(** A link without action. *)
Definition none_link : Links.zathura_link :=
  {| Links.position := Links.origin;
     Links.type := Links.ZATHURA_LINK_NONE;
     Links.target := Links.zeroed_target |}.

(** A link to the top left corner of page 12 at scale 2, destination
    type 1. *)
Definition page_12 : Links.zathura_link :=
  {| Links.position := Links.origin;
     Links.type := Links.ZATHURA_LINK_GOTO_DEST;
     Links.target :=
       {| Links.destination_type := 1; Links.value := None;
          Links.page_number := 12; Links.left := 0; Links.top := 0;
          Links.scale := 2 |} |}.

(** A viewer on /home/user/paper.pdf, ten pages 100 apart at scale 1,
    with an opener that always succeeds; 0 and 1 stand for the unknown
    and the XYZ destination type, file names are joined with a slash. *)
Definition ten_page_viewer : LinkUse.environment :=
  {| LinkUse.ZATHURA_LINK_DESTINATION_UNKNOWN := 0;
     LinkUse.ZATHURA_LINK_DESTINATION_XYZ := 1;
     LinkUse.document_scale := 1;
     LinkUse.has_page := fun p => (0 <=? p) && (p <? 10);
     LinkUse.page_calculate_offset := fun p => (0%Q, inject_Z (100 * p));
     LinkUse.offset_add := Qplus;
     LinkUse.link_hadjust := true;
     LinkUse.document_path := "/home/user/paper.pdf"%string;
     LinkUse.program := "zathura"%string;
     LinkUse.g_path_get_dirname := fun _ => "/home/user"%string;
     LinkUse.g_build_filename :=
       fun dir file => (dir ++ "/" ++ file)%string;
     LinkUse.g_path_is_absolute :=
       fun path => String.prefix "/"%string path;
     LinkUse.girara_xdg_open := fun _ => true |}.

End SampleLinks.

(** ** shortcuts.c: [sc_rotate] *)

Module Rotate.
Import CInt.

Inductive rotate_argument : Type :=
| ROTATE_CW
| ROTATE_CCW
| ROTATE_UNLISTED (raw : Z).

(** [angle]: 270 for a counter-clockwise argument, 90 for every other
    argument and for none. *)
Definition angle (argument : option rotate_argument) : Z :=
  match argument with
  | Some ROTATE_CCW => 270
  | _ => 90
  end.

(** The rotation stored by [zathura_document_set_rotation]:
    [(rotation + angle * t) % 360] in [unsigned int], after
    [t = (t == 0) ? 1 : t]. *)
Definition new_rotation (rotation : Z) (argument : option rotate_argument)
    (t : Z) : Z :=
  let t := if t =? 0 then 1 else t in
  wrap32 (rotation + wrap32 (angle argument * t)) mod 360.

(** The document after [sc_rotate] and the page handed to
    [page_set_delayed]. *)
Record result : Type := {
  rotation : Z;
  adjusted : Adjust.result;
  page_set_delayed : Z
}.

(** [sc_rotate]; [document_at] is what [sc_adjust_window] reads from the
    document once it has the given rotation. *)
Definition sc_rotate (cfg : Adjust.settings) (v : Adjust.view)
    (document_at : Z -> Adjust.document) (rotation page_number : Z)
    (scale : Adjust.gdouble) (adjust_mode : Adjust.zathura_adjust_mode)
    (argument : option rotate_argument) (t : Z) : result :=
  let rotation := new_rotation rotation argument t in
  {| rotation := rotation;
     adjusted :=
       Adjust.sc_adjust_window cfg v (document_at rotation) scale adjust_mode;
     page_set_delayed := page_number |}.

End Rotate.

(** ** shortcuts.c: [sc_toggle_page_mode] *)

Module PageMode.

(** The static [tmp] of the function and the setting "pages-per-row". *)
Record state : Type := {
  tmp : Z;
  pages_per_row : Z
}.

(** [static int tmp = 2]. *)
Definition initial_tmp : Z := 2.

Record outcome : Type := {
  after : state;
  no_document_opened : bool;
  returned : bool
}.

Definition sc_toggle_page_mode (document_loaded : bool) (s : state)
  : outcome :=
  if document_loaded then
    {| after :=
         if pages_per_row s =? 1
         then {| tmp := tmp s; pages_per_row := tmp s |}
         else {| tmp := pages_per_row s; pages_per_row := 1 |};
       no_document_opened := false;
       returned := true |}
  else {| after := s; no_document_opened := true; returned := false |}.

End PageMode.

(** ** shortcuts.c: [sc_toggle_fullscreen] *)

Module Fullscreen.

(** The four static variables of the function. *)
Record statics : Type := {
  fullscreen : bool;
  pages_per_row : Z;
  first_page_column : Z;
  zoom : Adjust.gdouble
}.

Definition initial : statics :=
  {| fullscreen := false; pages_per_row := 1; first_page_column := 1;
     zoom := Adjust.Finite 1 |}.

Inductive girara_mode : Type :=
| mode_normal
| mode_fullscreen
| mode_other (id : Z).

(** The settings, the document and the widgets the function reads and
    writes. *)
Record viewer : Type := {
  setting_pages_per_row : Z;
  setting_first_page_column : Z;
  setting_statusbar_show : bool;
  scale : Adjust.gdouble;
  adjust_mode : Adjust.zathura_adjust_mode;
  inputbar_shown : bool;
  statusbar_shown : bool;
  window_fullscreen : bool;
  mode : girara_mode
}.

(** The branch taken while [fullscreen] is true. *)
Definition leave (st : statics) (vw : viewer) : viewer :=
  {| setting_pages_per_row := pages_per_row st;
     setting_first_page_column := first_page_column st;
     setting_statusbar_show := setting_statusbar_show vw;
     scale := zoom st;
     adjust_mode := adjust_mode vw;
     inputbar_shown := inputbar_shown vw;
     statusbar_shown :=
       if setting_statusbar_show vw then true else statusbar_shown vw;
     window_fullscreen := false;
     mode := mode_normal |}.

(** The branch taken while [fullscreen] is false; [padding],
    [show_scrollbars], [v] and [doc] are what the call of
    [sc_adjust_window] reads. *)
Definition enter (padding : Z) (show_scrollbars : bool) (v : Adjust.view)
    (doc : Adjust.document) (st : statics) (vw : viewer)
  : statics * viewer :=
  let adjusted :=
    Adjust.sc_adjust_window
      {| Adjust.pages_per_row := 1; Adjust.padding := padding;
         Adjust.show_scrollbars := show_scrollbars |}
      v doc (scale vw) Adjust.ZATHURA_ADJUST_BESTFIT in
  ({| fullscreen := fullscreen st;
      pages_per_row := setting_pages_per_row vw;
      first_page_column := setting_first_page_column vw;
      zoom := scale vw |},
   {| setting_pages_per_row := 1;
      setting_first_page_column := setting_first_page_column vw;
      setting_statusbar_show := setting_statusbar_show vw;
      scale := Adjust.scale adjusted;
      adjust_mode := Adjust.adjust_mode adjusted;
      inputbar_shown := false;
      statusbar_shown := false;
      window_fullscreen := true;
      mode := mode_fullscreen |}).

Definition flip (st : statics) : statics :=
  {| fullscreen := if fullscreen st then false else true;
     pages_per_row := pages_per_row st;
     first_page_column := first_page_column st;
     zoom := zoom st |}.

(** [sc_toggle_fullscreen] with a document; the calls of [render_all]
    and [page_set_delayed] for the current page touch none of the fields
    above. *)
Definition sc_toggle_fullscreen (padding : Z) (show_scrollbars : bool)
    (v : Adjust.view) (doc : Adjust.document) (st : statics) (vw : viewer)
  : statics * viewer :=
  if fullscreen st then (flip st, leave st vw)
  else
    let '(st', vw') := enter padding show_scrollbars v doc st vw in
    (flip st', vw').

End Fullscreen.


(** ** shortcuts.c: [draw_links], [sc_follow] and [sc_display_link] *)

Module DrawLinks.
Import CInt.

(** What the loop reads from a page and its widget: the visibility of the
    page and the property "number-of-links". *)
Record page : Type := {
  visibility : bool;
  number_of_links : Z
}.

(** What the loop stores in a widget besides clearing its
    "search-results": the property "draw-links" and, for a visible page,
    the property "offset-links". *)
Record update : Type := {
  draw_links_property : bool;
  offset_links : option Z
}.

(** The loop of [draw_links] from the page at the head of [pages] on, with
    the values [page_offset] and [show_links] have there. A page that
    [zathura_document_get_page] does not deliver is [None] and is
    skipped. *)
Fixpoint draw_links_from (pages : list (option page)) (page_offset : Z)
    (show_links : bool) : list (option update) * bool :=
  match pages with
  | [] => ([], show_links)
  | None :: rest =>
      let (updates, show) := draw_links_from rest page_offset show_links in
      (None :: updates, show)
  | Some p :: rest =>
      if visibility p then
        let show_links :=
          if negb (number_of_links p =? 0) then true else show_links in
        let (updates, show) :=
          draw_links_from rest (wrap32 (page_offset + number_of_links p))
            show_links in
        (Some {| draw_links_property := true;
                 offset_links := Some page_offset |} :: updates, show)
      else
        let (updates, show) := draw_links_from rest page_offset show_links in
        (Some {| draw_links_property := false; offset_links := None |}
         :: updates, show)
  end.

Definition draw_links (pages : list (option page))
  : list (option update) * bool :=
  draw_links_from pages 0 false.

(** The number of links on the visible pages of a list. *)
Fixpoint links_shown (pages : list (option page)) : Z :=
  match pages with
  | [] => 0
  | Some p :: rest =>
      (if visibility p then number_of_links p else 0) + links_shown rest
  | None :: rest => links_shown rest
  end.

(** A visible page with a link. *)
Definition shows_link (p : option page) : bool :=
  match p with
  | Some p => visibility p && negb (number_of_links p =? 0)
  | None => false
  end.

Inductive prompt : Type :=
| Follow_link
| Display_link.

(** What [sc_follow] and [sc_display_link] do with a document and a
    session: the updates of the widgets, the dialog opened (if any) and
    the adjust mode of the document afterwards. *)
Record asked : Type := {
  updates : list (option update);
  dialog : option prompt;
  adjust_mode : Adjust.zathura_adjust_mode
}.

Definition ask (text : prompt) (pages : list (option page))
    (mode : Adjust.zathura_adjust_mode) : asked :=
  let (updates, show_links) := draw_links pages in
  if show_links then
    {| updates := updates; dialog := Some text;
       adjust_mode := Adjust.ZATHURA_ADJUST_INPUTBAR |}
  else {| updates := updates; dialog := None; adjust_mode := mode |}.

Definition sc_follow := ask Follow_link.

Definition sc_display_link := ask Display_link.

End DrawLinks.

(** ** Viewers used in the examples *)

Module SampleViews.

(** Two pages per row from the second column on, scale 3/2, status bar
    wanted and shown, normal mode. *)
Definition windowed : Fullscreen.viewer :=
  {| Fullscreen.setting_pages_per_row := 2;
     Fullscreen.setting_first_page_column := 2;
     Fullscreen.setting_statusbar_show := true;
     Fullscreen.scale := Adjust.Finite (3 # 2);
     Fullscreen.adjust_mode := Adjust.ZATHURA_ADJUST_NONE;
     Fullscreen.inputbar_shown := false;
     Fullscreen.statusbar_shown := true;
     Fullscreen.window_fullscreen := false;
     Fullscreen.mode := Fullscreen.mode_normal |}.

(** Four pages: three links on a visible page, a page out of view, a
    visible page without links and a visible page with two links. *)
Definition four_pages : list (option DrawLinks.page) :=
  [Some {| DrawLinks.visibility := true; DrawLinks.number_of_links := 3 |};
   Some {| DrawLinks.visibility := false; DrawLinks.number_of_links := 5 |};
   Some {| DrawLinks.visibility := true; DrawLinks.number_of_links := 0 |};
   Some {| DrawLinks.visibility := true; DrawLinks.number_of_links := 2 |}].

End SampleViews.

(** * Properties *)

(** ** Machine integers and exact comparisons *)

Lemma wrap32_small (z : Z) :
  0 <= z < CInt.UINT_MODULUS -> CInt.wrap32 z = z.
Proof. intros H. unfold CInt.wrap32. apply Z.mod_small. exact H. Qed.

Lemma wrap32_range (z : Z) : 0 <= CInt.wrap32 z < CInt.UINT_MODULUS.
Proof. unfold CInt.wrap32, CInt.UINT_MODULUS. apply Z.mod_pos_bound. lia. Qed.

Lemma wrap32_negative (z : Z) :
  - CInt.UINT_MODULUS <= z < 0 -> CInt.wrap32 z = z + CInt.UINT_MODULUS.
Proof.
  unfold CInt.wrap32, CInt.UINT_MODULUS. intros H.
  replace z with ((z + 2 ^ 32) + (-1) * 2 ^ 32) at 1 by lia.
  rewrite Z.mod_add by lia. apply Z.mod_small. lia.
Qed.

Lemma to_int_small (z : Z) :
  - 2 ^ 31 <= z <= CInt.INT_MAX -> CInt.to_int z = z.
Proof.
  unfold CInt.to_int, CInt.INT_MAX, CInt.UINT_MODULUS. intros H.
  rewrite Z.mod_small by lia. lia.
Qed.

Lemma to_int_high (z : Z) :
  2 ^ 31 <= z < CInt.UINT_MODULUS -> CInt.to_int z = z - CInt.UINT_MODULUS.
Proof.
  unfold CInt.to_int, CInt.UINT_MODULUS. intros H.
  replace (z + 2 ^ 31) with ((z - 2 ^ 31) + 1 * 2 ^ 32) by lia.
  rewrite Z.mod_add by lia. rewrite Z.mod_small by lia. lia.
Qed.

Lemma Qltb_lt (a b : Q) : Qltb a b = true <-> (a < b)%Q.
Proof.
  unfold Qltb. rewrite negb_true_iff. split.
  - intros H. apply Qnot_le_lt. intros Hle.
    apply Qle_bool_iff in Hle. congruence.
  - intros H. destruct (Qle_bool b a) eqn:E; [|reflexivity].
    apply Qle_bool_iff in E. exfalso. exact (Qlt_not_le _ _ H E).
Qed.

Lemma Qltb_ge (a b : Q) : Qltb a b = false <-> (b <= a)%Q.
Proof.
  unfold Qltb. rewrite negb_false_iff. apply Qle_bool_iff.
Qed.

(** ** Single precision *)

Lemma pow2_pos (e : Z) : (0 < Float32.pow2 e)%Q.
Proof. unfold Float32.pow2. apply Qpower_0_lt. reflexivity. Qed.

Lemma pow2_add (a b : Z) :
  (Float32.pow2 (a + b) == Float32.pow2 a * Float32.pow2 b)%Q.
Proof. unfold Float32.pow2. apply Qpower_plus. discriminate. Qed.

Lemma pow2_le (a b : Z) : a <= b -> (Float32.pow2 a <= Float32.pow2 b)%Q.
Proof.
  intros H. unfold Float32.pow2. apply Qpower_le_compat_l; [exact H |].
  discriminate.
Qed.

Lemma pow2_Z (e : Z) : 0 <= e -> (Float32.pow2 e == inject_Z (2 ^ e))%Q.
Proof.
  intros H. unfold Float32.pow2. rewrite Zpower_Qpower by exact H.
  reflexivity.
Qed.

Lemma pow2_shift (u n : Z) :
  0 <= n -> (Float32.pow2 (u + n) == inject_Z (2 ^ n) * Float32.pow2 u)%Q.
Proof.
  intros H. rewrite <- pow2_Z by exact H. rewrite <- pow2_add.
  replace (u + n) with (n + u) by lia. reflexivity.
Qed.

Lemma Qabs_num_den (q : Q) :
  (Qabs q * inject_Z (Zpos (Qden q)) == inject_Z (Z.abs (Qnum q)))%Q.
Proof.
  destruct q as [n d]. unfold Qabs, Qeq, Qmult, inject_Z. simpl. lia.
Qed.

Lemma Qnum_nonzero (q : Q) : ~ (q == 0)%Q -> 0 < Z.abs (Qnum q).
Proof.
  intros H. destruct q as [n d]. simpl.
  assert (n <> 0); [| lia].
  intros ->. apply H. reflexivity.
Qed.

(** [exponent q] is the power of two at or next below the size of [q]. *)
Lemma exponent_spec (q : Q) :
  ~ (q == 0)%Q ->
  (Float32.pow2 (Float32.exponent q) <= Qabs q)%Q
  /\ (Qabs q < Float32.pow2 (Float32.exponent q + 1))%Q.
Proof.
  intros Hq. pose proof (Qnum_nonzero q Hq) as Ha.
  pose proof (Qabs_num_den q) as E.
  set (a := Z.abs (Qnum q)) in *. set (d := Zpos (Qden q)) in *.
  assert (Hd : 0 < d) by (unfold d; lia).
  destruct (Z.log2_spec a Ha) as [Ha1 Ha2].
  destruct (Z.log2_spec d Hd) as [Hd1 Hd2].
  pose proof (Z.log2_nonneg a) as Hla. pose proof (Z.log2_nonneg d) as Hld.
  assert (Hdq : (0 < inject_Z d)%Q).
  { change 0%Q with (inject_Z 0). rewrite <- Zlt_Qlt. exact Hd. }
  unfold Float32.exponent. fold a d.
  set (e := Z.log2 a - Z.log2 d).
  destruct (Qle_bool (Float32.pow2 e) (Qabs q)) eqn:T.
  - apply Qle_bool_iff in T. split; [exact T |].
    apply (Qmult_lt_r _ _ (inject_Z d) Hdq). rewrite E.
    apply Qlt_le_trans with (Float32.pow2 (Z.log2 a + 1)).
    + rewrite pow2_Z by lia. rewrite <- Zlt_Qlt.
      replace (Z.log2 a + 1) with (Z.succ (Z.log2 a)) by lia. exact Ha2.
    + replace (Z.log2 a + 1) with ((e + 1) + Z.log2 d) by (unfold e; lia).
      rewrite pow2_add. apply Qmult_le_l; [apply pow2_pos |].
      rewrite pow2_Z by lia. rewrite <- Zle_Qle. exact Hd1.
  - assert (T' : (Qabs q < Float32.pow2 e)%Q).
    { apply Qnot_le_lt. intros H. apply Qle_bool_iff in H. congruence. }
    split.
    + apply (Qmult_le_r _ _ (inject_Z d) Hdq). rewrite E.
      apply Qle_trans with (Float32.pow2 (Z.log2 a)).
      * replace (Z.log2 a) with ((e - 1) + (Z.log2 d + 1)) at 1
          by (unfold e; lia).
        rewrite pow2_add. apply Qmult_le_l; [apply pow2_pos |].
        rewrite pow2_Z by lia. rewrite <- Zle_Qle.
        replace (Z.log2 d + 1) with (Z.succ (Z.log2 d)) by lia. lia.
      * rewrite pow2_Z by lia. rewrite <- Zle_Qle. exact Ha1.
    + replace (e - 1 + 1) with e by lia. exact T'.
Qed.

Lemma exponent_unique (q : Q) (e : Z) :
  (Float32.pow2 e <= Qabs q)%Q -> (Qabs q < Float32.pow2 (e + 1))%Q ->
  Float32.exponent q = e.
Proof.
  intros H1 H2.
  assert (Hq : ~ (q == 0)%Q).
  { intros H. rewrite H in H1. pose proof (pow2_pos e) as Hp.
    change (Qabs 0) with 0%Q in H1. lra. }
  destruct (exponent_spec q Hq) as [S1 S2].
  set (x := Float32.exponent q) in *.
  destruct (Z.lt_trichotomy x e) as [L | [L | L]]; [| exact L |]; exfalso.
  - assert (x + 1 <= e) as L' by lia. apply pow2_le in L'. lra.
  - assert (e + 1 <= x) as L' by lia. apply pow2_le in L'. lra.
Qed.

Lemma exponent_monotone (x y : Q) :
  ~ (x == 0)%Q -> (Qabs x <= Qabs y)%Q ->
  Float32.exponent x <= Float32.exponent y.
Proof.
  intros Hx H.
  assert (Hy : ~ (y == 0)%Q).
  { intros E. rewrite E in H. change (Qabs 0) with 0%Q in H.
    apply Hx. destruct (Qabs_Qle_condition x 0) as [C _].
    destruct (C H) as [C1 C2]. lra. }
  destruct (exponent_spec x Hx) as [X1 _].
  destruct (exponent_spec y Hy) as [_ Y2].
  destruct (Z.le_gt_cases (Float32.exponent x) (Float32.exponent y))
    as [L | L]; [exact L | exfalso].
  assert (L' : Float32.exponent y + 1 <= Float32.exponent x) by lia.
  apply pow2_le in L'. lra.
Qed.

Lemma ulp_exponent_monotone (x y : Q) :
  ~ (x == 0)%Q -> (Qabs x <= Qabs y)%Q ->
  Float32.ulp_exponent x <= Float32.ulp_exponent y.
Proof.
  intros Hx H. pose proof (exponent_monotone x y Hx H).
  unfold Float32.ulp_exponent. lia.
Qed.

Lemma nearest_even_comp (q q' : Q) :
  (q == q')%Q -> Float32.nearest_even q = Float32.nearest_even q'.
Proof.
  intros E. unfold Float32.nearest_even.
  rewrite (Qfloor_comp _ _ E).
  assert (E2 : (2 * (q - inject_Z (Qfloor q'))
                == 2 * (q' - inject_Z (Qfloor q')))%Q)
    by (rewrite E; reflexivity).
  rewrite (Qcompare_comp _ _ E2 1%Q 1%Q (Qeq_refl 1)). reflexivity.
Qed.

Lemma nearest_even_Z (z : Z) : Float32.nearest_even (inject_Z z) = z.
Proof.
  unfold Float32.nearest_even. rewrite Qfloor_Z.
  assert (E : (2 * (inject_Z z - inject_Z z) == 0)%Q) by ring.
  rewrite (Qcompare_comp _ _ E 1%Q 1%Q (Qeq_refl 1)). reflexivity.
Qed.

Lemma nearest_even_floor (q : Q) :
  Float32.nearest_even q = Qfloor q
  \/ (Float32.nearest_even q = Qfloor q + 1
      /\ (1 <= 2 * (q - inject_Z (Qfloor q)))%Q).
Proof.
  unfold Float32.nearest_even.
  destruct (Qcompare_spec (2 * (q - inject_Z (Qfloor q))) 1) as [H | H | H].
  - destruct (Z.even (Qfloor q)); [left; reflexivity |].
    right. split; [reflexivity |]. rewrite H. apply Qle_refl.
  - left. reflexivity.
  - right. split; [reflexivity |]. apply Qlt_le_weak. exact H.
Qed.

Lemma nearest_even_ge (q : Q) (a : Z) :
  (inject_Z a <= q)%Q -> a <= Float32.nearest_even q.
Proof.
  intros H. apply Qfloor_resp_le in H. rewrite Qfloor_Z in H.
  destruct (nearest_even_floor q) as [-> | [-> _]]; lia.
Qed.

Lemma nearest_even_le (q : Q) (b : Z) :
  (q <= inject_Z b)%Q -> Float32.nearest_even q <= b.
Proof.
  intros H. pose proof (Qfloor_resp_le _ _ H) as Hf. rewrite Qfloor_Z in Hf.
  destruct (nearest_even_floor q) as [-> | [-> Hhalf]]; [exact Hf |].
  destruct (Z.eq_dec (Qfloor q) b) as [E | E]; [| lia].
  exfalso. rewrite E in Hhalf. lra.
Qed.

Lemma nearest_even_monotone (x y : Q) :
  (x <= y)%Q -> Float32.nearest_even x <= Float32.nearest_even y.
Proof.
  intros H. pose proof (Qfloor_resp_le _ _ H) as Hf.
  destruct (Z.eq_dec (Qfloor x) (Qfloor y)) as [E | E].
  - unfold Float32.nearest_even. rewrite E.
    destruct (Qcompare_spec (2 * (x - inject_Z (Qfloor y))) 1)
      as [Hx | Hx | Hx];
      destruct (Qcompare_spec (2 * (y - inject_Z (Qfloor y))) 1)
        as [Hy | Hy | Hy];
      try (destruct (Z.even (Qfloor y))); try lia; exfalso; lra.
  - destruct (nearest_even_floor x) as [-> | [-> _]];
      destruct (nearest_even_floor y) as [-> | [-> _]]; lia.
Qed.

Lemma nearest_even_error (q : Q) :
  (Qabs (inject_Z (Float32.nearest_even q) - q) <= 1 # 2)%Q.
Proof.
  pose proof (Qfloor_le q) as F1. pose proof (Qlt_floor q) as F2.
  rewrite inject_Z_plus in F2. change (inject_Z 1) with 1%Q in F2.
  apply Qabs_Qle_condition. unfold Float32.nearest_even.
  destruct (Qcompare_spec (2 * (q - inject_Z (Qfloor q))) 1) as [H | H | H];
    try (destruct (Z.even (Qfloor q)));
    rewrite ?inject_Z_plus; change (inject_Z 1) with 1%Q; split; lra.
Qed.

Lemma round_nonzero (q : Q) :
  ~ (q == 0)%Q ->
  (Float32.round q
   == inject_Z
        (Float32.nearest_even (q / Float32.pow2 (Float32.ulp_exponent q)))
      * Float32.pow2 (Float32.ulp_exponent q))%Q.
Proof.
  intros Hq. unfold Float32.round.
  destruct (Qeq_bool q 0) eqn:Z0.
  - apply Qeq_bool_iff in Z0. contradiction.
  - cbv zeta. apply Qred_correct.
Qed.

Lemma round_zero (q : Q) : (q == 0)%Q -> Float32.round q = 0%Q.
Proof.
  intros Hq. unfold Float32.round. apply Qeq_bool_iff in Hq. rewrite Hq.
  reflexivity.
Qed.

(** A value divided by its unit in the last place is at most [2^24] in
    size, and at least [2^23] when the value is not subnormal. *)
Lemma scaled_upper (q : Q) :
  ~ (q == 0)%Q ->
  (Qabs (q / Float32.pow2 (Float32.ulp_exponent q)) <= inject_Z (2 ^ 24))%Q.
Proof.
  intros Hq. set (u := Float32.ulp_exponent q).
  assert (Hu1 : Float32.exponent q + 1 - u <= 24)
    by (unfold u, Float32.ulp_exponent, Float32.precision; lia).
  destruct (exponent_spec q Hq) as [_ S2].
  pose proof (pow2_pos u) as Hp.
  unfold Qdiv.
  rewrite Qabs_Qmult, Qabs_Qinv, (Qabs_pos (Float32.pow2 u)) by lra.
  apply Qle_shift_div_r; [exact Hp |].
  rewrite <- pow2_Z by lia. rewrite <- pow2_add.
  apply Qle_trans with (Float32.pow2 (Float32.exponent q + 1));
    [apply Qlt_le_weak; exact S2 | apply pow2_le; lia].
Qed.

Lemma scaled_lower (q : Q) :
  ~ (q == 0)%Q -> Float32.emin < Float32.ulp_exponent q ->
  (inject_Z (2 ^ 23) <= Qabs (q / Float32.pow2 (Float32.ulp_exponent q)))%Q.
Proof.
  intros Hq Hn. set (u := Float32.ulp_exponent q) in *.
  assert (Hu1 : Float32.exponent q = u + 23)
    by (unfold u, Float32.ulp_exponent, Float32.precision in *; lia).
  destruct (exponent_spec q Hq) as [S1 _].
  pose proof (pow2_pos u) as Hp.
  unfold Qdiv.
  rewrite Qabs_Qmult, Qabs_Qinv, (Qabs_pos (Float32.pow2 u)) by lra.
  apply Qle_shift_div_l; [exact Hp |].
  rewrite <- pow2_Z by lia. rewrite <- pow2_add.
  rewrite Hu1 in S1. replace (23 + u) with (u + 23) by lia. exact S1.
Qed.

(** A value [m * 2^k] with at most 24 bits in [m], or [m = 2^24], and [k]
    not below the smallest exponent is a float: rounding leaves it
    alone. *)
Lemma round_fixed (q : Q) (m k : Z) :
  (q == inject_Z m * Float32.pow2 k)%Q ->
  Z.abs m <= 2 ^ 24 -> Float32.emin <= k ->
  (Float32.round q == q)%Q.
Proof.
  intros E Hm Hk.
  destruct (Qeq_dec q 0) as [Hq | Hq];
    [rewrite (round_zero q Hq); symmetry; exact Hq |].
  rewrite (round_nonzero q Hq).
  assert (Hm0 : m <> 0).
  { intros ->. apply Hq. rewrite E. ring. }
  assert (Hmpos : 0 < Z.abs m) by lia.
  destruct (Z.log2_spec _ Hmpos) as [L1 L2].
  pose proof (Z.log2_nonneg (Z.abs m)) as L0.
  set (lm := Z.log2 (Z.abs m)) in *.
  assert (Habs : (Qabs q == inject_Z (Z.abs m) * Float32.pow2 k)%Q).
  { rewrite E, Qabs_Qmult. rewrite (Qabs_pos (Float32.pow2 k))
      by (apply Qlt_le_weak, pow2_pos).
    apply Qmult_comp; [| reflexivity].
    unfold Qabs, inject_Z. reflexivity. }
  assert (Hexp : Float32.exponent q = lm + k).
  { apply exponent_unique; rewrite Habs.
    - rewrite pow2_add. apply Qmult_le_r; [apply pow2_pos |].
      rewrite pow2_Z by lia. rewrite <- Zle_Qle. exact L1.
    - replace (lm + k + 1) with ((lm + 1) + k) by lia.
      rewrite pow2_add. apply Qmult_lt_r; [apply pow2_pos |].
      rewrite pow2_Z by lia. rewrite <- Zlt_Qlt.
      replace (lm + 1) with (Z.succ lm) by lia. exact L2. }
  assert (Hlm : lm <= 24).
  { destruct (Z.le_gt_cases lm 24) as [H | H]; [exact H | exfalso].
    assert (2 ^ 25 <= 2 ^ lm) by (apply Z.pow_le_mono_r; lia). lia. }
  unfold Float32.ulp_exponent. rewrite Hexp.
  unfold Float32.precision, Float32.emin in *.
  set (u := Z.max (lm + k - (24 - 1)) (-149)).
  assert (Hu : u <= k + 1) by (unfold u; lia).
  assert (Hint : exists z, (q / Float32.pow2 u == inject_Z z)%Q).
  { destruct (Z.le_gt_cases u k) as [Huk | Huk].
    - exists (m * 2 ^ (k - u)). rewrite E.
      replace k with ((k - u) + u) at 1 by lia. rewrite pow2_add.
      rewrite inject_Z_mult, <- (pow2_Z (k - u)) by lia.
      pose proof (pow2_pos u). field. lra.
    - assert (Eu : u = k + 1) by lia.
      assert (El : lm = 24) by (unfold u in *; lia).
      assert (Em24 : Z.abs m = 2 ^ 24) by (rewrite El in L1; lia).
      exists (m / 2). rewrite E, Eu.
      assert (m = 2 * (m / 2)) as Em.
      { destruct (Z.abs_spec m) as [[_ A] | [_ A]]; rewrite A in Em24.
        - rewrite Em24. reflexivity.
        - replace m with (- 2 ^ 24) by lia. reflexivity. }
      rewrite Em at 1. rewrite inject_Z_mult, pow2_add.
      change (Float32.pow2 1) with 2%Q. change (inject_Z 2) with 2%Q.
      pose proof (pow2_pos k). field. lra. }
  destruct Hint as [z Ez].
  rewrite (nearest_even_comp _ _ Ez), nearest_even_Z, <- Ez.
  pose proof (pow2_pos u). field. lra.
Qed.

(** What rounding gives is such a value. *)
Lemma round_shape (q : Q) :
  exists m k, (Float32.round q == inject_Z m * Float32.pow2 k)%Q
              /\ Z.abs m <= 2 ^ 24 /\ Float32.emin <= k.
Proof.
  destruct (Qeq_dec q 0) as [Hq | Hq].
  - exists 0, 0. rewrite (round_zero q Hq).
    split; [ring | split; [simpl; lia | unfold Float32.emin; lia]].
  - exists (Float32.nearest_even
              (q / Float32.pow2 (Float32.ulp_exponent q))),
      (Float32.ulp_exponent q).
    split; [apply round_nonzero; exact Hq |].
    split; [| unfold Float32.ulp_exponent; lia].
    pose proof (scaled_upper q Hq) as Hb.
    apply Qabs_Qle_condition in Hb. destruct Hb as [Hb1 Hb2].
    apply nearest_even_le in Hb2. rewrite <- inject_Z_opp in Hb1.
    apply nearest_even_ge in Hb1. lia.
Qed.

Lemma round_idempotent (q : Q) :
  (Float32.round (Float32.round q) == Float32.round q)%Q.
Proof.
  destruct (round_shape q) as [m [k [E [Hm Hk]]]].
  exact (round_fixed _ m k E Hm Hk).
Qed.

(** An integer of at most 24 bits is a float. *)
Lemma round_integer (z : Z) :
  Z.abs z <= 2 ^ 24 -> (Float32.round (inject_Z z) == inject_Z z)%Q.
Proof.
  intros H. apply (round_fixed _ z 0); [| exact H | unfold Float32.emin; lia].
  change (Float32.pow2 0) with 1%Q. ring.
Qed.

Lemma round_nonnegative (q : Q) : (0 <= q)%Q -> (0 <= Float32.round q)%Q.
Proof.
  intros H. destruct (Qeq_dec q 0) as [E | E].
  - rewrite (round_zero q E). apply Qle_refl.
  - rewrite (round_nonzero q E).
    pose proof (pow2_pos (Float32.ulp_exponent q)) as Hp.
    apply Qmult_le_0_compat; [| lra].
    change 0%Q with (inject_Z 0). rewrite <- Zle_Qle.
    apply nearest_even_ge. change (inject_Z 0) with 0%Q.
    apply Qle_shift_div_l; [exact Hp | lra].
Qed.

Lemma round_nonpositive (q : Q) : (q <= 0)%Q -> (Float32.round q <= 0)%Q.
Proof.
  intros H. destruct (Qeq_dec q 0) as [E | E].
  - rewrite (round_zero q E). apply Qle_refl.
  - rewrite (round_nonzero q E).
    pose proof (pow2_pos (Float32.ulp_exponent q)) as Hp.
    assert (Hn : Float32.nearest_even
                   (q / Float32.pow2 (Float32.ulp_exponent q)) <= 0).
    { apply nearest_even_le. change (inject_Z 0) with 0%Q.
      apply Qle_shift_div_r; [exact Hp | lra]. }
    rewrite Zle_Qle in Hn. change (inject_Z 0) with 0%Q in Hn.
    set (n := inject_Z _) in *. nra.
Qed.

(** The size of a rounded value: at most [2^24] units in the last place,
    and at least [2^23] when the value is not subnormal. *)
Lemma round_size (q : Q) :
  ~ (q == 0)%Q ->
  let u := Float32.ulp_exponent q in
  (Qabs (Float32.round q) <= Float32.pow2 (u + 24))%Q
  /\ (Float32.emin < u -> (Float32.pow2 (u + 23) <= Qabs (Float32.round q))%Q).
Proof.
  intros Hq u. rewrite (round_nonzero q Hq). fold u.
  pose proof (pow2_pos u) as Hp.
  rewrite Qabs_Qmult, (Qabs_pos (Float32.pow2 u)) by lra.
  rewrite !pow2_shift by lia.
  set (n := Float32.nearest_even (q / Float32.pow2 u)).
  assert (En : (Qabs (inject_Z n) == inject_Z (Z.abs n))%Q) by reflexivity.
  rewrite En. split.
  - apply Qmult_le_compat_r; [| lra]. rewrite <- Zle_Qle.
    pose proof (scaled_upper q Hq) as B. fold u in B.
    apply Qabs_Qle_condition in B. destruct B as [B1 B2].
    apply nearest_even_le in B2. rewrite <- inject_Z_opp in B1.
    apply nearest_even_ge in B1. fold n in B1, B2. lia.
  - intros Hn. apply Qmult_le_compat_r; [| lra]. rewrite <- Zle_Qle.
    pose proof (scaled_lower q Hq Hn) as B. fold u in B.
    destruct (Qlt_le_dec (q / Float32.pow2 u) 0) as [S | S].
    + rewrite Qabs_neg in B by lra.
      assert (B' : (q / Float32.pow2 u <= inject_Z (- 2 ^ 23))%Q)
        by (rewrite inject_Z_opp; lra).
      apply nearest_even_le in B'. fold n in B'. lia.
    + rewrite Qabs_pos in B by exact S.
      apply nearest_even_ge in B. fold n in B. lia.
Qed.

Lemma round_positive_monotone (x y : Q) :
  (0 < x)%Q -> (x <= y)%Q -> (Float32.round x <= Float32.round y)%Q.
Proof.
  intros Hx Hxy.
  assert (Nx : ~ (x == 0)%Q) by (intros E; lra).
  assert (Ny : ~ (y == 0)%Q) by (intros E; lra).
  assert (Habs : (Qabs x <= Qabs y)%Q)
    by (rewrite !Qabs_pos by lra; exact Hxy).
  pose proof (ulp_exponent_monotone x y Nx Habs) as Hu.
  destruct (Z.eq_dec (Float32.ulp_exponent x) (Float32.ulp_exponent y))
    as [E | E].
  - rewrite (round_nonzero x Nx), (round_nonzero y Ny). rewrite <- E.
    pose proof (pow2_pos (Float32.ulp_exponent x)) as Px.
    apply Qmult_le_compat_r; [| lra].
    rewrite <- Zle_Qle. apply nearest_even_monotone.
    apply Qmult_le_compat_r; [exact Hxy |].
    apply Qlt_le_weak, Qinv_lt_0_compat. exact Px.
  - destruct (round_size x Nx) as [Bx _].
    destruct (round_size y Ny) as [_ By].
    pose proof (round_nonnegative x (Qlt_le_weak _ _ Hx)) as Px.
    assert (Hy : (0 <= y)%Q) by lra.
    pose proof (round_nonnegative y Hy) as Py.
    rewrite Qabs_pos in Bx by exact Px.
    assert (Hn : Float32.emin < Float32.ulp_exponent y).
    { assert (Float32.emin <= Float32.ulp_exponent x)
        by (unfold Float32.ulp_exponent; lia). lia. }
    specialize (By Hn). rewrite Qabs_pos in By by exact Py.
    assert (L : Float32.ulp_exponent x + 24 <= Float32.ulp_exponent y + 23)
      by lia.
    apply pow2_le in L. lra.
Qed.

Lemma round_negative_monotone (x y : Q) :
  (y < 0)%Q -> (x <= y)%Q -> (Float32.round x <= Float32.round y)%Q.
Proof.
  intros Hy Hxy.
  assert (Nx : ~ (x == 0)%Q) by (intros E; lra).
  assert (Ny : ~ (y == 0)%Q) by (intros E; lra).
  assert (Habs : (Qabs y <= Qabs x)%Q)
    by (rewrite !Qabs_neg by lra; lra).
  pose proof (ulp_exponent_monotone y x Ny Habs) as Hu.
  destruct (Z.eq_dec (Float32.ulp_exponent x) (Float32.ulp_exponent y))
    as [E | E].
  - rewrite (round_nonzero x Nx), (round_nonzero y Ny). rewrite <- E.
    pose proof (pow2_pos (Float32.ulp_exponent x)) as Px.
    apply Qmult_le_compat_r; [| lra].
    rewrite <- Zle_Qle. apply nearest_even_monotone.
    apply Qmult_le_compat_r; [exact Hxy |].
    apply Qlt_le_weak, Qinv_lt_0_compat. exact Px.
  - destruct (round_size x Nx) as [_ Bx].
    destruct (round_size y Ny) as [By _].
    assert (Hx : (x <= 0)%Q) by lra.
    pose proof (round_nonpositive x Hx) as Px.
    pose proof (round_nonpositive y (Qlt_le_weak _ _ Hy)) as Py.
    rewrite Qabs_neg in By by exact Py.
    assert (Hn : Float32.emin < Float32.ulp_exponent x).
    { assert (Float32.emin <= Float32.ulp_exponent y)
        by (unfold Float32.ulp_exponent; lia). lia. }
    specialize (Bx Hn). rewrite Qabs_neg in Bx by exact Px.
    assert (L : Float32.ulp_exponent y + 24 <= Float32.ulp_exponent x + 23)
      by lia.
    apply pow2_le in L. lra.
Qed.

(** Rounding keeps the order. *)
Lemma round_monotone (x y : Q) :
  (x <= y)%Q -> (Float32.round x <= Float32.round y)%Q.
Proof.
  intros H. destruct (Qlt_le_dec 0 x) as [Hx | Hx].
  - apply round_positive_monotone; assumption.
  - destruct (Qlt_le_dec y 0) as [Hy | Hy].
    + apply round_negative_monotone; assumption.
    + apply Qle_trans with 0%Q;
        [apply round_nonpositive | apply round_nonnegative]; assumption.
Qed.

Lemma round_comp (x y : Q) :
  (x == y)%Q -> (Float32.round x == Float32.round y)%Q.
Proof.
  intros E. apply Qle_antisym; apply round_monotone; rewrite E;
    apply Qle_refl.
Qed.

(** Rounding moves a value by at most half a unit in the last place. *)
Lemma round_error (q : Q) :
  ~ (q == 0)%Q ->
  (Qabs (Float32.round q - q)
   <= Float32.pow2 (Float32.ulp_exponent q - 1))%Q.
Proof.
  intros Hq. rewrite (round_nonzero q Hq).
  set (u := Float32.ulp_exponent q). pose proof (pow2_pos u) as Hp.
  pose proof (nearest_even_error (q / Float32.pow2 u)) as N.
  set (n := inject_Z (Float32.nearest_even (q / Float32.pow2 u))) in *.
  assert (E : (n * Float32.pow2 u - q
               == (n - q / Float32.pow2 u) * Float32.pow2 u)%Q)
    by (field; lra).
  rewrite E, Qabs_Qmult, (Qabs_pos (Float32.pow2 u)) by lra.
  replace (u - 1) with (-1 + u) by lia. rewrite pow2_add.
  change (Float32.pow2 (-1)) with (1 # 2)%Q.
  apply Qmult_le_compat_r; [exact N | lra].
Qed.

(** For a value that is not subnormal this is at most the value times
    [2^-24]. *)
Lemma round_relative_error (q : Q) :
  (Float32.pow2 (-126) <= Qabs q)%Q ->
  (Qabs (Float32.round q - q) <= Qabs q * Float32.pow2 (-24))%Q.
Proof.
  intros Hn.
  assert (Hq : ~ (q == 0)%Q).
  { intros E. rewrite E in Hn. vm_compute in Hn. apply Hn. reflexivity. }
  destruct (exponent_spec q Hq) as [S1 S2].
  assert (He : -126 <= Float32.exponent q).
  { destruct (Z.le_gt_cases (-126) (Float32.exponent q)) as [L | L];
      [exact L | exfalso].
    assert (L' : Float32.exponent q + 1 <= -126) by lia.
    apply pow2_le in L'. lra. }
  apply Qle_trans with (Float32.pow2 (Float32.ulp_exponent q - 1));
    [apply round_error; exact Hq |].
  replace (Float32.ulp_exponent q - 1) with (Float32.exponent q + -24)
    by (unfold Float32.ulp_exponent, Float32.precision, Float32.emin; lia).
  rewrite pow2_add. apply Qmult_le_compat_r; [exact S1 |].
  apply Qlt_le_weak, pow2_pos.
Qed.

(** On the counts 1 to 1200 the operations of the two shortcuts give
    with [Float32.round] what the Standard Library's description of the
    format gives. *)
Lemma round_agrees_with_reference :
  forallb Reference.agree (Reference.upto 1200) = true.
Proof. vm_compute. reflexivity. Qed.

(** ** links.c *)

(** C6, as the code has it: [zathura_link_new] returns no link exactly
    when the type is none of the six the switch lists, or when the type is
    one of GOTO_REMOTE, URI, LAUNCH, NAMED and the target's value is
    absent ([NULL]). So NONE and GOTO_DEST links are built with or without
    a value, and a value that is present is accepted whatever its length. *)
Theorem zathura_link_new_fails_iff :
  forall ty pos tgt,
    Links.zathura_link_new ty pos tgt = None <->
    (Links.recognized ty = false
     \/ (Links.needs_value ty = true /\ Links.value tgt = None)).
Proof.
  intros ty pos tgt.
  destruct ty; simpl; try destruct (Links.value tgt) as [v|]; simpl;
    split; intros H;
    try reflexivity; try discriminate;
    try (left; reflexivity); try (right; split; reflexivity);
    try (destruct H as [H | [H1 H2]]; discriminate).
Qed.

(** C6, the claim as stated fails: a URI link whose target value is the
    empty string carries no non-empty string value, and is built. *)
Lemma zathura_link_new_empty_value :
  let tgt := Links.set_value Links.zeroed_target (Some String.EmptyString) in
  Links.carries_nonempty_value tgt = false
  /\ Links.zathura_link_new Links.ZATHURA_LINK_URI Links.origin tgt <> None.
Proof. simpl. split; [reflexivity | discriminate]. Qed.

(** ** [sc_navigate] *)

(** C8, the failing input: on a document of 3 pages showing page 0, with
    scroll-wrap on, "previous" with count 10 sets page 0, while 0 - 10
    taken modulo 3 is 2. The sum [new_page + number_of_pages - t] is below
    zero and, being [unsigned int], comes out as 4294967289. *)
Theorem sc_navigate_previous_count_above_pages :
  Navigate.sc_navigate 3 0 Navigate.wrapping PREVIOUS 10 = Navigate.PageSet 0
  /\ CInt.wrap32 (CInt.wrap32 (0 + 3) - 10) = 4294967289
  /\ (0 - 10) mod 3 = 2.
Proof. vm_compute. repeat split. Qed.

(** Without scroll-wrap a request past the last page returns before
    [page_set]. *)
Lemma sc_navigate_next_out_of_range :
  forall number_of_pages p cfg t,
    Navigate.scroll_wrap cfg = false ->
    0 <= p < number_of_pages -> number_of_pages <= CInt.INT_MAX ->
    0 < t < 2 ^ 31 -> number_of_pages <= p + t ->
    Navigate.sc_navigate number_of_pages p cfg NEXT t = Navigate.Returned.
Proof.
  intros np p cfg t Hw Hp Hnp Ht Hout.
  unfold Navigate.sc_navigate, Navigate.new_page, Navigate.count.
  rewrite Hw. replace (t =? 0) with false by (symmetry; apply Z.eqb_neq; lia).
  unfold CInt.INT_MAX in *.
  rewrite wrap32_small by (unfold CInt.UINT_MODULUS; lia).
  destruct (Z_le_gt_dec (p + t) (2 ^ 31 - 1)) as [Hs | Hb].
  - rewrite to_int_small by (unfold CInt.INT_MAX; lia).
    replace (np <=? p + t) with true by (symmetry; apply Z.leb_le; lia).
    rewrite orb_true_r. reflexivity.
  - rewrite to_int_high by (unfold CInt.UINT_MODULUS; lia).
    unfold CInt.UINT_MODULUS.
    replace (p + t - 2 ^ 32 <? 0) with true by (symmetry; apply Z.ltb_lt; lia).
    reflexivity.
Qed.

(** Without scroll-wrap a request before the first page returns before
    [page_set]. *)
Lemma sc_navigate_previous_out_of_range :
  forall number_of_pages p cfg t,
    Navigate.scroll_wrap cfg = false ->
    0 <= p < number_of_pages -> number_of_pages <= CInt.INT_MAX ->
    0 < t < 2 ^ 31 -> p - t < 0 ->
    Navigate.sc_navigate number_of_pages p cfg PREVIOUS t = Navigate.Returned.
Proof.
  intros np p cfg t Hw Hp Hnp Ht Hout.
  unfold Navigate.sc_navigate, Navigate.new_page, Navigate.count.
  rewrite Hw. replace (t =? 0) with false by (symmetry; apply Z.eqb_neq; lia).
  unfold CInt.INT_MAX in *.
  rewrite wrap32_negative by (unfold CInt.UINT_MODULUS; lia).
  rewrite to_int_high by (unfold CInt.UINT_MODULUS; lia).
  replace (p - t + CInt.UINT_MODULUS - CInt.UINT_MODULUS <? 0) with true
    by (symmetry; apply Z.ltb_lt; lia).
  reflexivity.
Qed.

(** With scroll-wrap the page set is the requested one modulo the number
    of pages, as long as the count of "previous" does not exceed
    [p + number_of_pages]. *)
Lemma sc_navigate_wrap_modulo :
  forall number_of_pages p cfg t,
    Navigate.scroll_wrap cfg = true ->
    0 <= p < number_of_pages -> number_of_pages <= CInt.INT_MAX ->
    0 < t < 2 ^ 31 ->
    Navigate.sc_navigate number_of_pages p cfg NEXT t
    = Navigate.PageSet ((p + t) mod number_of_pages)
    /\ (t <= p + number_of_pages ->
        Navigate.sc_navigate number_of_pages p cfg PREVIOUS t
        = Navigate.PageSet ((p - t) mod number_of_pages)).
Proof.
  intros np p cfg t Hw Hp Hnp Ht.
  unfold Navigate.sc_navigate, Navigate.new_page, Navigate.count.
  rewrite Hw. replace (t =? 0) with false by (symmetry; apply Z.eqb_neq; lia).
  unfold CInt.INT_MAX in *.
  rewrite (wrap32_small np) by (unfold CInt.UINT_MODULUS; lia).
  replace (np =? 0) with false by (symmetry; apply Z.eqb_neq; lia).
  cbn [negb]. split.
  - rewrite wrap32_small by (unfold CInt.UINT_MODULUS; lia).
    pose proof (Z.mod_pos_bound (p + t) np ltac:(lia)).
    rewrite to_int_small by (unfold CInt.INT_MAX; lia).
    rewrite andb_false_r. reflexivity.
  - intros Hle.
    rewrite (wrap32_small (p + np)) by (unfold CInt.UINT_MODULUS; lia).
    rewrite wrap32_small by (unfold CInt.UINT_MODULUS; lia).
    pose proof (Z.mod_pos_bound (p + np - t) np ltac:(lia)).
    rewrite to_int_small by (unfold CInt.INT_MAX; lia).
    replace (p + np - t) with (p - t + 1 * np) by lia.
    rewrite Z.mod_add by lia. rewrite andb_false_r. reflexivity.
Qed.

(** ** [sc_zoom] *)

Lemma limit_scale_cases (float : Q -> Q) (cfg : Zoom.settings) (s : Q) :
  let zoom_min := Zoom.float_zoom_min float cfg in
  let zoom_max := Zoom.float_zoom_max float cfg in
  ((float s < zoom_min)%Q /\ Zoom.limit_scale float cfg s = zoom_min)
  \/ ((zoom_min <= float s)%Q /\ (zoom_max < float s)%Q
      /\ Zoom.limit_scale float cfg s = zoom_max)
  \/ ((zoom_min <= float s)%Q /\ (float s <= zoom_max)%Q
      /\ Zoom.limit_scale float cfg s = s).
Proof.
  cbv zeta. unfold Zoom.limit_scale, Qgtb.
  destruct (Qltb (float s) _) eqn:E1.
  - left. apply Qltb_lt in E1. split; [exact E1 | reflexivity].
  - apply Qltb_ge in E1. destruct (Qltb _ (float s)) eqn:E2.
    + right; left. apply Qltb_lt in E2. repeat split; assumption.
    + right; right. apply Qltb_ge in E2. repeat split; assumption.
Qed.



(** The scale the cascade stores is a float: reading it back into
    [float scale] does not change it. *)
Lemma requested_scale_float cfg old_zoom n t :
  (Float32.round (Zoom.requested_scale Float32.round cfg old_zoom n t)
   == Zoom.requested_scale Float32.round cfg old_zoom n t)%Q.
Proof.
  assert (One : (Float32.round 1 == 1)%Q)
    by (apply (round_integer 1); simpl; lia).
  unfold Zoom.requested_scale.
  destruct n; try exact One; try apply round_idempotent.
  destruct (t =? 0); [exact One | apply round_idempotent].
Qed.

(** [zoom_min_int * 0.01f] grows with [zoom_min_int]. *)
Lemma float_limit_monotone (a b : Z) :
  a <= b ->
  (Float32.round (Float32.round (inject_Z a) * Zoom.hundredth Float32.round)
   <= Float32.round (Float32.round (inject_Z b)
                     * Zoom.hundredth Float32.round))%Q.
Proof.
  intros H. apply round_monotone. apply Qmult_le_compat_r.
  - apply round_monotone. rewrite <- Zle_Qle. exact H.
  - apply round_nonnegative. discriminate.
Qed.

(** C9, with the limits the code compares with: when zoom-min does not
    exceed zoom-max, the scale [sc_zoom] leaves in the document lies
    between the floats [zoom_min_int * 0.01f] and [zoom_max_int * 0.01f],
    for every argument, count and scale before; a requested scale below
    the lower one is replaced by it, one above the upper one by that, and
    one in between is kept. *)
Theorem sc_zoom_within_limits :
  forall cfg old_zoom n t,
    Zoom.zoom_min cfg <= Zoom.zoom_max cfg ->
    let zoom_min := Zoom.float_zoom_min Float32.round cfg in
    let zoom_max := Zoom.float_zoom_max Float32.round cfg in
    let requested := Zoom.requested_scale Float32.round cfg old_zoom n t in
    let scale := Zoom.sc_zoom Float32.round cfg old_zoom n t in
    (zoom_min <= scale)%Q /\ (scale <= zoom_max)%Q
    /\ ((requested < zoom_min)%Q -> (scale == zoom_min)%Q)
    /\ ((zoom_max < requested)%Q -> (scale == zoom_max)%Q)
    /\ ((zoom_min <= requested)%Q -> (requested <= zoom_max)%Q ->
        (scale == requested)%Q).
Proof.
  intros cfg old n t Hle. cbv zeta. unfold Zoom.sc_zoom.
  pose proof (requested_scale_float cfg old n t) as Hr.
  set (r := Zoom.requested_scale Float32.round cfg old n t) in *.
  assert (Hq : (Zoom.float_zoom_min Float32.round cfg
                <= Zoom.float_zoom_max Float32.round cfg)%Q)
    by (apply float_limit_monotone; exact Hle).
  destruct (limit_scale_cases Float32.round cfg r)
    as [[H1 ->] | [[H1 [H2 ->]] | [H1 [H2 ->]]]];
    repeat split; intros; lra.
Qed.

(** The default limits, zooming out from scale 0.15: the request of
    about 0.05 is raised to the lower limit. *)
Lemma sc_zoom_within_limits_default :
  Zoom.zoom_min Sample.limits_default <= Zoom.zoom_max Sample.limits_default
  /\ (Zoom.float_zoom_min Float32.round Sample.limits_default
      <= Zoom.sc_zoom Float32.round Sample.limits_default (15 # 100)
           ZOOM_OUT 1)%Q
  /\ (Zoom.sc_zoom Float32.round Sample.limits_default (15 # 100) ZOOM_OUT 1
      <= Zoom.float_zoom_max Float32.round Sample.limits_default)%Q.
Proof.
  assert (Hle : Zoom.zoom_min Sample.limits_default
                <= Zoom.zoom_max Sample.limits_default) by (simpl; lia).
  split; [exact Hle |].
  destruct (sc_zoom_within_limits Sample.limits_default (15 # 100) ZOOM_OUT 1
              Hle) as [H1 [H2 _]].
  split; assumption.
Defined.

(** C9, the claim as stated fails, in two ways. With the default limits
    zoom-min 10 and zoom-max 1000, zooming out from scale 0.15 requests
    about 0.05 and leaves the scale at [10 * 0.01f], which is
    3355443 / 2^25 = 0.0999999940395355224609375, below zoom-min/100. With
    zoom-min 200 and zoom-max 100, zooming in from scale 1 by 50 percent
    requests 1.5 and leaves the scale at 2, above zoom-max/100. *)
Lemma sc_zoom_leaves_claimed_range :
  ((Zoom.sc_zoom Float32.round Sample.limits_default (15 # 100) ZOOM_OUT 1
    == 3355443 # 33554432)%Q
   /\ ~ (inject_Z 10 / 100
         <= Zoom.sc_zoom Float32.round Sample.limits_default (15 # 100)
              ZOOM_OUT 1
         /\ Zoom.sc_zoom Float32.round Sample.limits_default (15 # 100)
              ZOOM_OUT 1
            <= inject_Z 1000 / 100)%Q)
  /\ ((Zoom.sc_zoom Float32.round Sample.limits_crossed 1 ZOOM_IN 1 == 2)%Q
      /\ ~ (inject_Z 200 / 100
            <= Zoom.sc_zoom Float32.round Sample.limits_crossed 1 ZOOM_IN 1
            /\ Zoom.sc_zoom Float32.round Sample.limits_crossed 1 ZOOM_IN 1
               <= inject_Z 100 / 100)%Q).
Proof.
  split; split.
  - vm_compute. reflexivity.
  - intros [H _]. vm_compute in H. apply H. reflexivity.
  - vm_compute. reflexivity.
  - intros [_ H]. vm_compute in H. apply H. reflexivity.
Qed.

(** ** [sc_scroll] *)

(** The float product of a whole step size and a count is their
    product when neither the count nor the product needs more than 24
    bits. *)
Lemma step_product_exact (step : Q) (s t : Z) :
  (step == inject_Z s)%Q -> Z.abs t <= 2 ^ 24 -> Z.abs (s * t) <= 2 ^ 24 ->
  (Scroll.step_product step t == step * inject_Z t)%Q.
Proof.
  intros Es Ht Hst. unfold Scroll.step_product.
  assert (E : (step * Float32.round (inject_Z t) == inject_Z (s * t))%Q).
  { rewrite (round_integer t Ht), Es, inject_Z_mult. reflexivity. }
  rewrite (round_comp _ _ E), (round_integer _ Hst).
  rewrite Es, inject_Z_mult. reflexivity.
Qed.

(** C1, with the product the code forms: the value the [switch] of
    [sc_scroll] computes, direction by direction. A step direction moves
    by the product of the step size and the count formed in [float], the
    count being converted to [float] first, as long as that product is a
    finite float; the horizontal step size is the vertical one when
    scroll-hstep is negative. The float product is the step size times
    the count itself when the step size is a whole number and neither the
    count nor the product exceeds 2^24. A full direction moves by
    (1 - overlap) * view size + padding; a half direction by
    (view size + padding) / 2; TOP gives 0 and BOTTOM gives
    upper - view size. With a view of 500 on a canvas of 1010 at value 0,
    no overlap and padding 1, FULL_DOWN gives 501, and 501 is what
    [sc_scroll] hands to the adjustment. *)
Theorem switch_value_delta :
  forall cfg adj t,
    let value := Scroll.value adj in
    let count := Float32.round (inject_Z t) in
    let step := Scroll.scroll_step cfg in
    let hstep := if Qltb (Scroll.scroll_hstep cfg) 0
                 then Scroll.scroll_step cfg else Scroll.scroll_hstep cfg in
    let full := ((1 - Scroll.scroll_full_overlap cfg) * Scroll.page_size adj
                 + inject_Z (Scroll.padding cfg))%Q in
    let half := ((Scroll.page_size adj + inject_Z (Scroll.padding cfg)) / 2)%Q
    in
    (Float32.finite (step * count) = true ->
     (Scroll.switch_value cfg adj UP t
      == value - Float32.round (step * count))%Q
     /\ (Scroll.switch_value cfg adj DOWN t
         == value + Float32.round (step * count))%Q)
    /\ (Float32.finite (hstep * count) = true ->
        (Scroll.switch_value cfg adj LEFT t
         == value - Float32.round (hstep * count))%Q
        /\ (Scroll.switch_value cfg adj RIGHT t
            == value + Float32.round (hstep * count))%Q)
    /\ (forall s sh : Z,
          (step == inject_Z s)%Q -> (hstep == inject_Z sh)%Q ->
          Z.abs t <= 2 ^ 24 ->
          Z.abs (s * t) <= 2 ^ 24 -> Z.abs (sh * t) <= 2 ^ 24 ->
          (Scroll.switch_value cfg adj UP t == value - step * inject_Z t)%Q
          /\ (Scroll.switch_value cfg adj DOWN t
              == value + step * inject_Z t)%Q
          /\ (Scroll.switch_value cfg adj LEFT t
              == value - hstep * inject_Z t)%Q
          /\ (Scroll.switch_value cfg adj RIGHT t
              == value + hstep * inject_Z t)%Q)
    /\ (Scroll.switch_value cfg adj FULL_UP t == value - full)%Q
    /\ (Scroll.switch_value cfg adj FULL_LEFT t == value - full)%Q
    /\ (Scroll.switch_value cfg adj FULL_DOWN t == value + full)%Q
    /\ (Scroll.switch_value cfg adj FULL_RIGHT t == value + full)%Q
    /\ (Scroll.switch_value cfg adj HALF_UP t == value - half)%Q
    /\ (Scroll.switch_value cfg adj HALF_LEFT t == value - half)%Q
    /\ (Scroll.switch_value cfg adj HALF_DOWN t == value + half)%Q
    /\ (Scroll.switch_value cfg adj HALF_RIGHT t == value + half)%Q
    /\ (Scroll.switch_value cfg adj TOP t == 0)%Q
    /\ (Scroll.switch_value cfg adj BOTTOM t
        == Scroll.upper adj - Scroll.page_size adj)%Q
    /\ (forall step hstep page_aware wrap,
          Scroll.switch_value
            {| Scroll.scroll_step := step; Scroll.scroll_hstep := hstep;
               Scroll.scroll_full_overlap := 0;
               Scroll.scroll_page_aware := page_aware;
               Scroll.scroll_wrap := wrap; Scroll.padding := 1 |}
            Sample.at_top FULL_DOWN t == 501)%Q
    /\ (forall step hstep wrap hadjustment page,
           Scroll.sc_scroll
             {| Scroll.scroll_step := step; Scroll.scroll_hstep := hstep;
                Scroll.scroll_full_overlap := 0;
                Scroll.scroll_page_aware := false;
                Scroll.scroll_wrap := wrap; Scroll.padding := 1 |}
             hadjustment Sample.at_top page FULL_DOWN t == 501)%Q.
Proof.
  intros cfg adj t. cbv zeta.
  split; [intros _; split; reflexivity |].
  split; [intros _; split; reflexivity |].
  split.
  { intros s sh Es Esh Ht Hs Hsh.
    unfold Scroll.switch_value. fold (Scroll.hstep cfg) in *.
    rewrite (step_product_exact _ s t Es Ht Hs).
    rewrite (step_product_exact _ sh t Esh Ht Hsh).
    repeat split; reflexivity. }
  unfold Scroll.switch_value, Scroll.hstep, Scroll.max_value.
  repeat split; try ring; try reflexivity.
  intros step hstep wrap hadj page.
  unfold Scroll.sc_scroll, Scroll.page_aware_value. simpl.
  destruct wrap; vm_compute; reflexivity.
Qed.

(** Three steps of 40 down from the top: the product 120 is formed
    without rounding. *)
Lemma switch_value_delta_three_steps :
  Float32.finite (40 * Float32.round (inject_Z 3)) = true
  /\ (Scroll.switch_value (Sample.scrolling false false) Sample.at_top DOWN 3
      == 0 + Float32.round (40 * Float32.round (inject_Z 3)))%Q
  /\ (Scroll.switch_value (Sample.scrolling false false) Sample.at_top DOWN 3
      == 120)%Q.
Proof.
  assert (Hfin : Float32.finite (40 * Float32.round (inject_Z 3)) = true)
    by (vm_compute; reflexivity).
  destruct (switch_value_delta (Sample.scrolling false false) Sample.at_top 3)
    as [Hstep [_ [Hexact _]]].
  split; [exact Hfin |]. split.
  - exact (proj2 (Hstep Hfin)).
  - assert (Hs : (Scroll.scroll_step (Sample.scrolling false false)
                  == inject_Z 40)%Q) by reflexivity.
    assert (Hh : ((if Qltb (Scroll.scroll_hstep (Sample.scrolling false false))
                        0
                   then Scroll.scroll_step (Sample.scrolling false false)
                   else Scroll.scroll_hstep (Sample.scrolling false false))
                  == inject_Z 40)%Q) by reflexivity.
    assert (Ht : Z.abs 3 <= 2 ^ 24) by (simpl; lia).
    assert (Hp : Z.abs (40 * 3) <= 2 ^ 24) by (simpl; lia).
    destruct (Hexact 40 40 Hs Hh Ht Hp Hp) as [_ [Hdown _]].
    rewrite Hdown. reflexivity.
Defined.

(** C1, the claim as stated fails for the step directions. With
    scroll-step 33.3, held as the float 8729395 / 2^18, three steps down
    from 0 give 3273523 / 2^15 = 99.899993896484375, the float nearest the
    product, and not the product 26188185 / 2^18 = 99.899997711181640625.
    With scroll-step 40, a count of 16777217 becomes the float 16777216,
    and RIGHT from 10 gives 671088650, not 10 + 40 * 16777217. *)
Lemma switch_value_product_rounded :
  ((Scroll.switch_value Sample.fine_steps Sample.at_top DOWN 3
    == 3273523 # 32768)%Q
   /\ ~ (Scroll.switch_value Sample.fine_steps Sample.at_top DOWN 3
         == Scroll.value Sample.at_top
            + Scroll.scroll_step Sample.fine_steps * inject_Z 3)%Q)
  /\ ((Scroll.switch_value (Sample.scrolling false false) Sample.at_ten
         RIGHT 16777217 == 671088650)%Q
      /\ ~ (Scroll.switch_value (Sample.scrolling false false) Sample.at_ten
              RIGHT 16777217
            == Scroll.value Sample.at_ten + 40 * inject_Z 16777217)%Q).
Proof.
  split; split.
  - vm_compute. reflexivity.
  - intros H. vm_compute in H. discriminate H.
  - vm_compute. reflexivity.
  - intros H. vm_compute in H. discriminate H.
Qed.

(** A count of 0 stands for one step: [if (t == 0) t = 1]. *)
Lemma sc_scroll_count_zero cfg hadjustment vadjustment page n :
  Scroll.sc_scroll cfg hadjustment vadjustment page n 0
  = Scroll.sc_scroll cfg hadjustment vadjustment page n 1.
Proof. reflexivity. Qed.

Lemma wrap_value_cases (cfg : Scroll.settings) (adj : Scroll.adjustment)
    (v : Q) :
  Scroll.scroll_wrap cfg = true ->
  ((v < 0)%Q /\ Scroll.wrap_value cfg adj v = Scroll.max_value adj)
  \/ ((0 <= v)%Q /\ (Scroll.max_value adj < v)%Q
      /\ Scroll.wrap_value cfg adj v = 0%Q)
  \/ ((0 <= v)%Q /\ (v <= Scroll.max_value adj)%Q
      /\ Scroll.wrap_value cfg adj v = v).
Proof.
  intros Hw. unfold Scroll.wrap_value, Qgtb. rewrite Hw.
  destruct (Qltb v 0) eqn:E1.
  - left. apply Qltb_lt in E1. split; [exact E1 | reflexivity].
  - apply Qltb_ge in E1. destruct (Qltb _ v) eqn:E2.
    + right; left. apply Qltb_lt in E2. repeat split; assumption.
    + right; right. apply Qltb_ge in E2. repeat split; assumption.
Qed.

(** The page-aware block leaves the value alone when the option is off
    and when the direction is neither a full nor a half move. *)
Lemma page_aware_value_unchanged cfg adj page n v :
  Scroll.scroll_page_aware cfg = false
  \/ (Scroll.forward_page_move n = false
      /\ Scroll.backward_page_move n = false) ->
  Scroll.page_aware_value cfg adj page n v = v.
Proof.
  unfold Scroll.page_aware_value. intros [H | [H1 H2]].
  - rewrite H. reflexivity.
  - rewrite H1, H2. destruct (Scroll.scroll_page_aware cfg); reflexivity.
Qed.

(** C2, as the code has it: with scroll-wrap on and upper - view size not
    negative, a value below 0 after the [switch] becomes the maximum and a
    value above the maximum becomes 0, so the value after the wrap block
    lies in [0, max]; and the value handed to the adjustment is that
    value, hence in [0, max], whenever page-aware scrolling is off or the
    direction is not a full or half move. (The page-aware block runs after
    the wrap block and does not wrap again.) *)
Theorem sc_scroll_wrap_range :
  forall cfg hadjustment vadjustment page n t,
    let adj := Scroll.select_adjustment hadjustment vadjustment n in
    let max := Scroll.max_value adj in
    let computed := Scroll.switch_value cfg adj n (Scroll.step_count t) in
    let wrapped := Scroll.wrap_value cfg adj computed in
    Scroll.scroll_wrap cfg = true ->
    (0 <= max)%Q ->
    ((computed < 0)%Q -> (wrapped == max)%Q)
    /\ ((max < computed)%Q -> (wrapped == 0)%Q)
    /\ ((0 <= computed)%Q -> (computed <= max)%Q -> (wrapped == computed)%Q)
    /\ (0 <= wrapped)%Q /\ (wrapped <= max)%Q
    /\ (Scroll.scroll_page_aware cfg = false
        \/ (Scroll.forward_page_move n = false
            /\ Scroll.backward_page_move n = false) ->
        let new_value :=
          Scroll.sc_scroll cfg hadjustment vadjustment page n t in
        new_value = wrapped /\ (0 <= new_value)%Q /\ (new_value <= max)%Q).
Proof.
  intros cfg hadj vadj page n t. cbv zeta. intros Hw Hmax.
  set (adj := Scroll.select_adjustment hadj vadj n) in *.
  set (v := Scroll.switch_value cfg adj n (Scroll.step_count t)).
  assert (Hrange : (0 <= Scroll.wrap_value cfg adj v)%Q
                   /\ (Scroll.wrap_value cfg adj v <= Scroll.max_value adj)%Q).
  { destruct (wrap_value_cases cfg adj v Hw)
      as [[H1 ->] | [[H1 [H2 ->]] | [H1 [H2 ->]]]]; split; lra. }
  split; [| split; [| split; [| split; [| split]]]].
  - intros Hneg.
    destruct (wrap_value_cases cfg adj v Hw)
      as [[H1 ->] | [[H1 [H2 ->]] | [H1 [H2 ->]]]]; lra.
  - intros Habove.
    destruct (wrap_value_cases cfg adj v Hw)
      as [[H1 ->] | [[H1 [H2 ->]] | [H1 [H2 ->]]]]; lra.
  - intros Hlo Hhi.
    destruct (wrap_value_cases cfg adj v Hw)
      as [[H1 ->] | [[H1 [H2 ->]] | [H1 [H2 ->]]]]; lra.
  - exact (proj1 Hrange).
  - exact (proj2 Hrange).
  - intros Hoff. unfold Scroll.sc_scroll. fold adj. fold v.
    rewrite (page_aware_value_unchanged cfg adj page n _ Hoff).
    split; [reflexivity | exact Hrange].
Qed.

(** Scroll-wrap on, page-aware off: a full page up from the top of the
    canvas lands on the maximum, 510. *)
Lemma sc_scroll_wrap_range_at_top :
  Scroll.scroll_wrap (Sample.scrolling false true) = true
  /\ (0 <= Scroll.max_value Sample.at_top)%Q
  /\ (Scroll.sc_scroll (Sample.scrolling false true) Sample.at_top
        Sample.at_top Sample.first_page FULL_UP 0 == 510)%Q
  /\ (0 <= Scroll.sc_scroll (Sample.scrolling false true) Sample.at_top
             Sample.at_top Sample.first_page FULL_UP 0)%Q
  /\ (Scroll.sc_scroll (Sample.scrolling false true) Sample.at_top
        Sample.at_top Sample.first_page FULL_UP 0
      <= Scroll.max_value Sample.at_top)%Q.
Proof.
  assert (Hw : Scroll.scroll_wrap (Sample.scrolling false true) = true)
    by reflexivity.
  assert (Hmax : (0 <= Scroll.max_value Sample.at_top)%Q)
    by (vm_compute; discriminate).
  split; [exact Hw | split; [exact Hmax |]].
  destruct (sc_scroll_wrap_range (Sample.scrolling false true) Sample.at_top
              Sample.at_top Sample.first_page FULL_UP 0 Hw Hmax)
    as [_ [_ [_ [_ [_ H]]]]].
  destruct (H (or_introl eq_refl)) as [_ [H1 H2]].
  split; [vm_compute; reflexivity | split; assumption].
Defined.

(** C2, the claim as stated fails with page-aware scrolling on: at the
    top of the first page a full page up is first wrapped to the maximum
    510 and then replaced by page offset - view size = -500. *)
Lemma sc_scroll_page_aware_leaves_range :
  Scroll.scroll_wrap (Sample.scrolling true true) = true
  /\ (0 <= Scroll.max_value Sample.at_top)%Q
  /\ (Scroll.wrap_value (Sample.scrolling true true) Sample.at_top
        (Scroll.switch_value (Sample.scrolling true true) Sample.at_top
           FULL_UP (Scroll.step_count 0)) == 510)%Q
  /\ (Scroll.sc_scroll (Sample.scrolling true true) Sample.at_top
        Sample.at_top Sample.first_page FULL_UP 0 == -500)%Q
  /\ ~ (0 <= Scroll.sc_scroll (Sample.scrolling true true) Sample.at_top
               Sample.at_top Sample.first_page FULL_UP 0)%Q.
Proof.
  repeat split; try (vm_compute; reflexivity).
  - vm_compute. discriminate.
  - intros H. vm_compute in H. apply H. reflexivity.
Qed.

(** ** [sc_adjust_window] *)

Lemma correction_iff cfg v doc height width scale requisition_width :
  Adjust.correction cfg v doc height width scale = Some requisition_width
  <-> (Adjust.show_scrollbars cfg = true
       /\ height < fst (Adjust.document_size doc scale)
       /\ Adjust.vscrollbar v = Some requisition_width
       /\ 0 < requisition_width
       /\ CInt.wrap32 requisition_width < width).
Proof.
  unfold Adjust.correction. split.
  - destruct (Adjust.show_scrollbars cfg); [| discriminate].
    destruct (Z.ltb_spec height (fst (Adjust.document_size doc scale)));
      [| discriminate].
    destruct (Adjust.vscrollbar v) as [rw |]; [| discriminate].
    destruct (Z.ltb_spec 0 rw); [| discriminate].
    destruct (Z.ltb_spec (CInt.wrap32 rw) width); [| discriminate].
    simpl. intros E. injection E as <-. repeat split; assumption.
  - intros [-> [Hh [-> [Hpos Hlt]]]].
    apply Z.ltb_lt in Hh, Hpos, Hlt. rewrite Hh, Hpos, Hlt. reflexivity.
Qed.

Lemma width_scale_exact cfg doc width :
  1 <= Adjust.pages_per_row cfg ->
  0 <= Adjust.padding cfg ->
  0 < Adjust.cell_width doc ->
  (Adjust.pages_per_row cfg - 1) * Adjust.padding cfg <= width ->
  width < CInt.UINT_MODULUS ->
  Adjust.pages_per_row cfg * Adjust.cell_width doc < CInt.UINT_MODULUS ->
  Adjust.finite_eq (Adjust.width_scale cfg doc width)
    (Adjust.width_formula cfg doc width).
Proof.
  intros Hppr Hpad Hcw Hfit Hw Hden.
  unfold Adjust.width_scale, Adjust.width_formula.
  assert (Hppr32 : Adjust.pages_per_row cfg < CInt.UINT_MODULUS) by nia.
  rewrite (wrap32_small (Adjust.pages_per_row cfg - 1)) by lia.
  rewrite (wrap32_small ((Adjust.pages_per_row cfg - 1) * Adjust.padding cfg))
    by nia.
  rewrite (wrap32_small (width - _)) by nia.
  rewrite (wrap32_small (Adjust.pages_per_row cfg * Adjust.cell_width doc))
    by nia.
  unfold Adjust.quotient.
  replace (Adjust.pages_per_row cfg * Adjust.cell_width doc =? 0) with false
    by (symmetry; apply Z.eqb_neq; nia).
  cbn [Adjust.finite_eq].
  assert (Hnum : (inject_Z (width - (Adjust.pages_per_row cfg - 1)
                                    * Adjust.padding cfg)
                  == inject_Z width
                     - (inject_Z (Adjust.pages_per_row cfg) - 1)
                       * inject_Z (Adjust.padding cfg))%Q).
  { unfold Z.sub.
    rewrite inject_Z_plus, inject_Z_opp, inject_Z_mult, inject_Z_plus.
    simpl (inject_Z (- (1))). ring. }
  rewrite Hnum, inject_Z_mult. reflexivity.
Qed.

(** C5, as the code has it. For WIDTH the scale is the quotient
    (width - (pages_per_row - 1) * padding) / (pages_per_row * cell_width)
    taken on [unsigned int] operands, which is the exact quotient when
    nothing wraps around; it is computed once for the width of the view
    and once more, for the width less the scrollbar's, exactly when
    scrollbars are shown, the document at the new scale is taller than the
    view, and there is a vertical scrollbar whose width is positive and
    below the view's. For BESTFIT the WIDTH computation is used exactly
    when cell_height / document_width (the width of the whole document at
    scale 1.0) is below height / width of the view; otherwise the scale is
    height / cell_height. *)
Theorem sc_adjust_window_scale :
  forall cfg v doc old_scale,
    let width := Adjust.view_width v in
    let height := Adjust.view_height v in
    let once := Adjust.width_scale cfg doc width in
    let fitted :=
      Adjust.scale
        (Adjust.sc_adjust_window cfg v doc old_scale
           Adjust.ZATHURA_ADJUST_WIDTH) in
    let best :=
      Adjust.scale
        (Adjust.sc_adjust_window cfg v doc old_scale
           Adjust.ZATHURA_ADJUST_BESTFIT) in
    (fitted = once
     \/ exists requisition_width,
          fitted = Adjust.width_scale cfg doc
                     (CInt.wrap32 (width - requisition_width)))
    /\ (forall requisition_width,
          (Adjust.show_scrollbars cfg = true
           /\ height < fst (Adjust.document_size doc once)
           /\ Adjust.vscrollbar v = Some requisition_width
           /\ 0 < requisition_width
           /\ CInt.wrap32 requisition_width < width)
          -> fitted = Adjust.width_scale cfg doc
                        (CInt.wrap32 (width - requisition_width)))
    /\ ((forall requisition_width,
           ~ (Adjust.show_scrollbars cfg = true
              /\ height < fst (Adjust.document_size doc once)
              /\ Adjust.vscrollbar v = Some requisition_width
              /\ 0 < requisition_width
              /\ CInt.wrap32 requisition_width < width))
        -> fitted = once)
    /\ (forall w,
          1 <= Adjust.pages_per_row cfg ->
          0 <= Adjust.padding cfg ->
          0 < Adjust.cell_width doc ->
          (Adjust.pages_per_row cfg - 1) * Adjust.padding cfg <= w ->
          w < CInt.UINT_MODULUS ->
          Adjust.pages_per_row cfg * Adjust.cell_width doc
          < CInt.UINT_MODULUS ->
          Adjust.finite_eq (Adjust.width_scale cfg doc w)
            (Adjust.width_formula cfg doc w))
    /\ best =
       (if Adjust.gdouble_ltb
             (Adjust.quotient (Adjust.cell_height doc)
                (snd (Adjust.document_size doc (Adjust.Finite 1))))
             (Adjust.quotient height width)
        then fitted
        else Adjust.quotient height (Adjust.cell_height doc)).
Proof.
  intros cfg v doc old. cbv zeta. simpl.
  unfold Adjust.fit_width, Adjust.page_ratio, Adjust.window_ratio.
  set (w := Adjust.view_width v). set (h := Adjust.view_height v).
  set (once := Adjust.width_scale cfg doc w).
  destruct (Adjust.correction cfg v doc h w once) as [rw |] eqn:E.
  - split; [right; exists rw; reflexivity |].
    split.
    { intros rw' H'. apply correction_iff in H'. rewrite E in H'.
      injection H' as <-. reflexivity. }
    split.
    { intros Hnone. exfalso. apply (Hnone rw). apply correction_iff. exact E. }
    split; [intros; apply width_scale_exact; assumption |].
    destruct (Adjust.gdouble_ltb _ _); reflexivity.
  - split; [left; reflexivity |].
    split.
    { intros rw' H'. apply correction_iff in H'. rewrite E in H'.
      discriminate H'. }
    split; [intros _; reflexivity |].
    split; [intros; apply width_scale_exact; assumption |].
    destruct (Adjust.gdouble_ltb _ _); reflexivity.
Qed.

(** C5, the claim as stated fails for BESTFIT with two pages per row:
    cells 100 by 100 in a view 100 wide and 60 high. cell_height /
    cell_width = 1 is not below 60 / 100, so the claim gives the scale
    60 / 100; the code compares 100 / 201 with 60 / 100 and fits the
    width, scale 99 / 200. *)
Lemma sc_adjust_window_bestfit_two_columns :
  ~ (inject_Z 100 / inject_Z 100 < inject_Z 60 / inject_Z 100)%Q
  /\ Adjust.finite_eq
       (Adjust.scale
          (Adjust.sc_adjust_window Sample.two_columns Sample.small_view
             Sample.one_row_of_two (Adjust.Finite 1)
             Adjust.ZATHURA_ADJUST_BESTFIT))
       (99 # 200)
  /\ ~ (99 # 200 == inject_Z 60 / inject_Z 100)%Q.
Proof.
  split; [| split].
  - intros H. vm_compute in H. discriminate H.
  - vm_compute. reflexivity.
  - intros H. vm_compute in H. discriminate H.
Qed.

(** The exact quotient for two pages per row in a view of width 100. *)
Lemma sc_adjust_window_scale_two_columns :
  Adjust.finite_eq
    (Adjust.width_scale Sample.two_columns Sample.one_row_of_two 100)
    (Adjust.width_formula Sample.two_columns Sample.one_row_of_two 100).
Proof.
  destruct (sc_adjust_window_scale Sample.two_columns Sample.small_view
              Sample.one_row_of_two (Adjust.Finite 1))
    as [_ [_ [_ [H _]]]].
  apply (H 100); simpl; unfold CInt.UINT_MODULUS; lia.
Defined.

(** ** [sc_bisect] *)

Section BisectFacts.

Context {zathura : Type} `{Viewer zathura}.

(** C3, as the code has it: with a target page [t] between 1 and the
    number of pages, the argument block sets page [t - 1], records it with
    [zathura_jumplist_add], and then chooses BACKWARD when [t - 1] lies
    after the page that was current on entry, FORWARD otherwise; the
    rest of [sc_bisect] runs from there. *)
Theorem process_arguments_explicit_page :
  forall (z : zathura) (n : argument_n) (t : Z),
    let number_of_pages := zathura_document_get_number_of_pages z in
    let cur_page := zathura_document_get_current_page_number z in
    0 < t <= number_of_pages ->
    number_of_pages < CInt.UINT_MODULUS ->
    let jumped :=
      zathura_jumplist_add (page_set (zathura_jumplist_save z) (t - 1)) in
    let direction := if cur_page <? t - 1 then BACKWARD else FORWARD in
    Bisect.process_arguments (zathura_jumplist_save z) number_of_pages
      cur_page n t = (jumped, direction)
    /\ Bisect.sc_bisect z n t =
       (let '(z', prev, prev2) := Bisect.previous_jumps jumped in
        Bisect.bisect z' number_of_pages
          (zathura_document_get_current_page_number jumped)
          direction prev prev2).
Proof.
  intros z n t. cbv zeta. intros Ht Hnp.
  assert (E : Bisect.process_arguments (zathura_jumplist_save z)
                (zathura_document_get_number_of_pages z)
                (zathura_document_get_current_page_number z) n t
              = (zathura_jumplist_add
                   (page_set (zathura_jumplist_save z) (t - 1)),
                 if zathura_document_get_current_page_number z <? t - 1
                 then BACKWARD else FORWARD)).
  { unfold Bisect.process_arguments.
    replace (0 <? t) with true by (symmetry; apply Z.ltb_lt; lia).
    replace (t <=? zathura_document_get_number_of_pages z) with true
      by (symmetry; apply Z.leb_le; lia).
    rewrite wrap32_small by lia. reflexivity. }
  split; [exact E |].
  unfold Bisect.sc_bisect. rewrite E. reflexivity.
Qed.

(** C4: when neither [prev] nor [prev2] is an anchor for the direction,
    FORWARD sets page [(cur_page + number_of_pages - 1) / 2] and BACKWARD
    sets page [cur_page / 2], and each records the page with
    [zathura_jumplist_add]. *)
Theorem bisect_fallback_midpoint :
  forall (z : zathura) (number_of_pages cur_page : Z) (prev prev2 : option Z),
    0 <= cur_page ->
    0 < number_of_pages ->
    cur_page + number_of_pages <= CInt.UINT_MODULUS ->
    (Bisect.at_or_after cur_page prev = false ->
     Bisect.at_or_after cur_page prev2 = false ->
     Bisect.bisect z number_of_pages cur_page FORWARD prev prev2
     = zathura_jumplist_add
         (page_set z ((cur_page + number_of_pages - 1) / 2)))
    /\ (Bisect.at_or_before cur_page prev = false ->
        Bisect.at_or_before cur_page prev2 = false ->
        Bisect.bisect z number_of_pages cur_page BACKWARD prev prev2
        = zathura_jumplist_add (page_set z (cur_page / 2))).
Proof.
  intros z np cur prev prev2 Hcur Hnp Hsum. split; intros H1 H2.
  - unfold Bisect.bisect. rewrite H1, H2.
    destruct (Z.eq_dec (cur + np) CInt.UINT_MODULUS) as [E | E].
    + rewrite E. unfold CInt.wrap32 at 2. rewrite Z.mod_same
        by (unfold CInt.UINT_MODULUS; lia).
      unfold CInt.wrap32, CInt.UINT_MODULUS.
      replace ((0 - 1) mod 2 ^ 32) with (2 ^ 32 - 1) by reflexivity.
      reflexivity.
    + rewrite (wrap32_small (cur + np)) by lia.
      rewrite wrap32_small by lia. reflexivity.
  - unfold Bisect.bisect. rewrite H1, H2. reflexivity.
Qed.

End BisectFacts.

#[local] Existing Instance Session.viewer.

(** A jump to page 8 of ten from page 5: page 7 is set and recorded, and
    the bisection goes BACKWARD. *)
Lemma process_arguments_explicit_page_ten :
  0 < 8 <= zathura_document_get_number_of_pages Sample.ten_pages
  /\ zathura_document_get_number_of_pages Sample.ten_pages
     < CInt.UINT_MODULUS
  /\ snd (Bisect.process_arguments (zathura_jumplist_save Sample.ten_pages)
            10 5 FORWARD 8) = BACKWARD
  /\ Session.current_page_number
       (fst (Bisect.process_arguments
               (zathura_jumplist_save Sample.ten_pages) 10 5 FORWARD 8)) = 7.
Proof.
  assert (H1 : 0 < 8 <= zathura_document_get_number_of_pages Sample.ten_pages)
    by (vm_compute; split; [reflexivity | discriminate]).
  assert (H2 : zathura_document_get_number_of_pages Sample.ten_pages
               < CInt.UINT_MODULUS) by reflexivity.
  split; [exact H1 | split; [exact H2 |]].
  destruct (process_arguments_explicit_page Sample.ten_pages FORWARD 8 H1 H2)
    as [E _].
  change (zathura_document_get_number_of_pages Sample.ten_pages) with 10 in E.
  change (zathura_document_get_current_page_number Sample.ten_pages)
    with 5 in E.
  rewrite E. split; reflexivity.
Defined.

(** C3, the claim as stated fails: from page 5 of ten, the target page
    t = 2 precedes the current page, and the direction chosen is FORWARD,
    not BACKWARD. *)
Lemma process_arguments_target_before_current :
  2 - 1 < Session.current_page_number Sample.ten_pages
  /\ snd (Bisect.process_arguments (zathura_jumplist_save Sample.ten_pages)
            (zathura_document_get_number_of_pages Sample.ten_pages)
            (zathura_document_get_current_page_number Sample.ten_pages)
            BACKWARD 2) = FORWARD
  /\ FORWARD <> BACKWARD.
Proof. split; [reflexivity | split; [reflexivity | discriminate]]. Qed.

(** The fallbacks on the ten-page viewer at page 5 with an empty
    jumplist: FORWARD goes to page 7, BACKWARD to page 2. *)
Lemma bisect_fallback_midpoint_ten :
  Session.current_page_number
    (Bisect.bisect Sample.ten_pages 10 5 FORWARD None None) = 7
  /\ Session.current_page_number
       (Bisect.bisect Sample.ten_pages 10 5 BACKWARD None None) = 2
  /\ Session.current_page_number
       (Bisect.sc_bisect Sample.ten_pages FORWARD 0) = 7.
Proof.
  destruct (bisect_fallback_midpoint Sample.ten_pages 10 5 None None)
    as [HF HB]; [lia | lia | unfold CInt.UINT_MODULUS; lia |].
  rewrite (HF eq_refl eq_refl), (HB eq_refl eq_refl).
  repeat split.
Defined.

(** ** [sc_search] *)

Lemma rem_nonneg_mod (a n : Z) : 0 <= a -> 0 < n -> Z.rem a n = a mod n.
Proof. intros Ha Hn. apply Z.rem_mod_nonneg; lia. Qed.

Lemma page_index_mod (num_pages cur_page d page_id : Z) :
  0 <= cur_page < num_pages -> 0 <= page_id < num_pages ->
  d = 1 \/ d = -1 ->
  Search.page_index num_pages cur_page d page_id
  = (cur_page + d * page_id) mod num_pages.
Proof.
  intros Hc Hp Hd. unfold Search.page_index.
  rewrite rem_nonneg_mod by (destruct Hd; subst d; lia).
  replace (cur_page + d * page_id + num_pages)
    with (cur_page + d * page_id + 1 * num_pages) by lia.
  apply Z.mod_add. lia.
Qed.

Lemma npage_index_mod (num_pages cur_page d page_id npage_id : Z) :
  0 <= cur_page < num_pages -> 0 <= page_id < num_pages ->
  1 <= npage_id <= num_pages ->
  d = 1 \/ d = -1 ->
  Search.npage_index num_pages cur_page d page_id npage_id
  = (cur_page + d * (page_id + npage_id)) mod num_pages.
Proof.
  intros Hc Hp Hk Hd. unfold Search.npage_index.
  rewrite rem_nonneg_mod by (destruct Hd; subst d; lia).
  apply Z.mod_add. lia.
Qed.

Lemma diff_unit (n search_direction : argument_n) :
  Search.diff n search_direction = 1 \/ Search.diff n search_direction = -1.
Proof.
  unfold Search.diff. destruct n, search_direction; simpl; auto.
Qed.




(** The page shown when the second and third call are made does not
    matter for their targets. *)
Lemma sc_search_scenario_any_page :
  let z0 := Search.search_session [0; 2; 0] 1 0 0 in
  let z1 := Search.viewer_after z0 (Search.sc_search 3 z0 FORWARD) in
  Forall
    (fun p =>
       let z1 := Session.zathura_document_set_current_page_number z1 p in
       let r2 := Search.sc_search 3 z1 FORWARD in
       Search.target r2 = Some (1, 0)
       /\ Forall
            (fun q =>
               Search.target
                 (Search.sc_search 3
                    (Session.zathura_document_set_current_page_number
                       (Search.viewer_after z1 r2) q) FORWARD)
               = Some (1, 1))
            [0; 1; 2])
    [0; 1; 2].
Proof.
  cbv zeta.
  repeat (first [apply Forall_nil | apply Forall_cons | split]);
    vm_compute; reflexivity.
Qed.

(** With the last result of page 1 selected instead, the three calls give
    result 0 (after a round through pages 2 and 0), result 1, result 0. *)
Lemma sc_search_scenario_last_selected :
  let z0 := Search.search_session [0; 2; 0] 1 1 0 in
  let r1 := Search.sc_search 3 z0 FORWARD in
  let z1 := Search.viewer_after z0 r1 in
  let r2 := Search.sc_search 3 z1 FORWARD in
  let z2 := Search.viewer_after z1 r2 in
  let r3 := Search.sc_search 3 z2 FORWARD in
  Search.target r1 = Some (1, 0)
  /\ Search.target r2 = Some (1, 1)
  /\ Search.target r3 = Some (1, 0).
Proof. vm_compute. repeat split. Qed.

(** *** Termination of [sc_search] *)

Lemma replace_nth_length {A : Type} (l : list A) (i : nat) (a : A) :
  length (Session.replace_nth l i a) = length l.
Proof.
  revert i. induction l as [| b l IH]; intros [| i]; simpl; auto.
Qed.

Lemma replace_nth_same {A : Type} (l : list A) (i : nat) (a : A) :
  (i < length l)%nat -> nth_error (Session.replace_nth l i a) i = Some a.
Proof.
  revert i. induction l as [| b l IH]; intros [| i] Hi; simpl in *;
    try lia; auto.
  apply IH. lia.
Qed.

Lemma get_page_in_range (z : Session.zathura) (index : Z) :
  0 <= index < Session.number_of_pages z ->
  exists page, Session.zathura_document_get_page z index = Some page.
Proof.
  intros Hi. unfold Session.zathura_document_get_page.
  replace (0 <=? index) with true by (symmetry; apply Z.leb_le; lia).
  replace (index <? Session.number_of_pages z) with true
    by (symmetry; apply Z.ltb_lt; lia).
  simpl. destruct (nth_error (Session.pages z) (Z.to_nat index)) eqn:E.
  - eauto.
  - apply nth_error_None in E. unfold Session.number_of_pages in Hi. lia.
Qed.

Lemma get_page_same_pages (z z' : Session.zathura) (index : Z) :
  Session.pages z' = Session.pages z ->
  Session.zathura_document_get_page z' index
  = Session.zathura_document_get_page z index.
Proof.
  intros E. unfold Session.zathura_document_get_page, Session.number_of_pages.
  rewrite E. reflexivity.
Qed.

Lemma save_pages (z : Session.zathura) :
  Session.pages (Session.save z) = Session.pages z.
Proof. unfold Session.save. destruct (Session.jumplist z); reflexivity. Qed.

(** Clearing "search-current" keeps the number of pages and the result
    count of the page. *)
Lemma set_search_current_page (z : Session.zathura) (index current : Z)
    (page : Session.page_widget) :
  Session.zathura_document_get_page z index = Some page ->
  let z' := Session.set_search_current z index current in
  Session.number_of_pages z' = Session.number_of_pages z
  /\ exists page', Session.zathura_document_get_page z' index = Some page'
                   /\ Session.search_length page' = Session.search_length page.
Proof.
  intros Hget. cbv zeta. unfold Session.set_search_current. rewrite Hget.
  pose proof Hget as Hrange.
  unfold Session.zathura_document_get_page in Hrange.
  destruct ((0 <=? index) && (index <? Session.number_of_pages z)) eqn:Eb;
    [| discriminate].
  assert (Hlt : (Z.to_nat index < length (Session.pages z))%nat).
  { apply nth_error_Some. rewrite Hrange. discriminate. }
  split.
  - unfold Session.number_of_pages, Session.with_pages. simpl.
    rewrite replace_nth_length. reflexivity.
  - eexists. split.
    + unfold Session.zathura_document_get_page, Session.number_of_pages,
        Session.with_pages. simpl. rewrite replace_nth_length.
      unfold Session.number_of_pages in Eb. rewrite Eb.
      apply replace_nth_same. exact Hlt.
    + reflexivity.
Qed.

(** After [num_pages] steps the inner loop is back at the page it left. *)
Lemma npage_index_round (num_pages cur_page d page_id : Z) :
  0 <= cur_page < num_pages -> 0 <= page_id < num_pages ->
  d = 1 \/ d = -1 ->
  Search.npage_index num_pages cur_page d page_id num_pages
  = Search.page_index num_pages cur_page d page_id.
Proof.
  intros Hc Hp Hd.
  rewrite npage_index_mod, page_index_mod by lia.
  replace (cur_page + d * (page_id + num_pages))
    with (cur_page + d * page_id + d * num_pages) by lia.
  apply Z.mod_add. lia.
Qed.

Lemma npage_index_range (num_pages cur_page d page_id npage_id : Z) :
  0 <= cur_page < num_pages -> 0 <= page_id < num_pages ->
  1 <= npage_id <= num_pages ->
  d = 1 \/ d = -1 ->
  0 <= Search.npage_index num_pages cur_page d page_id npage_id < num_pages.
Proof.
  intros Hc Hp Hk Hd. rewrite npage_index_mod by assumption.
  apply Z.mod_pos_bound. lia.
Qed.

(** The operands of the two remainders stay inside [int] for documents
    of up to [INT_MAX / 5] pages. *)
Lemma index_operands_in_int (num_pages cur_page d page_id npage_id : Z) :
  0 <= cur_page < num_pages -> 0 <= page_id < num_pages ->
  1 <= npage_id <= num_pages ->
  d = 1 \/ d = -1 ->
  5 * num_pages <= CInt.INT_MAX ->
  0 <= cur_page + d * page_id + num_pages <= CInt.INT_MAX
  /\ 0 <= cur_page + d * (page_id + npage_id) + 2 * num_pages
     <= CInt.INT_MAX.
Proof. unfold CInt.INT_MAX. intros Hc Hp Hk [-> | ->] Hn; lia. Qed.

(** The inner loop ends within [num_pages] iterations when the page the
    outer loop stopped at has results. *)
Lemma next_page_done (ps : list Session.page_widget)
    (num_pages cur_page d page_id : Z) (left_page : Session.page_widget) :
  num_pages = Z.of_nat (length ps) ->
  0 <= cur_page < num_pages -> 0 <= page_id < num_pages ->
  d = 1 \/ d = -1 ->
  nth_error ps (Z.to_nat (Search.page_index num_pages cur_page d page_id))
  = Some left_page ->
  Session.search_length left_page <> 0 ->
  forall (fuel : nat) (z : Session.zathura) (npage_id : Z),
    Session.pages z = ps ->
    1 <= npage_id <= num_pages ->
    num_pages - npage_id < Z.of_nat fuel ->
    exists z' target,
      Search.next_page fuel z num_pages cur_page d page_id npage_id
      = Search.Done (z', target)
      /\ Session.pages z' = ps.
Proof.
  intros Hnum Hc Hp Hd Hleft Hlen.
  induction fuel as [| fuel IH]; intros z k Hps Hk Hfuel; [lia |].
  simpl.
  pose proof (npage_index_range num_pages cur_page d page_id k Hc Hp Hk Hd)
    as Hrange.
  assert (Hn : Session.number_of_pages z = num_pages).
  { unfold Session.number_of_pages. rewrite Hps. auto. }
  destruct (get_page_in_range z
              (Search.npage_index num_pages cur_page d page_id k))
    as [npage Hget]; [rewrite Hn; exact Hrange |].
  rewrite Hget.
  destruct (Session.search_length npage =? 0) eqn:E; simpl.
  - apply Z.eqb_eq in E.
    assert (Hk' : k < num_pages).
    { destruct (Z.eq_dec k num_pages) as [-> |]; [| lia].
      exfalso. apply Hlen.
      rewrite npage_index_round in Hget by assumption.
      unfold Session.zathura_document_get_page in Hget.
      destruct ((0 <=? _) && (_ <? _)); [| discriminate].
      rewrite Hps, Hleft in Hget. injection Hget as <-. exact E. }
    apply IH; [exact Hps | lia | lia].
  - eexists _, _. split; [reflexivity | exact Hps].
Qed.

(** The outer loop ends, whatever is found. *)
Lemma find_target_done (num_pages cur_page d : Z) :
  0 <= cur_page < num_pages ->
  d = 1 \/ d = -1 ->
  forall (remaining fuel : nat) (z : Session.zathura) (page_id : Z),
    Session.number_of_pages z = num_pages ->
    (Z.to_nat num_pages <= fuel)%nat ->
    0 <= page_id ->
    page_id + Z.of_nat remaining = num_pages ->
    exists r,
      Search.find_target fuel remaining z num_pages cur_page d page_id
      = Search.Done r.
Proof.
  intros Hc Hd.
  induction remaining as [| remaining IH]; intros fuel z page_id Hn Hfuel
    Hp Hrem; simpl.
  - eauto.
  - assert (Hp' : 0 <= page_id < num_pages) by lia.
    destruct (Session.zathura_document_get_page z
                (Search.page_index num_pages cur_page d page_id))
      as [page |] eqn:Hget; [| apply IH; auto; lia].
    destruct ((Session.search_length page =? 0)
              || (Session.search_current page =? -1)) eqn:Eskip;
      [apply IH; auto; lia |].
    destruct ((d =? 1)
              && (Session.search_current page
                  <? Session.search_length page - 1)); [eauto |].
    destruct ((d =? -1) && (0 <? Session.search_current page)); [eauto |].
    apply orb_false_iff in Eskip. destruct Eskip as [Elen _].
    apply Z.eqb_neq in Elen.
    change (zathura_jumplist_save z) with (Session.save z).
    set (z1 := Session.set_search_current (Session.save z)
                 (Search.page_index num_pages cur_page d page_id) (-1)).
    assert (Hget1 : Session.zathura_document_get_page (Session.save z)
                      (Search.page_index num_pages cur_page d page_id)
                    = Some page).
    { rewrite (get_page_same_pages z) by apply save_pages. exact Hget. }
    destruct (set_search_current_page _ _ (-1) _ Hget1)
      as [Hn1 [page' [Hget' Hlen']]].
    fold z1 in Hn1, Hget'.
    assert (Hn1' : Session.number_of_pages z1 = num_pages).
    { rewrite Hn1. unfold Session.number_of_pages. rewrite save_pages.
      exact Hn. }
    assert (Hleft : nth_error (Session.pages z1)
                      (Z.to_nat (Search.page_index num_pages cur_page d
                                   page_id)) = Some page').
    { unfold Session.zathura_document_get_page in Hget'.
      destruct ((0 <=? _) && (_ <? _)); [exact Hget' | discriminate]. }
    destruct (next_page_done (Session.pages z1) num_pages cur_page d page_id
                page' (eq_sym Hn1') Hc Hp' Hd Hleft
                ltac:(rewrite Hlen'; exact Elen) fuel z1 1 eq_refl
                ltac:(lia) ltac:(lia))
      as [z' [target [E _]]].
    rewrite E. eauto.
Qed.

(** C10: [sc_search] ends on every viewer whose current page is a page of
    the document, for every argument: a budget of [num_pages] iterations
    is enough for the inner loop, because its [num_pages]-th step is back
    at the page the outer loop stopped at, whose result count is not
    zero. *)
Theorem sc_search_terminates :
  forall (z : Session.zathura) (n : argument_n) (fuel : nat),
    0 <= Session.current_page_number z < Session.number_of_pages z ->
    (length (Session.pages z) <= fuel)%nat ->
    (exists z' target, Search.sc_search fuel z n = Search.Done (z', target))
    /\ (forall page_id left_page,
          let num_pages := Session.number_of_pages z in
          let cur_page := Session.current_page_number z in
          let d := Search.diff n (Session.search_direction z) in
          0 <= page_id < num_pages ->
          Session.zathura_document_get_page z
            (Search.page_index num_pages cur_page d page_id)
          = Some left_page ->
          Session.search_length left_page <> 0 ->
          Search.npage_index num_pages cur_page d page_id num_pages
          = Search.page_index num_pages cur_page d page_id
          /\ exists z' target,
               Search.next_page (length (Session.pages z)) z num_pages
                 cur_page d page_id 1 = Search.Done (z', target)).
Proof.
  intros z n fuel Hc Hfuel. split.
  - unfold Search.sc_search.
    destruct (find_target_done (Session.number_of_pages z)
                (Session.current_page_number z)
                (Search.diff n (Session.search_direction z)) Hc
                (diff_unit _ _) (Z.to_nat (Session.number_of_pages z)) fuel z 0
                eq_refl
                ltac:(unfold Session.number_of_pages; lia) ltac:(lia)
                ltac:(lia))
      as [[z' [[index target_idx] |]] E]; rewrite E; eauto.
  - intros page_id left_page. cbv zeta. intros Hp Hget Hlen.
    split; [apply npage_index_round; auto using diff_unit |].
    assert (Hleft : nth_error (Session.pages z)
                      (Z.to_nat (Search.page_index (Session.number_of_pages z)
                                   (Session.current_page_number z)
                                   (Search.diff n (Session.search_direction z))
                                   page_id)) = Some left_page).
    { unfold Session.zathura_document_get_page in Hget.
      destruct ((0 <=? _) && (_ <? _)); [exact Hget | discriminate]. }
    destruct (next_page_done (Session.pages z) (Session.number_of_pages z)
                (Session.current_page_number z)
                (Search.diff n (Session.search_direction z)) page_id
                left_page eq_refl Hc Hp (diff_unit _ _) Hleft Hlen
                (length (Session.pages z)) z 1 eq_refl
                ltac:(lia) ltac:(unfold Session.number_of_pages; lia))
      as [z' [target [E _]]].
    eauto.
Qed.

(** The scenario of three pages: the run that leaves page 1 and comes
    back to it ends within a budget of three. *)
Lemma sc_search_terminates_three_pages :
  0 <= Session.current_page_number Sample.last_selected
    < Session.number_of_pages Sample.last_selected
  /\ (length (Session.pages Sample.last_selected) <= 3)%nat
  /\ exists z' target,
       Search.sc_search 3 Sample.last_selected FORWARD
       = Search.Done (z', target).
Proof.
  assert (H1 : 0 <= Session.current_page_number Sample.last_selected
               < Session.number_of_pages Sample.last_selected)
    by (vm_compute; split; [discriminate | reflexivity]).
  assert (H2 : (length (Session.pages Sample.last_selected) <= 3)%nat)
    by (simpl; lia).
  split; [exact H1 | split; [exact H2 |]].
  exact (proj1 (sc_search_terminates _ FORWARD 3%nat H1 H2)).
Defined.

(** * Further properties of the shortcuts and links *)



(** ** [sc_scroll]: the page-aware block *)





(** ** [sc_navigate]: pages set *)

(** X3: whatever the argument, the count and the scroll-wrap setting, a
    page handed to [page_set] by [sc_navigate] is a page of the document
    (for a document of at least one and at most INT_MAX pages showing one
    of its pages). *)
Theorem sc_navigate_sets_valid_page :
  forall number_of_pages p cfg n t q,
    0 < number_of_pages <= CInt.INT_MAX ->
    0 <= p < number_of_pages ->
    Navigate.sc_navigate number_of_pages p cfg n t = Navigate.PageSet q ->
    0 <= q < number_of_pages.
Proof.
  intros np p cfg n t q Hnp Hp. unfold CInt.INT_MAX in Hnp.
  unfold Navigate.sc_navigate.
  destruct (Navigate.new_page np p cfg n t) as [r |] eqn:Enew;
    [| discriminate].
  destruct (Navigate.scroll_wrap cfg) eqn:Hw.
  - rewrite andb_false_r. intros E. injection E as <-.
    assert (Hmod : forall x, 0 <= CInt.to_int (x mod np) < np).
    { intros x. pose proof (Z.mod_pos_bound x np ltac:(lia)).
      rewrite to_int_small by (unfold CInt.INT_MAX; lia). lia. }
    unfold Navigate.new_page in Enew. rewrite Hw in Enew.
    rewrite (wrap32_small np) in Enew by (unfold CInt.UINT_MODULUS; lia).
    replace (np =? 0) with false in Enew by (symmetry; apply Z.eqb_neq; lia).
    destruct n; injection Enew as <-; try lia; apply Hmod.
  - rewrite andb_true_r.
    destruct (Z.ltb_spec r 0); simpl; [discriminate |].
    destruct (Z.leb_spec np r); [discriminate |].
    intros E. injection E as <-. lia.
Qed.

(** From page 2 of 3 with scroll-wrap on, "next" with count 5 sets
    page 1. *)
Lemma sc_navigate_sets_valid_page_three :
  Navigate.sc_navigate 3 2 Navigate.wrapping NEXT 5 = Navigate.PageSet 1
  /\ 0 <= 1 < 3.
Proof.
  assert (E : Navigate.sc_navigate 3 2 Navigate.wrapping NEXT 5
              = Navigate.PageSet 1) by reflexivity.
  split; [exact E |].
  apply (sc_navigate_sets_valid_page 3 2 Navigate.wrapping NEXT 5 1);
    [unfold CInt.INT_MAX; lia | lia | exact E].
Defined.

(** X4: "next" and "previous" with the same count undo each other: when
    the pages in between exist (scroll-wrap off), or with scroll-wrap on
    and a count of at most the number of pages, going [t] pages on from
    page [p] and then [t] pages back sets page [p] again, and so does
    going back first and then on. *)
Theorem sc_navigate_next_previous :
  forall number_of_pages p cfg t,
    0 < number_of_pages <= CInt.INT_MAX ->
    0 <= p < number_of_pages ->
    0 < t < 2 ^ 31 ->
    (Navigate.scroll_wrap cfg = true /\ t <= number_of_pages)
    \/ (Navigate.scroll_wrap cfg = false
        /\ 0 <= p - t /\ p + t < number_of_pages) ->
    (exists q,
        Navigate.sc_navigate number_of_pages p cfg NEXT t = Navigate.PageSet q
        /\ Navigate.sc_navigate number_of_pages q cfg PREVIOUS t
           = Navigate.PageSet p)
    /\ (exists q,
           Navigate.sc_navigate number_of_pages p cfg PREVIOUS t
           = Navigate.PageSet q
           /\ Navigate.sc_navigate number_of_pages q cfg NEXT t
              = Navigate.PageSet p).
Proof.
  intros np p cfg t Hnp Hp Ht Hcase.
  assert (Hnp' : 0 < np <= CInt.INT_MAX) by exact Hnp.
  unfold CInt.INT_MAX in Hnp.
  destruct Hcase as [[Hw Hle] | [Hw [Hlo Hhi]]].
  - assert (Hq1 : 0 <= (p + t) mod np < np) by (apply Z.mod_pos_bound; lia).
    assert (Hq2 : 0 <= (p - t) mod np < np) by (apply Z.mod_pos_bound; lia).
    destruct (sc_navigate_wrap_modulo np p cfg t Hw Hp
                ltac:(unfold CInt.INT_MAX; lia) Ht) as [En Ep].
    split.
    + exists ((p + t) mod np). split; [exact En |].
      destruct (sc_navigate_wrap_modulo np ((p + t) mod np) cfg t Hw Hq1
                  ltac:(unfold CInt.INT_MAX; lia) Ht) as [_ Eback].
      rewrite Eback by lia. f_equal.
      rewrite Zminus_mod_idemp_l.
      replace (p + t - t) with p by lia. apply Z.mod_small. lia.
    + exists ((p - t) mod np). split; [apply Ep; lia |].
      destruct (sc_navigate_wrap_modulo np ((p - t) mod np) cfg t Hw Hq2
                  ltac:(unfold CInt.INT_MAX; lia) Ht) as [Eon _].
      rewrite Eon. f_equal.
      rewrite Zplus_mod_idemp_l.
      replace (p - t + t) with p by lia. apply Z.mod_small. lia.
  - assert (Estep : forall a b, 0 <= a < np -> 0 <= b < np ->
               (a + t = b ->
                Navigate.sc_navigate np a cfg NEXT t = Navigate.PageSet b)
               /\ (a - t = b ->
                   Navigate.sc_navigate np a cfg PREVIOUS t
                   = Navigate.PageSet b)).
    { intros a b Ha Hb.
      unfold Navigate.sc_navigate, Navigate.new_page, Navigate.count.
      rewrite Hw.
      replace (t =? 0) with false by (symmetry; apply Z.eqb_neq; lia).
      split; intros <-.
      - rewrite wrap32_small by (unfold CInt.UINT_MODULUS; lia).
        rewrite to_int_small by (unfold CInt.INT_MAX; lia).
        replace (a + t <? 0) with false by (symmetry; apply Z.ltb_ge; lia).
        replace (np <=? a + t) with false by (symmetry; apply Z.leb_gt; lia).
        reflexivity.
      - rewrite wrap32_small by (unfold CInt.UINT_MODULUS; lia).
        rewrite to_int_small by (unfold CInt.INT_MAX; lia).
        replace (a - t <? 0) with false by (symmetry; apply Z.ltb_ge; lia).
        replace (np <=? a - t) with false by (symmetry; apply Z.leb_gt; lia).
        reflexivity. }
    split.
    + exists (p + t). split.
      * apply (Estep p (p + t)); lia.
      * apply (Estep (p + t) p); lia.
    + exists (p - t). split.
      * apply (Estep p (p - t)); lia.
      * apply (Estep (p - t) p); lia.
Qed.

(** On ten pages, from page 5 with count 3, with and without
    scroll-wrap. *)
Lemma sc_navigate_next_previous_ten :
  Navigate.sc_navigate 10 5 Navigate.wrapping NEXT 3 = Navigate.PageSet 8
  /\ Navigate.sc_navigate 10 8 Navigate.wrapping PREVIOUS 3
     = Navigate.PageSet 5
  /\ exists q,
       Navigate.sc_navigate 10 5 Sample2.not_wrapping NEXT 3
       = Navigate.PageSet q
       /\ Navigate.sc_navigate 10 q Sample2.not_wrapping PREVIOUS 3
          = Navigate.PageSet 5.
Proof.
  split; [reflexivity | split; [reflexivity |]].
  apply (sc_navigate_next_previous 10 5 Sample2.not_wrapping 3);
    [unfold CInt.INT_MAX; lia | lia | lia |].
  right. simpl. lia.
Defined.

(** ** [sc_zoom]: direction and specific values *)




(** [0.01f] is 5368709 / 2^29, a little less than 1 / 100. *)
Lemma hundredth_float :
  (Zoom.hundredth Float32.round == 5368709 # 536870912)%Q.
Proof. vm_compute. reflexivity. Qed.

(** X6: a zoom to a specific percentage [t] below 2^24 that lies strictly
    between zoom-min and zoom-max sets the scale to the float nearest
    t / 100, whatever the scale was; that float differs from t / 100 by at
    most t / 100 * 2^-24. *)
Theorem sc_zoom_specific_nearest :
  forall cfg old_zoom t,
    0 < t < 2 ^ 24 ->
    Zoom.zoom_min cfg < t < Zoom.zoom_max cfg ->
    (Zoom.sc_zoom Float32.round cfg old_zoom ZOOM_SPECIFIC t
     == Float32.round (inject_Z t / 100))%Q
    /\ (Qabs (Zoom.sc_zoom Float32.round cfg old_zoom ZOOM_SPECIFIC t
              - inject_Z t / 100)
        <= inject_Z t / 100 * Float32.pow2 (-24))%Q.
Proof.
  intros cfg old t [Hpos Hbig] [Hlo Hhi].
  pose proof hundredth_float as Ec.
  assert (Et : (Float32.round (inject_Z t) == inject_Z t)%Q)
    by (apply round_integer; lia).
  assert (Et1 : (Float32.round (inject_Z (t + 1)) == inject_Z (t + 1))%Q)
    by (apply round_integer; lia).
  assert (Htq : (0 < inject_Z t)%Q)
    by (change 0%Q with (inject_Z 0); rewrite <- Zlt_Qlt; exact Hpos).
  assert (Er : (Zoom.requested_scale Float32.round cfg old ZOOM_SPECIFIC t
                == Float32.round (inject_Z t / 100))%Q).
  { unfold Zoom.requested_scale.
    replace (t =? 0) with false by (symmetry; apply Z.eqb_neq; lia).
    apply round_comp. rewrite Et. reflexivity. }
  assert (Hmin : (Zoom.float_zoom_min Float32.round cfg
                  <= Float32.round (inject_Z t / 100))%Q).
  { unfold Zoom.float_zoom_min. apply round_monotone. rewrite Ec.
    assert (Hz : (Float32.round (inject_Z (Zoom.zoom_min cfg))
                  <= inject_Z t)%Q).
    { rewrite <- Et. apply round_monotone. rewrite <- Zle_Qle. lia. }
    set (a := Float32.round (inject_Z (Zoom.zoom_min cfg))) in *.
    destruct (Qlt_le_dec a 0) as [Ha | Ha].
    - apply Qle_trans with 0%Q.
      + setoid_replace 0%Q with (0 * (5368709 # 536870912))%Q by ring.
        apply Qmult_le_compat_r; [lra | discriminate].
      + apply Qle_shift_div_l; [reflexivity | lra].
    - apply Qle_trans with (inject_Z t * (5368709 # 536870912))%Q.
      + apply Qmult_le_compat_r; [exact Hz | discriminate].
      + unfold Qdiv. apply Qmult_le_l; [exact Htq | discriminate]. }
  assert (Hmax : (Float32.round (inject_Z t / 100)
                  <= Zoom.float_zoom_max Float32.round cfg)%Q).
  { unfold Zoom.float_zoom_max. apply round_monotone. rewrite Ec.
    assert (Hz : (inject_Z (t + 1)
                  <= Float32.round (inject_Z (Zoom.zoom_max cfg)))%Q).
    { rewrite <- Et1. apply round_monotone. rewrite <- Zle_Qle. lia. }
    apply Qle_trans with (inject_Z (t + 1) * (5368709 # 536870912))%Q.
    - unfold Qle, Qdiv, Qmult, Qinv, inject_Z. simpl. lia.
    - apply Qmult_le_compat_r; [exact Hz | discriminate]. }
  assert (Escale : (Zoom.sc_zoom Float32.round cfg old ZOOM_SPECIFIC t
                    == Float32.round (inject_Z t / 100))%Q).
  { unfold Zoom.sc_zoom.
    pose proof (requested_scale_float cfg old ZOOM_SPECIFIC t) as Hf.
    set (r := Zoom.requested_scale Float32.round cfg old ZOOM_SPECIFIC t)
      in *.
    destruct (limit_scale_cases Float32.round cfg r)
      as [[H1 ->] | [[H1 [H2 ->]] | [H1 [H2 ->]]]]; lra. }
  split; [exact Escale |].
  rewrite Escale.
  assert (Hq : (1 # 100 <= inject_Z t / 100)%Q).
  { apply Qle_shift_div_l; [reflexivity |].
    setoid_replace ((1 # 100) * 100)%Q with (inject_Z 1) by reflexivity.
    rewrite <- Zle_Qle. lia. }
  pose proof (round_relative_error (inject_Z t / 100)) as R.
  rewrite (Qabs_pos (inject_Z t / 100)) in R by lra.
  apply R. apply Qle_trans with (1 # 100)%Q; [| exact Hq].
  vm_compute. discriminate.
Qed.

(** 110 percent with the default limits: the scale is
    9227469 / 2^23 = 1.10000002384185791015625. *)
Lemma sc_zoom_specific_nearest_default :
  (Zoom.sc_zoom Float32.round Sample.limits_default 1 ZOOM_SPECIFIC 110
   == 9227469 # 8388608)%Q.
Proof.
  destruct (sc_zoom_specific_nearest Sample.limits_default 1 110) as [H _];
    [lia | simpl; lia |].
  rewrite H. vm_compute. reflexivity.
Defined.

(** ** [sc_adjust_window]: modes and fits *)

(** X7: [sc_adjust_window] stores the requested mode in every case and
    re-renders exactly for WIDTH and BESTFIT. NONE leaves the scale alone;
    every other mode that does not re-render (INPUTBAR, or a value outside
    the enumeration) leaves the scale reset to 1.0. *)
Theorem sc_adjust_window_modes :
  forall cfg v doc old_scale n,
    let r := Adjust.sc_adjust_window cfg v doc old_scale n in
    Adjust.adjust_mode r = n
    /\ (Adjust.rendered r = true
        <-> n = Adjust.ZATHURA_ADJUST_WIDTH
            \/ n = Adjust.ZATHURA_ADJUST_BESTFIT)
    /\ (n = Adjust.ZATHURA_ADJUST_NONE -> Adjust.scale r = old_scale)
    /\ (n <> Adjust.ZATHURA_ADJUST_NONE -> Adjust.rendered r = false ->
        Adjust.scale r = Adjust.Finite 1).
Proof.
  intros cfg v doc old n. cbv zeta.
  destruct n; simpl;
    try destruct (Adjust.gdouble_ltb _ _); simpl;
    (split; [reflexivity |]);
    (split; [split; [intros H; try discriminate; auto
                    | intros [H | H]; try discriminate; reflexivity] |]);
    (split; [intros H; try discriminate; reflexivity |]);
    intros H1 H2; try discriminate; try reflexivity; congruence.
Qed.

(** While the input bar asks for a link number the mode is INPUTBAR: the
    scale 2 is reset to 1 and nothing is rendered. *)
Lemma sc_adjust_window_modes_inputbar :
  Adjust.scale
    (Adjust.sc_adjust_window Sample.two_columns Sample.small_view
       Sample.one_row_of_two (Adjust.Finite 2)
       Adjust.ZATHURA_ADJUST_INPUTBAR) = Adjust.Finite 1.
Proof.
  destruct (sc_adjust_window_modes Sample.two_columns Sample.small_view
              Sample.one_row_of_two (Adjust.Finite 2)
              Adjust.ZATHURA_ADJUST_INPUTBAR) as [_ [_ [_ H]]].
  apply H; [discriminate | reflexivity].
Defined.

Lemma fit_width_without_scrollbars cfg v doc height width :
  Adjust.show_scrollbars cfg = false ->
  Adjust.fit_width cfg v doc height width = Adjust.width_scale cfg doc width.
Proof.
  intros H. unfold Adjust.fit_width, Adjust.correction. rewrite H.
  reflexivity.
Qed.

Lemma width_formula_fills cfg doc width (q : Q) :
  1 <= Adjust.pages_per_row cfg ->
  0 < Adjust.cell_width doc ->
  (q == Adjust.width_formula cfg doc width)%Q ->
  (inject_Z (Adjust.pages_per_row cfg) * (inject_Z (Adjust.cell_width doc) * q)
   + (inject_Z (Adjust.pages_per_row cfg) - 1)
     * inject_Z (Adjust.padding cfg)
   == inject_Z width)%Q.
Proof.
  intros Hppr Hcw ->. unfold Adjust.width_formula.
  assert (H1 : ~ (inject_Z (Adjust.pages_per_row cfg) == 0)%Q).
  { change 0%Q with (inject_Z 0). rewrite inject_Z_injective. lia. }
  assert (H2 : ~ (inject_Z (Adjust.cell_width doc) == 0)%Q).
  { change 0%Q with (inject_Z 0). rewrite inject_Z_injective. lia. }
  field. split; assumption.
Qed.

(** X8: when no room is kept for scrollbars and nothing wraps around, the
    scale chosen for WIDTH makes a row of pages with its padding exactly as
    wide as the view; the scale chosen for BESTFIT does the same or makes
    a cell exactly as high as the view. *)
Theorem sc_adjust_window_fills_view :
  forall cfg v doc old_scale,
    let ppr := inject_Z (Adjust.pages_per_row cfg) in
    let row := fun q : Q =>
      (ppr * (inject_Z (Adjust.cell_width doc) * q)
       + (ppr - 1) * inject_Z (Adjust.padding cfg))%Q in
    Adjust.show_scrollbars cfg = false ->
    1 <= Adjust.pages_per_row cfg ->
    0 <= Adjust.padding cfg ->
    0 < Adjust.cell_width doc ->
    0 < Adjust.cell_height doc ->
    (Adjust.pages_per_row cfg - 1) * Adjust.padding cfg
    <= Adjust.view_width v ->
    Adjust.pages_per_row cfg * Adjust.cell_width doc < CInt.UINT_MODULUS ->
    (exists q,
        Adjust.scale
          (Adjust.sc_adjust_window cfg v doc old_scale
             Adjust.ZATHURA_ADJUST_WIDTH) = Adjust.Finite q
        /\ (row q == inject_Z (Adjust.view_width v))%Q)
    /\ (exists q,
           Adjust.scale
             (Adjust.sc_adjust_window cfg v doc old_scale
                Adjust.ZATHURA_ADJUST_BESTFIT) = Adjust.Finite q
           /\ ((row q == inject_Z (Adjust.view_width v))%Q
               \/ (inject_Z (Adjust.cell_height doc) * q
                   == inject_Z (Adjust.view_height v))%Q)).
Proof.
  intros cfg v doc old. cbv zeta.
  intros Hbars Hppr Hpad Hcw Hch Hfit Hden.
  assert (Hw : Adjust.view_width v < CInt.UINT_MODULUS)
    by (unfold Adjust.view_width; apply wrap32_range).
  pose proof (width_scale_exact cfg doc (Adjust.view_width v)
                Hppr Hpad Hcw Hfit Hw Hden) as Hexact.
  assert (Hwidth : exists q,
             Adjust.fit_width cfg v doc (Adjust.view_height v)
               (Adjust.view_width v) = Adjust.Finite q
             /\ (inject_Z (Adjust.pages_per_row cfg)
                 * (inject_Z (Adjust.cell_width doc) * q)
                 + (inject_Z (Adjust.pages_per_row cfg) - 1)
                   * inject_Z (Adjust.padding cfg)
                 == inject_Z (Adjust.view_width v))%Q).
  { rewrite fit_width_without_scrollbars by exact Hbars.
    destruct (Adjust.width_scale cfg doc (Adjust.view_width v)) as [q | |];
      simpl in Hexact; try contradiction.
    exists q. split; [reflexivity |].
    apply width_formula_fills; assumption. }
  split.
  - simpl. exact Hwidth.
  - simpl. destruct (Adjust.gdouble_ltb _ _).
    + destruct Hwidth as [q [E Hq]]. exists q. simpl.
      split; [exact E | left; exact Hq].
    + simpl. unfold Adjust.quotient.
      replace (Adjust.cell_height doc =? 0) with false
        by (symmetry; apply Z.eqb_neq; lia).
      eexists. split; [reflexivity | right].
      assert (H0 : ~ (inject_Z (Adjust.cell_height doc) == 0)%Q).
      { change 0%Q with (inject_Z 0). rewrite inject_Z_injective. lia. }
      field. exact H0.
Qed.

(** Two columns of cells 100 wide in a view 100 wide: the scale 99/200
    makes the row 2 * 49.5 + 1 = 100 wide. *)
Lemma sc_adjust_window_fills_view_two_columns :
  exists q,
    Adjust.scale
      (Adjust.sc_adjust_window Sample.two_columns Sample.small_view
         Sample.one_row_of_two (Adjust.Finite 1)
         Adjust.ZATHURA_ADJUST_WIDTH) = Adjust.Finite q
    /\ (inject_Z 2 * (inject_Z 100 * q) + (inject_Z 2 - 1) * inject_Z 1
        == inject_Z 100)%Q.
Proof.
  destruct (sc_adjust_window_fills_view Sample.two_columns Sample.small_view
              Sample.one_row_of_two (Adjust.Finite 1)) as [H _];
    try reflexivity; try (simpl; lia); try (vm_compute; congruence).
  exact H.
Defined.

(** ** [sc_bisect]: the interval gets smaller *)

Section BisectNarrows.

Context {zathura : Type} `{Viewer zathura}.

Lemma midpoint_between (a b : Z) :
  0 <= a -> a < b -> a + b < CInt.UINT_MODULUS ->
  a <= CInt.wrap32 (a + b) / 2 < b.
Proof.
  intros Ha Hab Hsum. rewrite wrap32_small by lia.
  split.
  - apply Z.div_le_lower_bound; lia.
  - apply Z.div_lt_upper_bound; lia.
Qed.


(** X10: bisecting towards the jump before the previous one, when the
    previous jump is no anchor: FORWARD with the second previous jump on a
    page [p2] after the current one overwrites the previous jump with the
    current position, sets a page [m] with cur_page <= m < p2 and saves
    it at the current jump without adding one. *)
Theorem bisect_narrows_second :
  forall (z : zathura) (number_of_pages cur_page p2 : Z) (prev : option Z),
    0 <= cur_page ->
    cur_page + p2 < CInt.UINT_MODULUS ->
    Bisect.at_or_after cur_page prev = false ->
    cur_page < p2 ->
    exists m,
      Bisect.bisect z number_of_pages cur_page FORWARD prev (Some p2)
      = zathura_jumplist_save
          (page_set
             (zathura_jumplist_forward
                (zathura_jumplist_save (zathura_jumplist_backward z))) m)
      /\ cur_page <= m < p2.
Proof.
  intros z np cur p2 prev Hcur Hsum Hprev Hlt.
  unfold Bisect.bisect. rewrite Hprev.
  unfold Bisect.at_or_after, Bisect.jump_or_zero.
  replace (cur <=? p2) with true by (symmetry; apply Z.leb_le; lia).
  replace (cur <? p2) with true by (symmetry; apply Z.ltb_lt; lia).
  eexists. split; [reflexivity |].
  apply midpoint_between; lia.
Qed.

End BisectNarrows.


(** With the previous jump on page 2 and the one before on page 9, from
    page 5. *)
Lemma bisect_narrows_second_ten :
  exists m,
    Bisect.bisect Sample.ten_pages 10 5 FORWARD (Some 2) (Some 9)
    = zathura_jumplist_save
        (page_set
           (zathura_jumplist_forward
              (zathura_jumplist_save
                 (zathura_jumplist_backward Sample.ten_pages))) m)
    /\ 5 <= m < 9.
Proof.
  apply (bisect_narrows_second Sample.ten_pages 10 5 9 (Some 2));
    [lia | unfold CInt.UINT_MODULUS; lia | reflexivity | lia].
Defined.

(** ** [sc_search]: targets and cursors *)

Lemma replace_nth_map {A B : Type} (f : A -> B) (l : list A) (i : nat)
    (a : A) :
  (forall b, nth_error l i = Some b -> f a = f b) ->
  map f (Session.replace_nth l i a) = map f l.
Proof.
  revert i. induction l as [| b l IH]; intros [| i] Hf; simpl; auto.
  - rewrite (Hf b eq_refl). reflexivity.
  - rewrite IH; [reflexivity | exact Hf].
Qed.

Lemma get_page_nth (z : Session.zathura) (i : Z) (page : Session.page_widget) :
  Session.zathura_document_get_page z i = Some page ->
  0 <= i < Session.number_of_pages z
  /\ nth_error (Session.pages z) (Z.to_nat i) = Some page.
Proof.
  unfold Session.zathura_document_get_page.
  destruct (Z.leb_spec 0 i); simpl; [| discriminate].
  destruct (Z.ltb_spec i (Session.number_of_pages z)); [| discriminate].
  intros E. split; [lia | exact E].
Qed.

Lemma set_search_current_lengths (z : Session.zathura) (i c : Z) :
  Cursors.lengths (Session.set_search_current z i c) = Cursors.lengths z.
Proof.
  unfold Session.set_search_current, Cursors.lengths.
  destruct (Session.zathura_document_get_page z i) as [page |] eqn:E;
    [| reflexivity].
  apply get_page_nth in E. destruct E as [_ E]. simpl.
  apply replace_nth_map. intros b Hb. rewrite E in Hb.
  injection Hb as <-. reflexivity.
Qed.

Lemma set_search_current_get (z : Session.zathura) (i c : Z)
    (page : Session.page_widget) :
  Session.zathura_document_get_page z i = Some page ->
  Session.zathura_document_get_page (Session.set_search_current z i c) i
  = Some {| Session.search_current := c;
            Session.search_length := Session.search_length page |}.
Proof.
  intros Hget. pose proof (get_page_nth _ _ _ Hget) as [Hi Hnth].
  unfold Session.set_search_current. rewrite Hget.
  unfold Session.zathura_document_get_page, Session.number_of_pages,
    Session.with_pages. simpl. rewrite replace_nth_length.
  unfold Session.number_of_pages in Hi.
  replace (0 <=? i) with true by (symmetry; apply Z.leb_le; lia).
  replace (i <? Z.of_nat (length (Session.pages z))) with true
    by (symmetry; apply Z.ltb_lt; lia).
  simpl. apply replace_nth_same. apply nth_error_Some. rewrite Hnth.
  discriminate.
Qed.

Lemma add_pages (z : Session.zathura) :
  Session.pages (Session.add z) = Session.pages z.
Proof. reflexivity. Qed.

Lemma lengths_number_of_pages (z z' : Session.zathura) :
  Cursors.lengths z' = Cursors.lengths z ->
  Session.number_of_pages z' = Session.number_of_pages z.
Proof.
  unfold Cursors.lengths, Session.number_of_pages. intros E.
  rewrite <- (length_map Session.search_length (Session.pages z')), E,
    length_map. reflexivity.
Qed.

(** What the inner loop returns: a page with results, and its first or
    last result. *)
Lemma next_page_target (num_pages cur_page d page_id : Z) :
  forall (fuel : nat) (z : Session.zathura) (npage_id : Z)
         (z' : Session.zathura) (i k : Z),
    Search.next_page fuel z num_pages cur_page d page_id npage_id
    = Search.Done (z', (i, k)) ->
    Session.pages z' = Session.pages z
    /\ exists npage,
         Session.zathura_document_get_page z i = Some npage
         /\ Session.search_length npage <> 0
         /\ k = (if d =? 1 then 0 else Session.search_length npage - 1).
Proof.
  induction fuel as [| fuel IH]; intros z npage_id z' i k; simpl;
    [discriminate |].
  destruct (Session.zathura_document_get_page z _) as [npage |] eqn:Hget;
    [| discriminate].
  destruct (Z.eqb_spec (Session.search_length npage) 0) as [E | E]; simpl.
  - intros Hrec. apply IH in Hrec.
    destruct Hrec as [Hp [npage' [Hget' Hrest]]].
    split; [exact Hp |]. exists npage'. split; [| exact Hrest].
    rewrite <- Hget'. symmetry. apply get_page_same_pages. reflexivity.
  - intros Hdone. injection Hdone as <- <- <-.
    split; [reflexivity |]. exists npage. auto.
Qed.

Lemma cursor_ok_page (z : Session.zathura) (i : Z)
    (page : Session.page_widget) :
  Forall Cursors.cursor_ok (Session.pages z) ->
  Session.zathura_document_get_page z i = Some page ->
  Cursors.cursor_ok page.
Proof.
  intros Hall Hget. apply get_page_nth in Hget. destruct Hget as [_ Hnth].
  rewrite Forall_forall in Hall. apply Hall.
  eapply nth_error_In. exact Hnth.
Qed.

Lemma page_length (z : Session.zathura) (i : Z) (page : Session.page_widget) :
  Session.zathura_document_get_page z i = Some page ->
  nth_error (Cursors.lengths z) (Z.to_nat i)
  = Some (Session.search_length page).
Proof.
  intros Hget. apply get_page_nth in Hget. destruct Hget as [_ Hnth].
  unfold Cursors.lengths. apply map_nth_error. exact Hnth.
Qed.

(** What the outer loop returns. *)
Lemma find_target_target (num_pages cur_page d : Z) :
  forall (remaining fuel : nat) (z : Session.zathura) (page_id : Z)
         (z' : Session.zathura) (t : option (Z * Z)),
    Forall Cursors.cursor_ok (Session.pages z) ->
    Search.find_target fuel remaining z num_pages cur_page d page_id
    = Search.Done (z', t) ->
    Cursors.lengths z' = Cursors.lengths z
    /\ forall i k, t = Some (i, k) ->
         0 <= i < Session.number_of_pages z
         /\ exists len,
              nth_error (Cursors.lengths z) (Z.to_nat i) = Some len
              /\ 0 <= k < len.
Proof.
  induction remaining as [| remaining IH]; intros fuel z page_id z' t Hok;
    simpl.
  - intros E. injection E as <- <-. split; [reflexivity | discriminate].
  - destruct (Session.zathura_document_get_page z
                (Search.page_index num_pages cur_page d page_id))
      as [page |] eqn:Hget; [| apply IH; exact Hok].
    destruct ((Session.search_length page =? 0)
              || (Session.search_current page =? -1)) eqn:Eskip;
      [apply IH; exact Hok |].
    apply orb_false_iff in Eskip. destruct Eskip as [Elen Ecur].
    apply Z.eqb_neq in Elen, Ecur.
    destruct (cursor_ok_page z _ page Hok Hget) as [Hlen [Hlo Hhi]].
    pose proof (get_page_nth _ _ _ Hget) as [Hrange _].
    pose proof (page_length _ _ _ Hget) as Hnth.
    destruct ((d =? 1)
              && (Session.search_current page
                  <? Session.search_length page - 1)) eqn:Efwd.
    { intros E. injection E as <- <-. split; [reflexivity |].
      intros i k Et. injection Et as <- <-. split; [exact Hrange |].
      apply andb_true_iff in Efwd. destruct Efwd as [_ Efwd].
      apply Z.ltb_lt in Efwd.
      exists (Session.search_length page). split; [exact Hnth | lia]. }
    destruct ((d =? -1) && (0 <? Session.search_current page)) eqn:Ebwd.
    { intros E. injection E as <- <-. split; [reflexivity |].
      intros i k Et. injection Et as <- <-. split; [exact Hrange |].
      apply andb_true_iff in Ebwd. destruct Ebwd as [_ Ebwd].
      apply Z.ltb_lt in Ebwd.
      exists (Session.search_length page). split; [exact Hnth | lia]. }
    change (zathura_jumplist_save z) with (Session.save z).
    set (z1 := Session.set_search_current (Session.save z)
                 (Search.page_index num_pages cur_page d page_id) (-1)).
    assert (Hl1 : Cursors.lengths z1 = Cursors.lengths z).
    { unfold z1. rewrite set_search_current_lengths.
      unfold Cursors.lengths. rewrite save_pages. reflexivity. }
    destruct (Search.next_page fuel z1 num_pages cur_page d page_id 1)
      as [[z2 [i k]] | |] eqn:Enext; try discriminate.
    intros E. injection E as <- <-.
    apply next_page_target in Enext.
    destruct Enext as [Hp2 [npage [Hget2 [Hlen2 Hk]]]].
    change (zathura_jumplist_add z2) with (Session.add z2).
    split.
    { unfold Cursors.lengths at 1. rewrite add_pages, Hp2. exact Hl1. }
    intros i' k' Et. injection Et as <- <-.
    pose proof (get_page_nth _ _ _ Hget2) as [Hrange2 _].
    pose proof (page_length _ _ _ Hget2) as Hnth2.
    rewrite (lengths_number_of_pages _ _ Hl1) in Hrange2.
    rewrite Hl1 in Hnth2.
    split; [exact Hrange2 |].
    exists (Session.search_length npage). split; [exact Hnth2 |].
    assert (Hpos : 0 <= Session.search_length npage).
    { unfold Cursors.lengths in Hnth2.
      apply nth_error_In in Hnth2. apply in_map_iff in Hnth2.
      destruct Hnth2 as [q [Eq Hin]]. rewrite <- Eq.
      rewrite Forall_forall in Hok. apply (Hok q Hin). }
    subst k. destruct (d =? 1); lia.
Qed.

(** X11: on a viewer whose search cursors are -1, an index or the number
    of results, a target found by [sc_search] is a result of its page: the
    result index lies in [0, search-length) of the target page, it is the
    "search-current" stored on that page, and no result count has
    changed. So [girara_list_nth(results, target_idx)] is never asked for a
    result that does not exist. *)
Theorem sc_search_target_in_range :
  forall (z : Session.zathura) (n : argument_n) (fuel : nat)
         (z' : Session.zathura) (i k : Z),
    Forall Cursors.cursor_ok (Session.pages z) ->
    Search.sc_search fuel z n = Search.Done (z', Some (i, k)) ->
    Cursors.lengths z' = Cursors.lengths z
    /\ exists page,
         Session.zathura_document_get_page z' i = Some page
         /\ Session.search_current page = k
         /\ 0 <= k < Session.search_length page.
Proof.
  intros z n fuel z' i k Hok. unfold Search.sc_search.
  destruct (Search.find_target fuel _ z _ _ _ 0)
    as [[z1 [[i1 k1] |]] | |] eqn:Efind; try discriminate.
  intros E. injection E as <- <- <-.
  apply find_target_target in Efind; [| exact Hok].
  destruct Efind as [Hl1 Htarget].
  destruct (Htarget i1 k1 eq_refl) as [Hrange [len [Hnth Hk]]].
  rewrite <- (lengths_number_of_pages _ _ Hl1) in Hrange.
  destruct (get_page_in_range z1 i1 Hrange) as [page1 Hget1].
  pose proof (page_length _ _ _ Hget1) as Hnth1.
  rewrite Hl1, Hnth in Hnth1. injection Hnth1 as Hlen.
  split.
  - rewrite set_search_current_lengths. exact Hl1.
  - eexists. split; [apply set_search_current_get; exact Hget1 |].
    simpl. split; [reflexivity | lia].
Qed.

(** The three pages with counts 0, 2, 0 and the last result selected:
    the target is result 0 of page 1. *)
Lemma sc_search_target_in_range_three :
  exists page,
    Session.zathura_document_get_page
      (Search.viewer_after Sample.last_selected
         (Search.sc_search 3 Sample.last_selected FORWARD)) 1 = Some page
    /\ Session.search_current page = 0
    /\ 0 <= 0 < Session.search_length page.
Proof.
  assert (Hok : Forall Cursors.cursor_ok (Session.pages Sample.last_selected)).
  { repeat constructor; simpl; lia. }
  destruct (Search.sc_search 3 Sample.last_selected FORWARD)
    as [[z' t] | |] eqn:E; try (vm_compute in E; discriminate).
  assert (Et : t = Some (1, 0)) by (vm_compute in E; congruence).
  subst t.
  destruct (sc_search_target_in_range _ _ _ _ _ _ Hok E) as [_ H].
  exact H.
Defined.

(** X12: when no page has a selected result, [sc_search] finds no target
    and leaves the viewer as it is: pages, cursors, current page and
    jumplist. *)
Theorem sc_search_nothing_selected :
  forall (z : Session.zathura) (n : argument_n) (fuel : nat),
    Forall Cursors.unselected (Session.pages z) ->
    Search.sc_search fuel z n = Search.Done (z, None).
Proof.
  intros z n fuel Hnone. unfold Search.sc_search.
  assert (Hloop : forall remaining page_id,
             Search.find_target fuel remaining z (Session.number_of_pages z)
               (Session.current_page_number z)
               (Search.diff n (Session.search_direction z)) page_id
             = Search.Done (z, None)).
  { induction remaining as [| remaining IH]; intros page_id; simpl;
      [reflexivity |].
    destruct (Session.zathura_document_get_page z _) as [page |] eqn:Hget;
      [| apply IH].
    apply get_page_nth in Hget. destruct Hget as [_ Hnth].
    rewrite Forall_forall in Hnone.
    destruct (Hnone page (nth_error_In _ _ Hnth)) as [-> | ->].
    - simpl. apply IH.
    - rewrite orb_true_r. apply IH. }
  rewrite Hloop. reflexivity.
Qed.

(** Ten pages without results. *)
Lemma sc_search_nothing_selected_ten :
  Search.sc_search 10 Sample.ten_pages FORWARD
  = Search.Done (Sample.ten_pages, None).
Proof.
  apply sc_search_nothing_selected.
  repeat constructor; left; reflexivity.
Defined.

(** ** links.c: what a built link gives back *)

Lemma set_value_same (tgt : Links.zathura_link_target) :
  Links.set_value tgt (Links.value tgt) = tgt.
Proof. destruct tgt; reflexivity. Qed.

(** X13: a link built by [zathura_link_new] gives back, through the
    three getters, the type, the position and the value it was built
    from. A NONE or GOTO_DEST link gives back the whole target; a link of
    one of the four other types gives back zero in every other field of
    the target (destination type, page number, left, top, scale),
    whatever was passed. *)
Theorem zathura_link_new_getters :
  forall ty pos tgt l,
    Links.zathura_link_new ty pos tgt = Some l ->
    LinkUse.zathura_link_get_type (Some l) = ty
    /\ LinkUse.zathura_link_get_position (Some l) = pos
    /\ Links.value (LinkUse.zathura_link_get_target (Some l))
       = Links.value tgt
    /\ (Links.needs_value ty = false ->
        LinkUse.zathura_link_get_target (Some l) = tgt)
    /\ (Links.needs_value ty = true ->
        LinkUse.zathura_link_get_target (Some l)
        = Links.set_value Links.zeroed_target (Links.value tgt)).
Proof.
  intros ty pos tgt l Hnew.
  destruct ty; simpl in Hnew; try discriminate;
    destruct (Links.value tgt) as [v |] eqn:Ev; try discriminate;
    injection Hnew as <-; simpl; unfold Links.g_strdup;
    (split; [reflexivity |]); (split; [reflexivity |]);
    (split; [first [reflexivity | exact Ev] |]);
    split; intros Hn; try discriminate Hn; try reflexivity;
    rewrite <- Ev; apply set_value_same.
Qed.

(** A URI link built from a target that also names page 7: the page
    number reads back as 0. *)
Lemma zathura_link_new_getters_uri :
  Links.zathura_link_new Links.ZATHURA_LINK_URI Links.origin
    SampleLinks.project_page = Some SampleLinks.project_link
  /\ Links.page_number
       (LinkUse.zathura_link_get_target (Some SampleLinks.project_link)) = 0
  /\ Links.value
       (LinkUse.zathura_link_get_target (Some SampleLinks.project_link))
     = Links.value SampleLinks.project_page.
Proof.
  assert (Hnew : Links.zathura_link_new Links.ZATHURA_LINK_URI Links.origin
                   SampleLinks.project_page = Some SampleLinks.project_link)
    by reflexivity.
  split; [exact Hnew |].
  destruct (zathura_link_new_getters _ _ _ _ Hnew) as [_ [_ [Hv [_ H]]]].
  rewrite (H eq_refl). split; reflexivity.
Defined.

(** X14: what [zathura_link_display] shows for a link built by
    [zathura_link_new]: the page number for GOTO_DEST; for the four types
    with a value, the string the link was built from, which is never
    [NULL]; and "Link: Invalid" as an error for a NONE link, which is a
    link [zathura_link_new] builds. *)
Theorem zathura_link_display_built :
  forall ty pos tgt l,
    Links.zathura_link_new ty pos tgt = Some l ->
    match ty with
    | Links.ZATHURA_LINK_GOTO_DEST =>
        LinkUse.zathura_link_display (Some l)
        = (LinkUse.GIRARA_INFO, LinkUse.Link_page (Links.page_number tgt))
    | Links.ZATHURA_LINK_NONE =>
        LinkUse.zathura_link_display (Some l)
        = (LinkUse.GIRARA_ERROR, LinkUse.Link_invalid)
    | _ =>
        exists v,
          Links.value tgt = Some v
          /\ LinkUse.zathura_link_display (Some l)
             = (LinkUse.GIRARA_INFO, LinkUse.Link_value (Some v))
    end.
Proof.
  intros ty pos tgt l Hnew.
  destruct ty; simpl in Hnew; try discriminate;
    destruct (Links.value tgt) as [v |] eqn:Ev; try discriminate;
    injection Hnew as <-; unfold LinkUse.zathura_link_display; simpl;
    try reflexivity; try (exists v; split; reflexivity).
Qed.

(** A NONE link is built and shown as invalid. *)
Lemma zathura_link_display_built_none :
  Links.zathura_link_new Links.ZATHURA_LINK_NONE Links.origin
    Links.zeroed_target = Some SampleLinks.none_link
  /\ LinkUse.zathura_link_display (Some SampleLinks.none_link)
     = (LinkUse.GIRARA_ERROR, LinkUse.Link_invalid).
Proof.
  assert (Hnew : Links.zathura_link_new Links.ZATHURA_LINK_NONE Links.origin
                   Links.zeroed_target = Some SampleLinks.none_link)
    by reflexivity.
  split; [exact Hnew |].
  exact (zathura_link_display_built Links.ZATHURA_LINK_NONE _ _ _ Hnew).
Defined.

(** ** links.c: following a link *)

(** X15: [zathura_link_evaluate] only ever sets a page that the document
    has, and sets a position only after setting a page: the position is
    then the last thing set, the page is set right before it, and before
    the page nothing but the scale. When the page of a GOTO_DEST link with
    a known destination type is missing, nothing is set but the scale,
    which is still changed if the link carries one. *)
Theorem zathura_link_evaluate_pages :
  forall env link,
    (forall p, In (LinkUse.Page_set p)
                 (LinkUse.zathura_link_evaluate env link) ->
               LinkUse.has_page env p = true)
    /\ (forall x y,
          In (LinkUse.Position_set_delayed x y)
            (LinkUse.zathura_link_evaluate env link) ->
          exists before p,
            LinkUse.zathura_link_evaluate env link
            = before ++ [LinkUse.Page_set p;
                         LinkUse.Position_set_delayed x y]
            /\ forall e, In e before -> exists s, e = LinkUse.Set_scale s)
    /\ (forall l,
          link = Some l ->
          Links.type l = Links.ZATHURA_LINK_GOTO_DEST ->
          Links.destination_type (Links.target l)
          <> LinkUse.ZATHURA_LINK_DESTINATION_UNKNOWN env ->
          LinkUse.has_page env (Links.page_number (Links.target l)) = false ->
          LinkUse.zathura_link_evaluate env link
          = (if Qeq_bool (Links.scale (Links.target l)) 0 then []
             else [LinkUse.Set_scale (Links.scale (Links.target l))])).
Proof.
  intros env link.
  assert (Hshape : forall l,
             link = Some l ->
             (exists x y,
                 LinkUse.has_page env (Links.page_number (Links.target l))
                 = true
                 /\ LinkUse.zathura_link_evaluate env link
                    = (if Qeq_bool (Links.scale (Links.target l)) 0 then []
                       else [LinkUse.Set_scale
                               (Links.scale (Links.target l))])
                      ++ [LinkUse.Page_set
                            (Links.page_number (Links.target l));
                          LinkUse.Position_set_delayed x y])
             \/ (forall p, ~ In (LinkUse.Page_set p)
                               (LinkUse.zathura_link_evaluate env link))
                /\ (forall x y, ~ In (LinkUse.Position_set_delayed x y)
                                    (LinkUse.zathura_link_evaluate env link))).
  { intros l ->. unfold LinkUse.zathura_link_evaluate, LinkUse.link_remote,
      LinkUse.link_launch.
    destruct (Links.type l);
      try (right; split; intros; simpl; tauto).
    - destruct (_ =? _); [right; split; intros; simpl; tauto |].
      destruct (LinkUse.has_page env _) eqn:Hp.
      + destruct (LinkUse.page_calculate_offset env _) as [x y].
        left. eexists _, _. split; [reflexivity | reflexivity].
      + right. destruct (Qeq_bool _ 0); split; intros; simpl;
          intuition discriminate.
    - right. destruct (Links.value (Links.target l)); split; intros; simpl;
        intuition discriminate.
    - right. destruct (LinkUse.girara_xdg_open env _); split; intros; simpl;
        intuition discriminate.
    - right. destruct (Links.value (Links.target l)); simpl;
        [destruct (LinkUse.girara_xdg_open env _) |]; split; intros; simpl;
        intuition discriminate. }
  split; [| split].
  - intros p Hin. destruct link as [l |]; [| destruct Hin].
    destruct (Hshape l eq_refl) as [[x [y [Hp E]]] | [Hno _]].
    + rewrite E in Hin. apply in_app_or in Hin. destruct Hin as [Hin | Hin].
      * destruct (Qeq_bool _ 0); simpl in Hin; intuition discriminate.
      * simpl in Hin. destruct Hin as [Hin | [Hin | []]];
          [injection Hin as <-; exact Hp | discriminate].
    + exfalso. exact (Hno p Hin).
  - intros x y Hin. destruct link as [l |]; [| destruct Hin].
    destruct (Hshape l eq_refl) as [[x' [y' [Hp E]]] | [_ Hno]].
    + assert (Hxy : LinkUse.Position_set_delayed x y
                    = LinkUse.Position_set_delayed x' y').
      { rewrite E in Hin. apply in_app_or in Hin. destruct Hin as [Hin | Hin].
        - destruct (Qeq_bool _ 0); simpl in Hin; intuition discriminate.
        - simpl in Hin. destruct Hin as [Hin | [Hin | []]];
            [discriminate | symmetry; exact Hin]. }
      rewrite Hxy.
      exists (if Qeq_bool (Links.scale (Links.target l)) 0 then []
              else [LinkUse.Set_scale (Links.scale (Links.target l))]),
        (Links.page_number (Links.target l)).
      split; [exact E |].
      intros e He. destruct (Qeq_bool _ 0); simpl in He; [destruct He |].
      destruct He as [<- | []]. eexists. reflexivity.
    + exfalso. exact (Hno x y Hin).
  - intros l -> Hty Hdest Hpage. simpl. rewrite Hty.
    replace (_ =? _) with false by (symmetry; apply Z.eqb_neq; exact Hdest).
    rewrite Hpage. reflexivity.
Qed.

(** A link to page 12 of a document of ten pages at scale 2: the scale is
    set and no page. *)
Lemma zathura_link_evaluate_pages_missing :
  LinkUse.zathura_link_evaluate SampleLinks.ten_page_viewer
    (Some SampleLinks.page_12) = [LinkUse.Set_scale 2].
Proof.
  destruct (zathura_link_evaluate_pages SampleLinks.ten_page_viewer
              (Some SampleLinks.page_12)) as [_ [_ H]].
  rewrite (H SampleLinks.page_12 eq_refl eq_refl);
    [reflexivity | discriminate | reflexivity].
Defined.

(** X16: following a link built by [zathura_link_new]. A URI link asks
    the opener once, for the string it was built from; a LAUNCH link asks
    it once, for that string if it is an absolute path and else for the
    file of that name in the directory of the document; both raise the
    error note exactly when the opener fails. A GOTO_REMOTE link starts the
    program once on the file of that name in the directory of the
    document. NAMED and NONE links do nothing. *)
Theorem zathura_link_evaluate_built :
  forall env ty pos tgt l,
    Links.zathura_link_new ty pos tgt = Some l ->
    let directory :=
      LinkUse.g_path_get_dirname env (LinkUse.document_path env) in
    let opened := fun path =>
      LinkUse.Xdg_open (Some path)
      :: (if LinkUse.girara_xdg_open env (Some path) then []
          else [LinkUse.Notify LinkUse.GIRARA_ERROR
                  LinkUse.Failed_to_run_xdg_open]) in
    match ty with
    | Links.ZATHURA_LINK_URI =>
        exists v, Links.value tgt = Some v
                  /\ LinkUse.zathura_link_evaluate env (Some l) = opened v
    | Links.ZATHURA_LINK_LAUNCH =>
        exists v, Links.value tgt = Some v
                  /\ LinkUse.zathura_link_evaluate env (Some l)
                     = opened (if LinkUse.g_path_is_absolute env v then v
                               else LinkUse.g_build_filename env directory v)
    | Links.ZATHURA_LINK_GOTO_REMOTE =>
        exists v, Links.value tgt = Some v
                  /\ LinkUse.zathura_link_evaluate env (Some l)
                     = [LinkUse.Spawn_async
                          [LinkUse.program env;
                           LinkUse.g_build_filename env directory v]]
    | Links.ZATHURA_LINK_NAMED | Links.ZATHURA_LINK_NONE =>
        LinkUse.zathura_link_evaluate env (Some l) = []
    | _ => True
    end.
Proof.
  intros env ty pos tgt l Hnew. cbv zeta.
  destruct ty; simpl in Hnew; try discriminate; try exact I;
    destruct (Links.value tgt) as [v |] eqn:Ev; try discriminate;
    injection Hnew as <-; try reflexivity;
    exists v; (split; [reflexivity |]);
    unfold LinkUse.zathura_link_evaluate, LinkUse.link_launch,
      LinkUse.link_remote, Links.g_strdup; simpl;
    try reflexivity;
    destruct (LinkUse.girara_xdg_open env _); reflexivity.
Qed.

(** The URI link of the examples is opened once, without an error
    note. *)
Lemma zathura_link_evaluate_built_uri :
  Links.zathura_link_new Links.ZATHURA_LINK_URI Links.origin
    SampleLinks.project_page = Some SampleLinks.project_link
  /\ LinkUse.zathura_link_evaluate SampleLinks.ten_page_viewer
       (Some SampleLinks.project_link)
     = [LinkUse.Xdg_open (Links.value SampleLinks.project_page)].
Proof.
  assert (Hnew : Links.zathura_link_new Links.ZATHURA_LINK_URI Links.origin
                   SampleLinks.project_page = Some SampleLinks.project_link)
    by reflexivity.
  split; [exact Hnew |].
  destruct (zathura_link_evaluate_built SampleLinks.ten_page_viewer _ _ _ _
              Hnew) as [v [Ev E]].
  rewrite E. simpl in Ev. injection Ev as <-. reflexivity.
Defined.

(** ** [sc_rotate] *)

Lemma rotation_sum (rotation angle count : Z) :
  0 <= rotation < 360 -> 0 <= angle <= 270 -> 0 <= count ->
  270 * count + 360 <= CInt.UINT_MODULUS ->
  CInt.wrap32 (rotation + CInt.wrap32 (angle * count)) mod 360
  = (rotation + angle * count) mod 360.
Proof.
  intros Hr Ha Hc Hbound.
  rewrite (wrap32_small (angle * count)) by nia.
  rewrite wrap32_small by nia. reflexivity.
Qed.

(** X17: starting from a rotation of 0, 90, 180 or 270 degrees,
    [sc_rotate] stores one of these four again: a clockwise rotation by
    count [t] adds 90 * t modulo 360 and a counter-clockwise one takes
    90 * t off, a count of 0 standing for 1 (for counts up to
    (2^32 - 360) / 270, so that the product does not wrap around). *)
Theorem sc_rotate_quarter_turns :
  forall cfg v document_at rotation page_number scale adjust_mode argument t,
    let r :=
      Rotate.rotation
        (Rotate.sc_rotate cfg v document_at rotation page_number scale
           adjust_mode argument t) in
    let count := if t =? 0 then 1 else t in
    0 <= rotation < 360 -> rotation mod 90 = 0 ->
    0 <= t -> 270 * t + 360 <= CInt.UINT_MODULUS ->
    0 <= r < 360 /\ r mod 90 = 0
    /\ (argument = Some Rotate.ROTATE_CCW ->
        r = (rotation - 90 * count) mod 360)
    /\ (argument <> Some Rotate.ROTATE_CCW ->
        r = (rotation + 90 * count) mod 360).
Proof.
  intros cfg v doc_at rotation page scale mode argument t. cbv zeta.
  intros Hr Hq Ht Hbound. simpl. unfold Rotate.new_rotation.
  set (count := if t =? 0 then 1 else t).
  assert (Hc : 0 <= count /\ 270 * count + 360 <= CInt.UINT_MODULUS).
  { unfold count. destruct (Z.eqb_spec t 0);
      [unfold CInt.UINT_MODULUS; lia | lia]. }
  assert (Ha : 0 <= Rotate.angle argument <= 270
               /\ Rotate.angle argument mod 90 = 0).
  { unfold Rotate.angle. destruct argument as [[| | raw] |];
      split; try lia; reflexivity. }
  rewrite rotation_sum by tauto.
  split; [apply Z.mod_pos_bound; lia |].
  split.
  - rewrite Z.mod_mod_divide by (exists 4; reflexivity).
    rewrite Z.add_mod, Hq, Z.mul_mod, (proj2 Ha) by lia. reflexivity.
  - split.
    + intros ->. change (Rotate.angle (Some Rotate.ROTATE_CCW)) with 270.
      replace (rotation + 270 * count)
        with (rotation - 90 * count + count * 360) by lia.
      apply Z.mod_add. lia.
    + intros Hne. unfold Rotate.angle.
      destruct argument as [[| | raw] |]; try reflexivity. congruence.
Qed.

(** X18: a clockwise rotation followed by a counter-clockwise rotation
    with the same count gives the rotation back, and so does a clockwise
    rotation with count 4. *)
Theorem sc_rotate_back :
  forall rotation t,
    0 <= rotation < 360 ->
    0 <= t -> 270 * t + 360 <= CInt.UINT_MODULUS ->
    Rotate.new_rotation
      (Rotate.new_rotation rotation (Some Rotate.ROTATE_CW) t)
      (Some Rotate.ROTATE_CCW) t = rotation
    /\ Rotate.new_rotation
         (Rotate.new_rotation rotation (Some Rotate.ROTATE_CCW) t)
         (Some Rotate.ROTATE_CW) t = rotation
    /\ Rotate.new_rotation rotation (Some Rotate.ROTATE_CW) 4 = rotation.
Proof.
  intros rotation t Hr Ht Hbound. unfold Rotate.new_rotation.
  set (count := if t =? 0 then 1 else t).
  assert (Hc : 0 <= count /\ 270 * count + 360 <= CInt.UINT_MODULUS).
  { unfold count. destruct (Z.eqb_spec t 0);
      [unfold CInt.UINT_MODULUS; lia | lia]. }
  change (Rotate.angle (Some Rotate.ROTATE_CW)) with 90.
  change (Rotate.angle (Some Rotate.ROTATE_CCW)) with 270.
  assert (Hback : forall a b, a + b = 360 -> 0 <= a <= 270 -> 0 <= b <= 270 ->
             CInt.wrap32
               (CInt.wrap32 (rotation + CInt.wrap32 (a * count)) mod 360
                + CInt.wrap32 (b * count)) mod 360 = rotation).
  { intros a b Hab Ha Hb.
    rewrite (rotation_sum rotation a count) by tauto.
    rewrite rotation_sum
      by (try tauto; apply Z.mod_pos_bound; lia).
    rewrite Zplus_mod_idemp_l.
    replace (rotation + a * count + b * count)
      with (rotation + count * 360) by nia.
    rewrite Z.mod_add by lia. apply Z.mod_small. exact Hr. }
  split; [apply Hback; lia |].
  split; [apply Hback; lia |].
  change (if 4 =? 0 then 1 else 4) with 4.
  rewrite rotation_sum by (unfold CInt.UINT_MODULUS; lia).
  replace (rotation + 90 * 4) with (rotation + 1 * 360) by lia.
  rewrite Z.mod_add by lia. apply Z.mod_small. exact Hr.
Qed.

(** From 270 degrees: one quarter turn clockwise gives 0, and turning
    back gives 270. *)
Lemma sc_rotate_back_270 :
  Rotate.new_rotation 270 (Some Rotate.ROTATE_CW) 0 = 0
  /\ Rotate.new_rotation
       (Rotate.new_rotation 270 (Some Rotate.ROTATE_CW) 0)
       (Some Rotate.ROTATE_CCW) 0 = 270.
Proof.
  split; [reflexivity |].
  apply (sc_rotate_back 270 0); unfold CInt.UINT_MODULUS; lia.
Defined.

(** ** [sc_toggle_page_mode] *)

(** X19: [sc_toggle_page_mode] never leaves 1 in its static [tmp] (which
    starts at 2), and toggling twice gives the pages-per-row setting back:
    from a setting other than 1 it goes to 1 and back, from 1 it goes to
    the remembered value and back to 1. Without a document nothing
    changes. *)
Theorem sc_toggle_page_mode_twice :
  forall s,
    PageMode.tmp s <> 1 ->
    let s1 := PageMode.after (PageMode.sc_toggle_page_mode true s) in
    let s2 := PageMode.after (PageMode.sc_toggle_page_mode true s1) in
    PageMode.tmp s1 <> 1 /\ PageMode.tmp s2 <> 1
    /\ PageMode.pages_per_row s2 = PageMode.pages_per_row s
    /\ (PageMode.pages_per_row s = 1 <-> PageMode.pages_per_row s1 <> 1)
    /\ PageMode.after (PageMode.sc_toggle_page_mode false s) = s.
Proof.
  intros s Htmp. cbv zeta. unfold PageMode.sc_toggle_page_mode. simpl.
  destruct (Z.eqb_spec (PageMode.pages_per_row s) 1) as [E | E]; simpl.
  - destruct (Z.eqb_spec (PageMode.tmp s) 1) as [E' | E']; [contradiction |].
    simpl. repeat split; auto; try congruence.
  - simpl. repeat split; auto; try congruence.
Qed.

(** From three pages per row with the initial [tmp]. *)
Lemma sc_toggle_page_mode_twice_three :
  PageMode.pages_per_row
    (PageMode.after
       (PageMode.sc_toggle_page_mode true
          (PageMode.after
             (PageMode.sc_toggle_page_mode true
                {| PageMode.tmp := PageMode.initial_tmp;
                   PageMode.pages_per_row := 3 |})))) = 3.
Proof.
  destruct (sc_toggle_page_mode_twice
              {| PageMode.tmp := PageMode.initial_tmp;
                 PageMode.pages_per_row := 3 |})
    as [_ [_ [H _]]]; [discriminate | exact H].
Defined.

(** ** [sc_toggle_fullscreen] *)

(** X20: entering and leaving fullscreen gives back the pages-per-row and
    first-page-column settings and the scale, whatever [sc_adjust_window]
    chose in between, and ends in normal mode with the window not
    fullscreen. It does not give back the adjust mode, which stays
    BESTFIT, and leaves the input bar hidden; the status bar is shown
    exactly when statusbar-show is set. *)
Theorem sc_toggle_fullscreen_twice :
  forall padding show_scrollbars v doc padding' show_scrollbars' v' doc'
         st vw,
    Fullscreen.fullscreen st = false ->
    let '(st1, vw1) :=
      Fullscreen.sc_toggle_fullscreen padding show_scrollbars v doc st vw in
    let '(st2, vw2) :=
      Fullscreen.sc_toggle_fullscreen padding' show_scrollbars' v' doc'
        st1 vw1 in
    Fullscreen.fullscreen st1 = true
    /\ Fullscreen.setting_pages_per_row vw1 = 1
    /\ Fullscreen.fullscreen st2 = false
    /\ Fullscreen.setting_pages_per_row vw2
       = Fullscreen.setting_pages_per_row vw
    /\ Fullscreen.setting_first_page_column vw2
       = Fullscreen.setting_first_page_column vw
    /\ Fullscreen.scale vw2 = Fullscreen.scale vw
    /\ Fullscreen.window_fullscreen vw2 = false
    /\ Fullscreen.mode vw2 = Fullscreen.mode_normal
    /\ Fullscreen.adjust_mode vw2 = Adjust.ZATHURA_ADJUST_BESTFIT
    /\ Fullscreen.inputbar_shown vw2 = false
    /\ Fullscreen.statusbar_shown vw2 = Fullscreen.setting_statusbar_show vw.
Proof.
  intros padding bars v doc padding' bars' v' doc' st vw Hoff.
  unfold Fullscreen.sc_toggle_fullscreen. rewrite Hoff.
  unfold Fullscreen.enter, Fullscreen.flip, Fullscreen.leave. rewrite Hoff.
  simpl.
  repeat split; try reflexivity.
  - destruct (Adjust.gdouble_ltb _ _); reflexivity.
  - destruct (Fullscreen.setting_statusbar_show vw); reflexivity.
Qed.

(** From a window with two pages per row at scale 3/2. *)
Lemma sc_toggle_fullscreen_twice_windowed :
  let '(st1, vw1) :=
    Fullscreen.sc_toggle_fullscreen 1 false Sample.small_view
      Sample.one_row_of_two Fullscreen.initial SampleViews.windowed in
  let '(st2, vw2) :=
    Fullscreen.sc_toggle_fullscreen 1 false Sample.small_view
      Sample.one_row_of_two st1 vw1 in
  Fullscreen.setting_pages_per_row vw2 = 2
  /\ Fullscreen.scale vw2 = Adjust.Finite (3 # 2)
  /\ Fullscreen.adjust_mode vw2 = Adjust.ZATHURA_ADJUST_BESTFIT.
Proof.
  pose proof (sc_toggle_fullscreen_twice 1 false Sample.small_view
                Sample.one_row_of_two 1 false Sample.small_view
                Sample.one_row_of_two Fullscreen.initial SampleViews.windowed
                eq_refl) as H.
  destruct (Fullscreen.sc_toggle_fullscreen 1 false Sample.small_view
              Sample.one_row_of_two Fullscreen.initial SampleViews.windowed)
    as [st1 vw1].
  destruct (Fullscreen.sc_toggle_fullscreen 1 false Sample.small_view
              Sample.one_row_of_two st1 vw1) as [st2 vw2].
  destruct H as [_ [_ [_ [H1 [_ [H2 [_ [_ [H3 _]]]]]]]]].
  split; [exact H1 | split; [exact H2 | exact H3]].
Defined.

(** 270 degrees and a clockwise quarter turn. *)
Lemma sc_rotate_quarter_turns_270 :
  Rotate.rotation
    (Rotate.sc_rotate Sample.two_columns Sample.small_view
       (fun _ => Sample.one_row_of_two) 270 0 (Adjust.Finite 1)
       Adjust.ZATHURA_ADJUST_NONE (Some Rotate.ROTATE_CW) 0) = 0.
Proof.
  destruct (sc_rotate_quarter_turns Sample.two_columns Sample.small_view
              (fun _ => Sample.one_row_of_two) 270 0 (Adjust.Finite 1)
              Adjust.ZATHURA_ADJUST_NONE (Some Rotate.ROTATE_CW) 0)
    as [_ [_ [_ H]]];
    [lia | reflexivity | lia | unfold CInt.UINT_MODULUS; lia |].
  rewrite H by discriminate. reflexivity.
Defined.

(** ** [draw_links] *)

Lemma draw_links_from_cons (p : option DrawLinks.page)
    (rest : list (option DrawLinks.page)) (page_offset : Z)
    (show_links : bool) :
  let shown :=
    match p with
    | Some q => DrawLinks.visibility q
    | None => false
    end in
  let next_offset :=
    match p with
    | Some q =>
        if DrawLinks.visibility q
        then CInt.wrap32 (page_offset + DrawLinks.number_of_links q)
        else page_offset
    | None => page_offset
    end in
  let next_show := if DrawLinks.shows_link p then true else show_links in
  DrawLinks.draw_links_from (p :: rest) page_offset show_links
  = (option_map
       (fun q =>
          {| DrawLinks.draw_links_property := DrawLinks.visibility q;
             DrawLinks.offset_links :=
               if DrawLinks.visibility q then Some page_offset else None |})
       p
     :: fst (DrawLinks.draw_links_from rest next_offset next_show),
     snd (DrawLinks.draw_links_from rest next_offset next_show)).
Proof.
  cbv zeta. destruct p as [q |]; simpl.
  - destruct (DrawLinks.visibility q); simpl.
    + destruct (DrawLinks.draw_links_from rest _ _); reflexivity.
    + destruct (DrawLinks.draw_links_from rest _ _); reflexivity.
  - destruct (DrawLinks.draw_links_from rest _ _); reflexivity.
Qed.

Lemma wrap32_add_l (a b : Z) :
  CInt.wrap32 (CInt.wrap32 a + b) = CInt.wrap32 (a + b).
Proof. unfold CInt.wrap32. apply Zplus_mod_idemp_l. Qed.

(** The offset stored for page [k]: the links shown before it. *)
Lemma draw_links_from_nth :
  forall (pages : list (option DrawLinks.page)) (page_offset : Z)
         (show_links : bool) (k : nat) (p : DrawLinks.page),
    0 <= page_offset < CInt.UINT_MODULUS ->
    nth_error pages k = Some (Some p) ->
    nth_error (fst (DrawLinks.draw_links_from pages page_offset show_links)) k
    = Some (Some
        {| DrawLinks.draw_links_property := DrawLinks.visibility p;
           DrawLinks.offset_links :=
             if DrawLinks.visibility p
             then Some (CInt.wrap32
                          (page_offset
                           + DrawLinks.links_shown (firstn k pages)))
             else None |}).
Proof.
  induction pages as [| q rest IH]; intros o show k p Ho Hk;
    [destruct k; discriminate |].
  rewrite draw_links_from_cons. cbv zeta. simpl fst.
  destruct k as [| k]; simpl in Hk.
  - injection Hk as ->. simpl. rewrite Z.add_0_r, wrap32_small by exact Ho.
    reflexivity.
  - simpl nth_error. rewrite (IH _ _ k p); [| | exact Hk].
    + do 2 f_equal. destruct (DrawLinks.visibility p); [| reflexivity].
      f_equal. simpl firstn.
      destruct q as [q |]; simpl DrawLinks.links_shown; [| reflexivity].
      destruct (DrawLinks.visibility q).
      * rewrite wrap32_add_l, Z.add_assoc. reflexivity.
      * reflexivity.
    + destruct q as [q |]; [| exact Ho].
      destruct (DrawLinks.visibility q); [apply wrap32_range | exact Ho].
Qed.

Lemma draw_links_from_show :
  forall (pages : list (option DrawLinks.page)) (page_offset : Z)
         (show_links : bool),
    snd (DrawLinks.draw_links_from pages page_offset show_links)
    = show_links || existsb DrawLinks.shows_link pages.
Proof.
  induction pages as [| q rest IH]; intros o show.
  - simpl. rewrite orb_false_r. reflexivity.
  - rewrite draw_links_from_cons. cbv zeta. simpl snd. rewrite IH.
    simpl existsb. destruct (DrawLinks.shows_link q), show; reflexivity.
Qed.

Lemma links_shown_firstn_le (pages : list (option DrawLinks.page)) :
  (forall p, In (Some p) pages -> 0 <= DrawLinks.number_of_links p) ->
  forall i j : nat,
    (i <= j)%nat ->
    0 <= DrawLinks.links_shown (firstn i pages)
    <= DrawLinks.links_shown (firstn j pages).
Proof.
  induction pages as [| q rest IH]; intros Hpos i j Hij.
  - rewrite !firstn_nil. simpl. lia.
  - assert (Hrest : forall p, In (Some p) rest ->
                               0 <= DrawLinks.number_of_links p)
      by (intros p Hp; apply Hpos; right; exact Hp).
    destruct i as [| i]; destruct j as [| j]; try lia; simpl.
    + lia.
    + pose proof (IH Hrest 0%nat j ltac:(lia)) as H0. simpl in H0.
      destruct q as [q |]; [| lia].
      pose proof (Hpos q (or_introl eq_refl)).
      destruct (DrawLinks.visibility q); lia.
    + pose proof (IH Hrest i j ltac:(lia)) as Hij'.
      destruct q as [q |]; [| lia].
      pose proof (Hpos q (or_introl eq_refl)).
      destruct (DrawLinks.visibility q); lia.
Qed.

Lemma links_shown_step (pages : list (option DrawLinks.page)) (i : nat)
    (p : DrawLinks.page) :
  nth_error pages i = Some (Some p) ->
  DrawLinks.links_shown (firstn (S i) pages)
  = DrawLinks.links_shown (firstn i pages)
    + (if DrawLinks.visibility p then DrawLinks.number_of_links p else 0).
Proof.
  revert i. induction pages as [| q rest IH]; intros [| i] Hi;
    try discriminate.
  - simpl in Hi. injection Hi as ->. simpl. lia.
  - simpl in Hi. change (firstn (S (S i)) (q :: rest))
      with (q :: firstn (S i) rest).
    change (firstn (S i) (q :: rest)) with (q :: firstn i rest).
    destruct q as [q |]; cbn [DrawLinks.links_shown];
      rewrite (IH i Hi); lia.
Qed.

(** X21: the numbering of the links that [draw_links] sets up. Every page
    gets "draw-links" set to its visibility, and a visible page gets as
    "offset-links" the number of links on the visible pages before it
    (modulo 2^32). So, when no link count is negative and the visible
    pages have fewer than 2^32 links in all, the numbers offset ..
    offset + number - 1 of two visible pages never overlap: the later
    page starts at or after the end of the earlier one. *)
Theorem draw_links_numbering :
  forall (pages : list (option DrawLinks.page)),
    (forall (k : nat) (p : DrawLinks.page),
        nth_error pages k = Some (Some p) ->
        nth_error (fst (DrawLinks.draw_links pages)) k
        = Some (Some
            {| DrawLinks.draw_links_property := DrawLinks.visibility p;
               DrawLinks.offset_links :=
                 if DrawLinks.visibility p
                 then Some (CInt.wrap32
                              (DrawLinks.links_shown (firstn k pages)))
                 else None |}))
    /\ ((forall p, In (Some p) pages -> 0 <= DrawLinks.number_of_links p) ->
        DrawLinks.links_shown pages < CInt.UINT_MODULUS ->
        forall (i j : nat) (p q : DrawLinks.page),
          (i < j)%nat ->
          nth_error pages i = Some (Some p) ->
          nth_error pages j = Some (Some q) ->
          DrawLinks.visibility p = true ->
          DrawLinks.visibility q = true ->
          exists first second,
            option_map (option_map DrawLinks.offset_links)
              (nth_error (fst (DrawLinks.draw_links pages)) i)
            = Some (Some (Some first))
            /\ option_map (option_map DrawLinks.offset_links)
                 (nth_error (fst (DrawLinks.draw_links pages)) j)
               = Some (Some (Some second))
            /\ first + DrawLinks.number_of_links p <= second).
Proof.
  intros pages.
  assert (Hnth : forall (k : nat) (p : DrawLinks.page),
             nth_error pages k = Some (Some p) ->
             nth_error (fst (DrawLinks.draw_links pages)) k
             = Some (Some
                 {| DrawLinks.draw_links_property := DrawLinks.visibility p;
                    DrawLinks.offset_links :=
                      if DrawLinks.visibility p
                      then Some (CInt.wrap32
                                   (DrawLinks.links_shown (firstn k pages)))
                      else None |})).
  { intros k p Hk. unfold DrawLinks.draw_links.
    rewrite (draw_links_from_nth pages 0 false k p)
      by (try exact Hk; unfold CInt.UINT_MODULUS; lia).
    reflexivity. }
  split; [exact Hnth |].
  intros Hpos Htotal i j p q Hij Hi Hj Hp Hq.
  rewrite (Hnth i p Hi), (Hnth j q Hj), Hp, Hq. simpl.
  eexists _, _. split; [reflexivity | split; [reflexivity |]].
  pose proof (links_shown_firstn_le pages Hpos (S i) j ltac:(lia)) as H1.
  pose proof (links_shown_firstn_le pages Hpos j (length pages) ltac:(
                apply Nat.lt_le_incl; apply nth_error_Some; rewrite Hj;
                discriminate)) as H2.
  pose proof (links_shown_firstn_le pages Hpos 0%nat i ltac:(lia)) as H3.
  rewrite firstn_all in H2. simpl in H3.
  rewrite (links_shown_step pages i p Hi), Hp in H1.
  pose proof (Hpos p (nth_error_In _ _ Hi)) as Hn.
  rewrite !wrap32_small by lia. lia.
Qed.

(** The four pages of the examples: offsets 0, none, 3 and 3. *)
Lemma draw_links_numbering_four :
  fst (DrawLinks.draw_links SampleViews.four_pages)
  = [Some {| DrawLinks.draw_links_property := true;
             DrawLinks.offset_links := Some 0 |};
     Some {| DrawLinks.draw_links_property := false;
             DrawLinks.offset_links := None |};
     Some {| DrawLinks.draw_links_property := true;
             DrawLinks.offset_links := Some 3 |};
     Some {| DrawLinks.draw_links_property := true;
             DrawLinks.offset_links := Some 3 |}]
  /\ exists first second,
       option_map (option_map DrawLinks.offset_links)
         (nth_error (fst (DrawLinks.draw_links SampleViews.four_pages)) 0)
       = Some (Some (Some first))
       /\ option_map (option_map DrawLinks.offset_links)
            (nth_error (fst (DrawLinks.draw_links SampleViews.four_pages)) 3)
          = Some (Some (Some second))
       /\ first + 3 <= second.
Proof.
  split; [reflexivity |].
  destruct (draw_links_numbering SampleViews.four_pages) as [_ H].
  apply (H ltac:(simpl; intuition (try discriminate);
                 match goal with
                 | E : Some _ = Some _ |- _ => injection E as <-; simpl; lia
                 end)
           ltac:(vm_compute; reflexivity) 0%nat 3%nat
           {| DrawLinks.visibility := true; DrawLinks.number_of_links := 3 |}
           {| DrawLinks.visibility := true; DrawLinks.number_of_links := 2 |});
    [lia | reflexivity | reflexivity | reflexivity | reflexivity].
Defined.

(** X22: [sc_follow] and [sc_display_link] open their dialog, and switch
    the adjust mode to INPUTBAR, exactly when some visible page has a
    link; otherwise the adjust mode stays what it was. In both cases the
    widgets are updated as [draw_links] does it. *)
Theorem sc_follow_asks :
  forall pages mode,
    let linked :=
      exists p, In (Some p) pages /\ DrawLinks.visibility p = true
                /\ DrawLinks.number_of_links p <> 0 in
    (linked ->
     DrawLinks.sc_follow pages mode
     = {| DrawLinks.updates := fst (DrawLinks.draw_links pages);
          DrawLinks.dialog := Some DrawLinks.Follow_link;
          DrawLinks.adjust_mode := Adjust.ZATHURA_ADJUST_INPUTBAR |}
     /\ DrawLinks.sc_display_link pages mode
        = {| DrawLinks.updates := fst (DrawLinks.draw_links pages);
             DrawLinks.dialog := Some DrawLinks.Display_link;
             DrawLinks.adjust_mode := Adjust.ZATHURA_ADJUST_INPUTBAR |})
    /\ (~ linked ->
        DrawLinks.sc_follow pages mode
        = {| DrawLinks.updates := fst (DrawLinks.draw_links pages);
             DrawLinks.dialog := None; DrawLinks.adjust_mode := mode |}
        /\ DrawLinks.sc_display_link pages mode
           = DrawLinks.sc_follow pages mode).
Proof.
  intros pages mode. cbv zeta.
  assert (Hshow : snd (DrawLinks.draw_links pages) = true
                  <-> exists p, In (Some p) pages
                                /\ DrawLinks.visibility p = true
                                /\ DrawLinks.number_of_links p <> 0).
  { unfold DrawLinks.draw_links. rewrite draw_links_from_show. simpl.
    rewrite existsb_exists. split.
    - intros [[p |] [Hin Hp]]; [| discriminate]. simpl in Hp.
      apply andb_true_iff in Hp. destruct Hp as [Hv Hn].
      apply negb_true_iff, Z.eqb_neq in Hn. eauto.
    - intros [p [Hin [Hv Hn]]]. exists (Some p). split; [exact Hin |].
      simpl. rewrite Hv. apply Z.eqb_neq in Hn. rewrite Hn. reflexivity. }
  unfold DrawLinks.sc_follow, DrawLinks.sc_display_link, DrawLinks.ask.
  destruct (DrawLinks.draw_links pages) as [updates show]. simpl in *.
  split.
  - intros Hlinked. apply Hshow in Hlinked. subst show.
    split; reflexivity.
  - intros Hnot. destruct show.
    + exfalso. apply Hnot. apply Hshow. reflexivity.
    + split; reflexivity.
Qed.

(** The four pages of the examples have links in view. *)
Lemma sc_follow_asks_four :
  DrawLinks.dialog
    (DrawLinks.sc_follow SampleViews.four_pages Adjust.ZATHURA_ADJUST_WIDTH)
  = Some DrawLinks.Follow_link
  /\ DrawLinks.adjust_mode
       (DrawLinks.sc_follow SampleViews.four_pages
          Adjust.ZATHURA_ADJUST_WIDTH) = Adjust.ZATHURA_ADJUST_INPUTBAR.
Proof.
  destruct (sc_follow_asks SampleViews.four_pages Adjust.ZATHURA_ADJUST_WIDTH)
    as [H _].
  destruct H as [E _].
  - exists {| DrawLinks.visibility := true; DrawLinks.number_of_links := 3 |}.
    split; [left; reflexivity | split; [reflexivity | discriminate]].
  - rewrite E. split; reflexivity.
Defined.
